(** * GolamV2 crawl engine: a shallow embedding and its properties

    The development follows the Go packages of the crawler:
    [domain] (tasks, results, URL validation), [queue] (the bounded priority
    frontier on top of [container/heap]), [storage] (the Badger-backed
    backlog and findings store, and the file store), [metrics] (the
    collector's counters), [infrastructure] (robots policy and content
    extractor) and [application] (the worker), plus the dashboard's
    URL-injection handler.

    Go's [int] and [int64] are 64-bit two's-complement integers; they are
    modelled as [Z] with the wrap-around written out ([wrap64]).  Slices
    are lists, indexed with stdpp's lookup and insert; [map[string]int] is
    a [gmap string Z].  Everything the program obtains from outside (the
    network, the clock, the random source, third-party parsers) enters the
    model as an explicit parameter: library functions through the classes
    [StdLib], [Codec] and [RobotsTxt], run-time behaviour through the
    record [Oracle].  Goroutines are not modelled: every operation below
    is one critical section or one sequential call. *)

From Stdlib Require Import ZArith QArith Qround String Ascii Lia ZifyNat List.
From Stdlib Require Import Permutation Sorted DecimalString OrderedTypeEx.
From stdpp Require Import base option list strings gmap.
From Equations Require Import Equations.
Import ListNotations.
Open Scope Z_scope.

(** ** Machine integers *)

Definition wrap64 (z : Z) : Z := (z + 2 ^ 63) mod 2 ^ 64 - 2 ^ 63.

Definition int64_min : Z := - 2 ^ 63.
Definition int64_max : Z := 2 ^ 63 - 1.

(** [atomic.AddInt64] and [+=] on an [int64]. *)
Definition add64 (a b : Z) : Z := wrap64 (a + b).

(** ** Go's standard library, as far as the engine calls it *)

(** The value of a parsed [*url.URL], restricted to the fields read. *)
Record url_URL := mkURL {
  Scheme : string;
  Host : string;
  Path : string
}.

(** [strings.ToLower], [strings.TrimSpace] and [net/url.Parse] ([None] for
    a parse error) are taken as given. *)
Class StdLib := {
  ToLower : string -> string;
  TrimSpace : string -> string;
  url_Parse : string -> option url_URL
}.

(** [strings.Contains s substr] *)
Fixpoint Contains (s substr : string) : bool :=
  String.prefix substr s ||
  match s with
  | EmptyString => false
  | String _ s' => Contains s' substr
  end.

(** [fmt.Sprintf("%d", z)] *)
Definition Itoa (z : Z) : string := NilZero.string_of_int (Z.to_int z).

(** The first [n] bytes of [s]: what [io.ReadAll] gets through
    [io.LimitReader(body, n)]. *)
Fixpoint takeBytes (n : N) (s : string) : string :=
  match s with
  | EmptyString => EmptyString
  | String c s' => if (n =? 0)%N then EmptyString else String c (takeBytes (N.pred n) s')
  end.

(** [utf8.DecodeRuneInString]: the width of the well-formed UTF-8
    sequence at the head of [s]; [0] when [s] is empty or its first byte
    does not start one (the case [RuneError, 1] of the Go function).
    The second byte of a sequence is confined further after [E0], [ED],
    [F0] and [F4]. *)
Definition byteIn (c : ascii) (lo hi : nat) : bool :=
  ((lo <=? nat_of_ascii c) && (nat_of_ascii c <=? hi))%nat.

Definition runeWidth (s : string) : nat :=
  match s with
  | EmptyString => 0
  | String c0 r0 =>
      let b0 := nat_of_ascii c0 in
      if (b0 <? 128)%nat then 1
      else if (b0 <? 194)%nat then 0
      else if (b0 <? 224)%nat then
        match r0 with
        | String c1 _ => if byteIn c1 128 191 then 2 else 0
        | _ => 0
        end
      else if (b0 <? 240)%nat then
        match r0 with
        | String c1 (String c2 _) =>
            if byteIn c1 (if (b0 =? 224)%nat then 160 else 128)
                         (if (b0 =? 237)%nat then 159 else 191)
               && byteIn c2 128 191
            then 3 else 0
        | _ => 0
        end
      else if (b0 <? 245)%nat then
        match r0 with
        | String c1 (String c2 (String c3 _)) =>
            if byteIn c1 (if (b0 =? 240)%nat then 144 else 128)
                         (if (b0 =? 244)%nat then 143 else 191)
               && byteIn c2 128 191 && byteIn c3 128 191
            then 4 else 0
        | _ => 0
        end
      else 0
  end.

(** U+FFFD in UTF-8. *)
Definition replacementChar : string :=
  String (ascii_of_nat 239) (String (ascii_of_nat 191) (String (ascii_of_nat 189) "")).

(** A string after [json.Marshal] and [json.Unmarshal]: the encoder
    copies well-formed sequences (escaping some, which the decoder
    undoes) and writes [\ufffd] for every byte at which
    [DecodeRuneInString] fails; [k] counts the bytes of the current
    sequence still to be copied. *)
Fixpoint jsonBytes (k : nat) (s : string) : string :=
  match s with
  | EmptyString => EmptyString
  | String c r =>
      match k with
      | S k' => String c (jsonBytes k' r)
      | O =>
          match runeWidth s with
          | O => (replacementChar ++ jsonBytes 0 r)%string
          | S n => String c (jsonBytes n r)
          end
      end
  end.

Definition jsonString (s : string) : string := jsonBytes 0 s.

(** ** Package [domain] *)

(** [time.Time] is kept as its Unix second count, the only view of it the
    engine consults. *)
Definition GoTime := Z.
Definition Unix (t : GoTime) : Z := t.

(** The zero [time.Time] is 1 January of year 1. *)
Definition zeroTime : GoTime := -62135596800.

Record URLTask := mkURLTask {
  URL : string;
  Depth : Z;
  Timestamp : GoTime;
  Retries : Z
}.

Definition zeroTask : URLTask :=
  {| URL := ""; Depth := 0; Timestamp := zeroTime; Retries := 0 |}.

Module CrawlResult.
Record t := mk {
  URL : string;
  StatusCode : Z;
  Title : string;
  Emails : list string;
  Keywords : gmap string Z;
  DeadLinks : list string;
  DeadDomains : list string;
  NewURLs : list string;
  ProcessedAt : GoTime;
  ProcessTime : Z;
  Error : string
}.

(** [domain.CrawlResult{URL: url, ProcessedAt: at}], other fields zero. *)
Definition init (url : string) (at_ : GoTime) : t :=
  mk url 0 "" [] ∅ [] [] [] at_ 0 "".

Definition set_StatusCode (r : t) (c : Z) : t :=
  mk (URL r) c (Title r) (Emails r) (Keywords r) (DeadLinks r) (DeadDomains r)
     (NewURLs r) (ProcessedAt r) (ProcessTime r) (Error r).

Definition set_Title (r : t) (x : string) : t :=
  mk (URL r) (StatusCode r) x (Emails r) (Keywords r) (DeadLinks r) (DeadDomains r)
     (NewURLs r) (ProcessedAt r) (ProcessTime r) (Error r).

Definition set_Emails (r : t) (x : list string) : t :=
  mk (URL r) (StatusCode r) (Title r) x (Keywords r) (DeadLinks r) (DeadDomains r)
     (NewURLs r) (ProcessedAt r) (ProcessTime r) (Error r).

Definition set_Keywords (r : t) (x : gmap string Z) : t :=
  mk (URL r) (StatusCode r) (Title r) (Emails r) x (DeadLinks r) (DeadDomains r)
     (NewURLs r) (ProcessedAt r) (ProcessTime r) (Error r).

Definition set_Dead (r : t) (links domains : list string) : t :=
  mk (URL r) (StatusCode r) (Title r) (Emails r) (Keywords r) links domains
     (NewURLs r) (ProcessedAt r) (ProcessTime r) (Error r).

Definition set_NewURLs (r : t) (x : list string) : t :=
  mk (URL r) (StatusCode r) (Title r) (Emails r) (Keywords r) (DeadLinks r)
     (DeadDomains r) x (ProcessedAt r) (ProcessTime r) (Error r).

Definition set_ProcessTime (r : t) (x : Z) : t :=
  mk (URL r) (StatusCode r) (Title r) (Emails r) (Keywords r) (DeadLinks r)
     (DeadDomains r) (NewURLs r) (ProcessedAt r) x (Error r).

Definition set_Error (r : t) (x : string) : t :=
  mk (URL r) (StatusCode r) (Title r) (Emails r) (Keywords r) (DeadLinks r)
     (DeadDomains r) (NewURLs r) (ProcessedAt r) (ProcessTime r) x.

End CrawlResult.

(** The counters and gauges of [CrawlMetrics]; its floating-point rates,
    memory figures and wall-clock stamps play no part below. *)
Record CrawlMetrics := mkMetrics {
  URLsProcessed : Z;
  URLsInQueue : Z;
  URLsInDB : Z;
  EmailsFound : Z;
  KeywordsFound : Z;
  LinksChecked : Z;
  DeadLinksFound : Z;
  DeadDomainsFound : Z;
  ActiveWorkers : Z;
  Errors : Z
}.

Definition zeroMetrics : CrawlMetrics :=
  mkMetrics 0 0 0 0 0 0 0 0 0 0.

Definition IsValidURL `{StdLib} (urlStr : string) : bool :=
  if String.eqb urlStr "" then false
  else match url_Parse urlStr with
       | None => false
       | Some u => String.eqb (Scheme u) "http" || String.eqb (Scheme u) "https"
       end.

Definition GetDomain `{StdLib} (urlStr : string) : string :=
  match url_Parse urlStr with
  | None => ""
  | Some u => Host u
  end.

(** ** Package [queue]: the heap of items *)

Record urlItem := mkItem {
  task : URLTask;
  priority : Z;   (* int64, lower number = higher priority *)
  index : Z
}.

Definition set_index (it : urlItem) (i : Z) : urlItem :=
  {| task := task it; priority := priority it; index := i |}.

(** What a heap slot carries apart from its bookkeeping index. *)
Definition item_key (it : urlItem) : URLTask * Z := (task it, priority it).

Module urlHeap.

Abbreviation t := (list urlItem) (only parsing).

Definition Len (h : t) : nat := length h.

(** Go panics on an index outside the slice; [container/heap] never
    passes one, and the model answers [false] there. *)
Definition Less (h : t) (i j : nat) : bool :=
  match h !! i, h !! j with
  | Some a, Some b => priority a <? priority b
  | _, _ => false
  end.

(** [h[i], h[j] = h[j], h[i]; h[i].index = i; h[j].index = j] *)
Definition Swap (h : t) (i j : nat) : t :=
  match h !! i, h !! j with
  | Some a, Some b =>
      <[i := set_index b (Z.of_nat i)]> (<[j := set_index a (Z.of_nat j)]> h)
  | _, _ => h
  end.

(** [item.index = n; *h = append( *h, item)] *)
Definition Push (h : t) (x : urlItem) : t :=
  h ++ [set_index x (Z.of_nat (length h))].

(** Removes the last slot; [None] stands for Go's panic on an empty
    slice. *)
Definition Pop (h : t) : option (urlItem * t) :=
  match last h with
  | Some it => Some (set_index it (-1), take (length h - 1) h)
  | None => None
  end.

End urlHeap.

(** ** Package [container/heap], instantiated at [urlHeap]

    Indices are natural numbers: Go's [(j - 1) / 2] truncates towards zero,
    so at [j = 0] it is [0], as is the truncated subtraction here; the
    overflow test [j1 < 0] of [down] cannot fire. *)
Module heap.

Equations? up (h : urlHeap.t) (j : nat) : urlHeap.t by wf j lt :=
  up h j :=
    match decide (((j - 1) / 2)%nat = j) with
    | left _ => h
    | right _ =>
        if urlHeap.Less h j ((j - 1) / 2)%nat
        then up (urlHeap.Swap h ((j - 1) / 2)%nat j) ((j - 1) / 2)%nat
        else h
    end.
Proof.
  change (fst (Nat.divmod (j - 1) 1 0 1)) with ((j - 1) / 2)%nat in *. lia.
Qed.

(** The child that [down] compares with slot [i]: the right one when it
    exists and is smaller, else the left one. *)
Definition child (h : urlHeap.t) (i n : nat) : nat :=
  if bool_decide (2 * i + 1 + 1 < n)%nat
     && urlHeap.Less h (2 * i + 1 + 1)%nat (2 * i + 1)%nat
  then (2 * i + 1 + 1)%nat else (2 * i + 1)%nat.

(** The boolean that Go's [down] also returns is only read by [heap.Fix]
    and [heap.Remove], which the crawler never calls. *)
Equations? down (h : urlHeap.t) (i n : nat) : urlHeap.t by wf (n - i)%nat lt :=
  down h i n :=
    match decide (2 * i + 1 < n)%nat with
    | right _ => h
    | left _ =>
        if urlHeap.Less h (child h i n) i
        then down (urlHeap.Swap h i (child h i n)) (child h i n) n
        else h
    end.
Proof.
  unfold child. destruct (_ && _); lia.
Qed.

Definition Init (h : urlHeap.t) : urlHeap.t :=
  let n := urlHeap.Len h in
  fold_left (fun acc i => down acc i n) (rev (seq 0 (n / 2))) h.

Definition Push (h : urlHeap.t) (x : urlItem) : urlHeap.t :=
  let h1 := urlHeap.Push h x in
  up h1 (urlHeap.Len h1 - 1).

Definition Pop (h : urlHeap.t) : option (urlItem * urlHeap.t) :=
  let n := (urlHeap.Len h - 1)%nat in
  let h1 := urlHeap.Swap h 0 n in
  let h2 := down h1 0 n in
  urlHeap.Pop h2.

End heap.

(** ** Package [queue]: the bounded frontier *)

Definition MaxQueueSize : Z := 100000.

(** [int(float64(MaxQueueSize) * RefillThreshold)] is a constant
    expression; Go evaluates [100000 * 0.2] exactly. *)
Definition RefillThresholdSize : Z := 20000.

Inductive QueueError := ErrQueueFull | ErrQueueEmpty.

Definition QueueError_Message (e : QueueError) : string :=
  match e with
  | ErrQueueFull => "queue is full"
  | ErrQueueEmpty => "queue is empty"
  end.

Record PriorityURLQueue := mkQueue {
  qheap : list urlItem;
  maxSize : Z;
  refillThreshold : Z;
  refilling : bool
}.

Definition set_qheap (q : PriorityURLQueue) (h : list urlItem) : PriorityURLQueue :=
  {| qheap := h; maxSize := maxSize q;
     refillThreshold := refillThreshold q; refilling := refilling q |}.

Definition set_refilling (q : PriorityURLQueue) (b : bool) : PriorityURLQueue :=
  {| qheap := qheap q; maxSize := maxSize q;
     refillThreshold := refillThreshold q; refilling := b |}.

(** [int64(task.Depth*1000) + task.Timestamp.Unix()] *)
Definition priority_of (t : URLTask) : Z :=
  wrap64 (wrap64 (Depth t * 1000) + Unix (Timestamp t)).

Module Queue.

Definition New : PriorityURLQueue :=
  {| qheap := heap.Init []; maxSize := MaxQueueSize;
     refillThreshold := RefillThresholdSize; refilling := false |}.

Definition Size (q : PriorityURLQueue) : Z := Z.of_nat (urlHeap.Len (qheap q)).

Definition IsFull (q : PriorityURLQueue) : bool := maxSize q <=? Size q.

Definition IsEmpty (q : PriorityURLQueue) : bool := Size q =? 0.

(** The result pairs the queue after the call with Go's [error]
    ([None] for [nil]). *)
Definition Push (q : PriorityURLQueue) (t : URLTask)
  : PriorityURLQueue * option QueueError :=
  if maxSize q <=? Z.of_nat (urlHeap.Len (qheap q)) then (q, Some ErrQueueFull)
  else
    let item := {| task := t; priority := priority_of t; index := 0 |} in
    (set_qheap q (heap.Push (qheap q) item), None).

(** What [Pop] hands back: the task and error of the Go signature, the
    queue after the call, and whether a refill goroutine was started. *)
Record PopResult := mkPop {
  popped : URLTask;
  pop_err : option QueueError;
  pop_queue : PriorityURLQueue;
  pop_refill : bool
}.

Definition Pop (q : PriorityURLQueue) : PopResult :=
  if (urlHeap.Len (qheap q) =? 0)%nat
  then mkPop zeroTask (Some ErrQueueEmpty) q false
  else
    match heap.Pop (qheap q) with
    | None => mkPop zeroTask (Some ErrQueueEmpty) q false
    | Some (item, h') =>
        let q' := set_qheap q h' in
        mkPop (task item) None q'
              ((Z.of_nat (urlHeap.Len h') <? refillThreshold q) && negb (refilling q))
    end.

(** [*q.heap = ( *q.heap)[:0]] *)
Definition Close (q : PriorityURLQueue) : PriorityURLQueue := set_qheap q [].

(** The loop of [refillFromDB]: push until the first refusal. *)
Fixpoint pushAll (q : PriorityURLQueue) (urls : list URLTask) : PriorityURLQueue :=
  match urls with
  | [] => q
  | t :: rest =>
      match Push q t with
      | (q', None) => pushAll q' rest
      | (q', Some _) => q'
      end
  end.

End Queue.

(** ** Package [storage]: the Badger-backed store *)

Definition URLPrefix : string := "url:".
Definition ResultPrefix : string := "result:".
Definition MetricsKey : string := "metrics".

(** A task after a trip through [encoding/json]: the numbers and the
    time stamp come back as they were, the URL comes back as
    [jsonString] leaves it. *)
Definition jsonTask (t : URLTask) : URLTask :=
  {| URL := jsonString (URL t); Depth := Depth t; Timestamp := Timestamp t;
     Retries := Retries t |}.

(** [encoding/json] for the three record types that are stored.
    Decoding what [json.Marshal] produced for a task gives [jsonTask] of
    it: the task itself when its URL is well-formed UTF-8, a task with
    another URL otherwise.  ([json.Marshal] refuses a task only for a
    time stamp outside the years 0 to 9999; the engine stamps its tasks
    with [time.Now()].) *)
Class Codec := {
  Bytes : Type;
  marshalTask : URLTask -> Bytes;
  unmarshalTask : Bytes -> option URLTask;
  marshalResult : CrawlResult.t -> Bytes;
  marshalMetrics : CrawlMetrics -> Bytes;
  unmarshal_marshalTask :
    forall t : URLTask, unmarshalTask (marshalTask t) = Some (jsonTask t)
}.

(** A Badger database is an ordered key-value map: a list of entries in
    strictly ascending byte order of their keys. *)
Definition key_lt (a b : string) : Prop := String.compare a b = Lt.

Fixpoint db_set {V : Type} (k : string) (v : V) (db : list (string * V))
  : list (string * V) :=
  match db with
  | [] => [(k, v)]
  | (k', v') :: rest =>
      match String.compare k k' with
      | Lt => (k, v) :: (k', v') :: rest
      | Eq => (k, v) :: rest
      | Gt => (k', v') :: db_set k v rest
      end
  end.

Definition db_delete {V : Type} (k : string) (db : list (string * V))
  : list (string * V) :=
  List.filter (fun e => negb (String.eqb (fst e) k)) db.

(** [iterator.Seek(prefix)]: skip the keys below [prefix]. *)
Fixpoint db_seek {V : Type} (prefix : string) (db : list (string * V))
  : list (string * V) :=
  match db with
  | [] => []
  | (k, v) :: rest =>
      if String.ltb k prefix then db_seek prefix rest else (k, v) :: rest
  end.

(** [txn.Get(key)]: [None] is [ErrKeyNotFound]. *)
Fixpoint db_get {V : Type} (k : string) (db : list (string * V)) : option V :=
  match db with
  | [] => None
  | (k', v) :: rest => if String.eqb k' k then Some v else db_get k rest
  end.

(** [json.Unmarshal(val, s.metrics)] fills the record it is handed.  The
    encoding of a [CrawlMetrics] names every counter, so decoding it
    overwrites them all. *)
Class MetricsDecoder `{Codec} := {
  unmarshalMetricsInto : Bytes -> CrawlMetrics -> CrawlMetrics;
  unmarshalInto_marshalMetrics :
    forall m m0 : CrawlMetrics, unmarshalMetricsInto (marshalMetrics m) m0 = m
}.

Record BadgerStorage `{Codec} := mkStorage {
  urlDB : list (string * Bytes);
  resultsDB : list (string * Bytes);
  metrics : CrawlMetrics
}.

Module Badger.
Section WithCodec.
Context `{Codec}.

Definition New : BadgerStorage :=
  {| urlDB := []; resultsDB := []; metrics := zeroMetrics |}.

(** [ok] tells whether the Badger transaction committed; on failure the
    database is unchanged and the error is returned ([false]). *)
Definition StoreURL (s : BadgerStorage) (t : URLTask) (ok : bool)
  : BadgerStorage * bool :=
  let data := marshalTask t in
  let key := (URLPrefix ++ URL t)%string in
  if ok then
    ({| urlDB := db_set key data (urlDB s); resultsDB := resultsDB s;
        metrics := metrics s |}, true)
  else (s, false).

(** The iteration of [GetURLs]: entries from the seek position on, while
    the key carries the prefix and [count < limit].  [None] is the error
    of a value that does not decode. *)
Fixpoint scanURLs (entries : list (string * Bytes)) (count limit : Z)
  (tasks : list URLTask) : list URLTask * bool :=
  match entries with
  | [] => (tasks, true)
  | (k, v) :: rest =>
      if String.prefix URLPrefix k && (count <? limit) then
        match unmarshalTask v with
        | None => (tasks, false)
        | Some t => scanURLs rest (count + 1) limit (tasks ++ [t])
        end
      else (tasks, true)
  end.

Definition deleteURLsBatch (s : BadgerStorage) (tasks : list URLTask)
  : BadgerStorage :=
  {| urlDB := fold_left (fun db t => db_delete (URLPrefix ++ URL t)%string db)
                        tasks (urlDB s);
     resultsDB := resultsDB s; metrics := metrics s |}.

(** Returns the tasks, whether [err == nil], and the store afterwards. *)
Definition GetURLs (s : BadgerStorage) (limit : Z)
  : list URLTask * bool * BadgerStorage :=
  let '(tasks, ok) := scanURLs (db_seek URLPrefix (urlDB s)) 0 limit [] in
  if ok && (0 <? Z.of_nat (length tasks))
  then (tasks, ok, deleteURLsBatch s tasks)
  else (tasks, ok, s).

Definition resultKey (r : CrawlResult.t) : string :=
  (ResultPrefix ++ CrawlResult.URL r ++ "_" ++ Itoa (Unix (CrawlResult.ProcessedAt r)))%string.

Definition bump (n : nat) (c : Z) : Z :=
  if (0 <? n)%nat then add64 c (Z.of_nat n) else c.

Definition StoreResult (s : BadgerStorage) (r : CrawlResult.t) (ok : bool)
  : BadgerStorage * bool :=
  let data := marshalResult r in
  let key := resultKey r in
  if ok then
    let m := metrics s in
    ({| urlDB := urlDB s;
        resultsDB := db_set key data (resultsDB s);
        metrics :=
          {| URLsProcessed := add64 (URLsProcessed m) 1;
             URLsInQueue := URLsInQueue m;
             URLsInDB := URLsInDB m;
             EmailsFound := bump (length (CrawlResult.Emails r)) (EmailsFound m);
             KeywordsFound := bump (size (CrawlResult.Keywords r)) (KeywordsFound m);
             LinksChecked := LinksChecked m;
             DeadLinksFound := bump (length (CrawlResult.DeadLinks r)) (DeadLinksFound m);
             DeadDomainsFound :=
               bump (length (CrawlResult.DeadDomains r)) (DeadDomainsFound m);
             ActiveWorkers := ActiveWorkers m;
             Errors := if String.eqb (CrawlResult.Error r) "" then Errors m
                       else add64 (Errors m) 1 |} |}, true)
  else (s, false).

(** Counts while [ValidForPrefix] holds. *)
Fixpoint countPrefixed (entries : list (string * Bytes)) : Z :=
  match entries with
  | [] => 0
  | (k, _) :: rest =>
      if String.prefix URLPrefix k then add64 (countPrefixed rest) 1 else 0
  end.

Definition countURLsInDB (s : BadgerStorage) : Z :=
  countPrefixed (db_seek URLPrefix (urlDB s)).

Definition saveMetrics (s : BadgerStorage) : BadgerStorage :=
  {| urlDB := db_set MetricsKey (marshalMetrics (metrics s)) (urlDB s);
     resultsDB := resultsDB s; metrics := metrics s |}.

(** An absent key and a failed [View] leave the metrics as they are. *)
Definition loadMetrics `{!MetricsDecoder} (s : BadgerStorage) : BadgerStorage :=
  match db_get MetricsKey (urlDB s) with
  | None => s
  | Some val =>
      {| urlDB := urlDB s; resultsDB := resultsDB s;
         metrics := unmarshalMetricsInto val (metrics s) |}
  end.

(** [NewBadgerStorage] on the two databases found at [dbPath]: fresh
    counters, then [loadMetrics]. *)
Definition Open `{!MetricsDecoder} (urls results : list (string * Bytes))
  : BadgerStorage :=
  loadMetrics {| urlDB := urls; resultsDB := results; metrics := zeroMetrics |}.

(** Refreshes the gauge [URLsInDB] and hands out the metrics. *)
Definition GetMetrics (s : BadgerStorage) : CrawlMetrics * BadgerStorage :=
  let m := metrics s in
  let m' := {| URLsProcessed := URLsProcessed m; URLsInQueue := URLsInQueue m;
               URLsInDB := countURLsInDB s; EmailsFound := EmailsFound m;
               KeywordsFound := KeywordsFound m; LinksChecked := LinksChecked m;
               DeadLinksFound := DeadLinksFound m;
               DeadDomainsFound := DeadDomainsFound m;
               ActiveWorkers := ActiveWorkers m; Errors := Errors m |} in
  (m', {| urlDB := urlDB s; resultsDB := resultsDB s; metrics := m' |}).

(** [Close] saves the metrics; what stays on disk is the two databases
    of the result. *)
Definition Close (s : BadgerStorage) : BadgerStorage := saveMetrics s.

End WithCodec.
End Badger.

(** ** Package [storage]: the file store *)

Record FastFileStorage `{Codec} := mkFileStorage {
  resultsLines : list Bytes;
  urlsLines : list Bytes;
  fileMetrics : CrawlMetrics
}.

Module FastFile.
Section WithCodec.
Context `{Codec}.

Definition New : FastFileStorage :=
  {| resultsLines := []; urlsLines := []; fileMetrics := zeroMetrics |}.

(** [ok] tells whether the JSON line could be written. *)
Definition StoreResult (s : FastFileStorage) (r : CrawlResult.t) (ok : bool)
  : FastFileStorage * bool :=
  if ok then
    let m := fileMetrics s in
    ({| resultsLines := resultsLines s ++ [marshalResult r];
        urlsLines := urlsLines s;
        fileMetrics :=
          {| URLsProcessed := add64 (URLsProcessed m) 1;
             URLsInQueue := URLsInQueue m;
             URLsInDB := URLsInDB m;
             EmailsFound := Badger.bump (length (CrawlResult.Emails r)) (EmailsFound m);
             KeywordsFound :=
               Badger.bump (size (CrawlResult.Keywords r)) (KeywordsFound m);
             LinksChecked := LinksChecked m;
             DeadLinksFound := DeadLinksFound m;
             DeadDomainsFound := DeadDomainsFound m;
             ActiveWorkers := ActiveWorkers m;
             Errors := Errors m |} |}, true)
  else (s, false).

Definition StoreURL (s : FastFileStorage) (t : URLTask) (ok : bool)
  : FastFileStorage * bool :=
  if ok then
    ({| resultsLines := resultsLines s; urlsLines := urlsLines s ++ [marshalTask t];
        fileMetrics := fileMetrics s |}, true)
  else (s, false).

End WithCodec.
End FastFile.

(** ** Package [metrics]: the collector's counters *)

Module Collector.

Definition UpdateURLsProcessed (m : CrawlMetrics) (delta : Z) : CrawlMetrics :=
  {| URLsProcessed := add64 (URLsProcessed m) delta; URLsInQueue := URLsInQueue m;
     URLsInDB := URLsInDB m; EmailsFound := EmailsFound m;
     KeywordsFound := KeywordsFound m; LinksChecked := LinksChecked m;
     DeadLinksFound := DeadLinksFound m; DeadDomainsFound := DeadDomainsFound m;
     ActiveWorkers := ActiveWorkers m; Errors := Errors m |}.

Definition UpdateEmailsFound (m : CrawlMetrics) (delta : Z) : CrawlMetrics :=
  {| URLsProcessed := URLsProcessed m; URLsInQueue := URLsInQueue m;
     URLsInDB := URLsInDB m; EmailsFound := add64 (EmailsFound m) delta;
     KeywordsFound := KeywordsFound m; LinksChecked := LinksChecked m;
     DeadLinksFound := DeadLinksFound m; DeadDomainsFound := DeadDomainsFound m;
     ActiveWorkers := ActiveWorkers m; Errors := Errors m |}.

Definition UpdateKeywordsFound (m : CrawlMetrics) (delta : Z) : CrawlMetrics :=
  {| URLsProcessed := URLsProcessed m; URLsInQueue := URLsInQueue m;
     URLsInDB := URLsInDB m; EmailsFound := EmailsFound m;
     KeywordsFound := add64 (KeywordsFound m) delta; LinksChecked := LinksChecked m;
     DeadLinksFound := DeadLinksFound m; DeadDomainsFound := DeadDomainsFound m;
     ActiveWorkers := ActiveWorkers m; Errors := Errors m |}.

Definition UpdateLinksChecked (m : CrawlMetrics) (delta : Z) : CrawlMetrics :=
  {| URLsProcessed := URLsProcessed m; URLsInQueue := URLsInQueue m;
     URLsInDB := URLsInDB m; EmailsFound := EmailsFound m;
     KeywordsFound := KeywordsFound m; LinksChecked := add64 (LinksChecked m) delta;
     DeadLinksFound := DeadLinksFound m; DeadDomainsFound := DeadDomainsFound m;
     ActiveWorkers := ActiveWorkers m; Errors := Errors m |}.

Definition UpdateDeadLinksFound (m : CrawlMetrics) (delta : Z) : CrawlMetrics :=
  {| URLsProcessed := URLsProcessed m; URLsInQueue := URLsInQueue m;
     URLsInDB := URLsInDB m; EmailsFound := EmailsFound m;
     KeywordsFound := KeywordsFound m; LinksChecked := LinksChecked m;
     DeadLinksFound := add64 (DeadLinksFound m) delta;
     DeadDomainsFound := DeadDomainsFound m;
     ActiveWorkers := ActiveWorkers m; Errors := Errors m |}.

Definition UpdateDeadDomainsFound (m : CrawlMetrics) (delta : Z) : CrawlMetrics :=
  {| URLsProcessed := URLsProcessed m; URLsInQueue := URLsInQueue m;
     URLsInDB := URLsInDB m; EmailsFound := EmailsFound m;
     KeywordsFound := KeywordsFound m; LinksChecked := LinksChecked m;
     DeadLinksFound := DeadLinksFound m;
     DeadDomainsFound := add64 (DeadDomainsFound m) delta;
     ActiveWorkers := ActiveWorkers m; Errors := Errors m |}.

Definition UpdateErrors (m : CrawlMetrics) (delta : Z) : CrawlMetrics :=
  {| URLsProcessed := URLsProcessed m; URLsInQueue := URLsInQueue m;
     URLsInDB := URLsInDB m; EmailsFound := EmailsFound m;
     KeywordsFound := KeywordsFound m; LinksChecked := LinksChecked m;
     DeadLinksFound := DeadLinksFound m; DeadDomainsFound := DeadDomainsFound m;
     ActiveWorkers := ActiveWorkers m; Errors := add64 (Errors m) delta |}.

(** [atomic.StoreInt64(&m.metrics.URLsInQueue, count)] *)
Definition UpdateURLsInQueue (m : CrawlMetrics) (count : Z) : CrawlMetrics :=
  {| URLsProcessed := URLsProcessed m; URLsInQueue := count;
     URLsInDB := URLsInDB m; EmailsFound := EmailsFound m;
     KeywordsFound := KeywordsFound m; LinksChecked := LinksChecked m;
     DeadLinksFound := DeadLinksFound m; DeadDomainsFound := DeadDomainsFound m;
     ActiveWorkers := ActiveWorkers m; Errors := Errors m |}.

Definition UpdateURLsInDB (m : CrawlMetrics) (count : Z) : CrawlMetrics :=
  {| URLsProcessed := URLsProcessed m; URLsInQueue := URLsInQueue m;
     URLsInDB := count; EmailsFound := EmailsFound m;
     KeywordsFound := KeywordsFound m; LinksChecked := LinksChecked m;
     DeadLinksFound := DeadLinksFound m; DeadDomainsFound := DeadDomainsFound m;
     ActiveWorkers := ActiveWorkers m; Errors := Errors m |}.

Definition UpdateActiveWorkers (m : CrawlMetrics) (count : Z) : CrawlMetrics :=
  {| URLsProcessed := URLsProcessed m; URLsInQueue := URLsInQueue m;
     URLsInDB := URLsInDB m; EmailsFound := EmailsFound m;
     KeywordsFound := KeywordsFound m; LinksChecked := LinksChecked m;
     DeadLinksFound := DeadLinksFound m; DeadDomainsFound := DeadDomainsFound m;
     ActiveWorkers := count; Errors := Errors m |}.

End Collector.

(** ** What the engine meets at run time *)

(** A response as the HTTP client hands it over: status, the value of
    the [Content-Type] header ([""] when absent, as [Header.Get] gives
    it), the bytes the server would send, and where reading the body
    breaks off with an error, if it does. *)
Record HTTPResponse := mkResponse {
  respStatus : Z;
  respContentType : string;
  respBody : string;
  respReadError : option (N * string)
}.

(** [http.NewRequest] followed by one call of [client.Do]: the request
    cannot be built ([Do] is not called), the call fails, or it hands
    back a response.  The worker's client has no [CheckRedirect], so its
    response is the one at the end of the redirects that [Do] followed;
    the requests [Do] sends on the way are not part of the model.  The
    dead-link client stops at the first response. *)
Inductive DoOutcome :=
| RequestError (msg : string)
| TransportError (msg : string)
| Responded (resp : HTTPResponse).

Record Oracle := mkOracle {
  (* the robots checker's own client *)
  robotsGet : string -> option HTTPResponse;
  (* rate.Limiter.Wait: false when the context was cancelled *)
  rateWait : bool;
  (* client.Do, for the worker's GET and for the dead-link client's HEAD *)
  httpDo : string -> DoOutcome;
  headDo : string -> DoOutcome;
  (* goquery and regexp *)
  ExtractTitle : string -> string;
  ExtractEmails : string -> list string;
  ExtractKeywords : string -> list string -> gmap string Z;
  ExtractLinks : string -> string -> list string;
  (* false positives of the Bloom filter, given what was added *)
  bloomCollision : list string -> string -> bool;
  (* time.Now() at the creation of the task for a URL, at the start of
     processing, and the time processing took *)
  taskTime : string -> GoTime;
  startTime : GoTime;
  elapsed : Z;
  (* rand.Intn *)
  randIntn : nat -> nat;
  (* whether the Badger write under a key commits *)
  commitOK : string -> bool
}.

(** ** Package [bloom], seen through [domain.BloomFilter] *)

Module Bloom.

Definition Add (added : list string) (url : string) : list string := url :: added.

(** Never a false negative; a false positive when the oracle says so. *)
Definition Test (E : Oracle) (added : list string) (url : string) : bool :=
  bool_decide (url ∈ added) || bloomCollision E added url.

End Bloom.

(** ** Package [infrastructure]: robots policy *)

(** The [temoto/robotstxt] library: parsed rules, their user-agent groups
    and the path test. *)
Class RobotsTxt := {
  RobotsData : Type;
  Group : Type;
  FromResponse : HTTPResponse -> option RobotsData;
  FindGroup : RobotsData -> string -> option Group;
  GroupTest : Group -> string -> bool;
  GroupCrawlDelay : Group -> Z;
  Sitemaps : RobotsData -> list string
}.

(** The cache maps a host to a pointer that may be nil: a negative entry
    is [Some None], an absent one [None].  [robotsRequests] lists the
    [robots.txt] URLs requested so far. *)
Record RobotsChecker `{RobotsTxt} := mkRobots {
  cache : gmap string (option RobotsData);
  robotsRequests : list string
}.

Module Robots.
Section WithLibs.
Context `{StdLib} `{RobotsTxt}.

Definition New : RobotsChecker := {| cache := ∅; robotsRequests := [] |}.

Definition cacheRobots (r : RobotsChecker) (domain : string)
  (robots : option RobotsData) : RobotsChecker :=
  {| cache := <[domain := robots]> (cache r); robotsRequests := robotsRequests r |}.

Definition request (r : RobotsChecker) (url : string) : RobotsChecker :=
  {| cache := cache r; robotsRequests := robotsRequests r ++ [url] |}.

(** The part of [getRobots] that follows a delivered response. *)
Definition fromResponse (r : RobotsChecker) (domain : string) (resp : HTTPResponse)
  : option RobotsData * RobotsChecker :=
  if negb (respStatus resp =? 200) then (None, cacheRobots r domain None)
  else match FromResponse resp with
       | None => (None, cacheRobots r domain None)
       | Some robots => (Some robots, cacheRobots r domain (Some robots))
       end.

Definition getRobots (E : Oracle) (r : RobotsChecker) (domain : string)
  : option RobotsData * RobotsChecker :=
  match cache r !! domain with
  | Some robots => (robots, r)
  | None =>
      let https := ("https://" ++ domain ++ "/robots.txt")%string in
      match robotsGet E https with
      | Some resp => fromResponse (request r https) domain resp
      | None =>
          let http := ("http://" ++ domain ++ "/robots.txt")%string in
          let r2 := request (request r https) http in
          match robotsGet E http with
          | Some resp => fromResponse r2 domain resp
          | None => (None, cacheRobots r2 domain None)
          end
      end
  end.

Definition findGroup (robots : RobotsData) (userAgent : string) : option Group :=
  match FindGroup robots userAgent with
  | Some g => Some g
  | None => FindGroup robots "*"
  end.

Definition CanFetch (E : Oracle) (r : RobotsChecker) (userAgent urlStr : string)
  : bool * RobotsChecker :=
  match url_Parse urlStr with
  | None => (false, r)
  | Some u =>
      let domain := Host u in
      match getRobots E r domain with
      | (None, r') => (true, r')
      | (Some robots, r') =>
          match findGroup robots userAgent with
          | None => (true, r')
          | Some group => (GroupTest group (Path u), r')
          end
      end
  end.

(** In seconds; Go multiplies by [time.Second]. *)
Definition GetCrawlDelay (E : Oracle) (r : RobotsChecker) (userAgent domain : string)
  : Z * RobotsChecker :=
  match getRobots E r domain with
  | (None, r') => (0, r')
  | (Some robots, r') =>
      match findGroup robots userAgent with
      | None => (0, r')
      | Some group => (GroupCrawlDelay group, r')
      end
  end.

Definition GetSitemaps (E : Oracle) (r : RobotsChecker) (domain : string)
  : list string * RobotsChecker :=
  match getRobots E r domain with
  | (None, r') => ([], r')
  | (Some robots, r') => (Sitemaps robots, r')
  end.

End WithLibs.
End Robots.

(** ** Package [infrastructure]: content extractor and dead-link pipeline *)

Record linkCheckRequest := mkLinkCheck {
  lcURL : string;
  lcSourceURL : string
}.

(** Capacity of the buffered channel [linkQueue]. *)
Definition linkQueueCap : nat := 1000.

(** The extractor's mutable part: the two caches, the content of the
    channel, and the HEAD requests sent so far. *)
Record ContentExtractor := mkExtractor {
  deadLinkCache : gmap string bool;
  deadDomainCache : gmap string bool;
  linkQueue : list linkCheckRequest;
  probes : list string
}.

Module Extractor.

Definition New : ContentExtractor :=
  {| deadLinkCache := ∅; deadDomainCache := ∅; linkQueue := []; probes := [] |}.

Definition set_linkQueue (e : ContentExtractor) (q : list linkCheckRequest)
  : ContentExtractor :=
  {| deadLinkCache := deadLinkCache e; deadDomainCache := deadDomainCache e;
     linkQueue := q; probes := probes e |}.

Definition probe (e : ContentExtractor) (url : string) : ContentExtractor :=
  {| deadLinkCache := deadLinkCache e; deadDomainCache := deadDomainCache e;
     linkQueue := linkQueue e; probes := probes e ++ [url] |}.

(** [shuffled[i], shuffled[j] = shuffled[j], shuffled[i]] *)
Definition swap (l : list string) (i j : nat) : list string :=
  match l !! i, l !! j with
  | Some a, Some b => <[i := b]> (<[j := a]> l)
  | _, _ => l
  end.

(** The Fisher-Yates loop, [i] running from [len - 1] down to [1], with
    [rand.Intn(i + 1)] drawn from the oracle. *)
Definition shuffle (E : Oracle) (links : list string) : list string :=
  fold_left (fun l i => swap l i (randIntn E i mod (i + 1))%nat)
            (rev (seq 1 (length links - 1))) links.

(** [int(float64(len(links)) * percentage)].  The percentage is kept as
    a rational and the product is truncated exactly.  At the only value
    in use, [0.2], the nearest double exceeds one fifth by a relative
    [2^-54], too little to carry the rounded product across an integer
    for any slice that fits in memory, so both computations agree. *)
Definition numToSample (n : nat) (percentage : Q) : Z :=
  let k := Qfloor (inject_Z (Z.of_nat n) * percentage) in
  if (k =? 0) && (0 <? n)%nat then 1 else k.

(** A bound below zero or beyond the length would make the final slice
    expression panic; neither arises for a percentage in [0, 1). *)
Definition sampleLinks (E : Oracle) (links : list string) (percentage : Q)
  : list string :=
  if Qle_bool 1 percentage then links
  else take (Z.to_nat (numToSample (length links) percentage)) (shuffle E links).

(** The [select] with a [default] branch: send when the channel has
    room, skip the link otherwise. *)
Fixpoint queueLinksForChecking (e : ContentExtractor) (links : list string)
  (sourceURL : string) : ContentExtractor :=
  match links with
  | [] => e
  | link :: rest =>
      let e' :=
        if (length (linkQueue e) <? linkQueueCap)%nat
        then set_linkQueue e (linkQueue e ++ [mkLinkCheck link sourceURL])
        else e in
      queueLinksForChecking e' rest sourceURL
  end.

Definition CheckDeadLinks (E : Oracle) (e : ContentExtractor)
  (links : list string) (sourceURL : string)
  : list string * list string * ContentExtractor :=
  let sampledLinks := sampleLinks E links (2 # 10) in
  let e' := queueLinksForChecking e sampledLinks sourceURL in
  ([], [], e').

Definition cacheDomainStatus (e : ContentExtractor) (domainName : string)
  (isDead : bool) : ContentExtractor :=
  let c := if (1000 <? size (deadDomainCache e))%nat then ∅ else deadDomainCache e in
  {| deadLinkCache := deadLinkCache e; deadDomainCache := <[domainName := isDead]> c;
     linkQueue := linkQueue e; probes := probes e |}.

Definition cacheDeadLink (e : ContentExtractor) (urlStr : string)
  (isDead : bool) : ContentExtractor :=
  let c := if (5000 <? size (deadLinkCache e))%nat then ∅ else deadLinkCache e in
  {| deadLinkCache := <[urlStr := isDead]> c; deadDomainCache := deadDomainCache e;
     linkQueue := linkQueue e; probes := probes e |}.

Definition isDomainDead (E : Oracle) (e : ContentExtractor) (domainName : string)
  : bool * ContentExtractor :=
  match deadDomainCache e !! domainName with
  | Some cached => (cached, e)
  | None =>
      let testURL := ("https://" ++ domainName)%string in
      match headDo E testURL with
      | RequestError _ => (true, cacheDomainStatus e domainName true)
      | TransportError _ => (true, cacheDomainStatus (probe e testURL) domainName true)
      | Responded _ => (false, cacheDomainStatus (probe e testURL) domainName false)
      end
  end.

Definition isDeadLinkFast (E : Oracle) (e : ContentExtractor) (urlStr : string)
  : bool * ContentExtractor :=
  match deadLinkCache e !! urlStr with
  | Some cached => (cached, e)
  | None =>
      match headDo E urlStr with
      | RequestError _ => (false, cacheDeadLink e urlStr false)
      | TransportError _ => (true, cacheDeadLink (probe e urlStr) urlStr true)
      | Responded resp =>
          let isDead := (respStatus resp =? 404) || (respStatus resp =? 410)
                        || (500 <=? respStatus resp) in
          (isDead, cacheDeadLink (probe e urlStr) urlStr isDead)
      end
  end.

Section Content.
Context `{StdLib}.

(** The matches of the e-mail pattern ([regexp.FindAllString]),
    [strings.Count], and goquery are taken as given: [NewDocument] is
    [None] when the content cannot be read as a document, and
    [attrValues doc a] lists the values of attribute [a] on the elements
    that carry it, in document order ([a[href]] for ["href"], [[src]] for
    ["src"]).  [resolveReference baseURL ref] parses [ref], resolves it
    against the parsed [baseURL] and prints the result; [None] is the
    parse error of [ref]. *)
Variable FindAllString : string -> list string.
Variable Count : string -> string -> Z.
Variable Document : Type.
Variable NewDocument : string -> option Document.
Variable attrValues : Document -> string -> list string.
Variable resolveReference : string -> string -> option string.

(** One turn of the deduplication loop: [seen] is the map used as a
    set, [out] the slice built so far. *)
Definition keepNew (st : gset string * list string) (x : string)
  : gset string * list string :=
  if bool_decide (x ∈ st.1) then st else ({[x]} ∪ st.1, st.2 ++ [x]).

Definition ExtractEmails (content : string) : list string :=
  let matches := FindAllString content in
  snd (fold_left (fun st email => keepNew st (ToLower email)) matches (∅, [])).

Definition ExtractKeywords (content : string) (keywords : list string)
  : gmap string Z :=
  let contentLower := ToLower content in
  fold_left (fun results keyword =>
               let keywordLower := ToLower keyword in
               let count := Count contentLower keywordLower in
               if 0 <? count then <[keyword := count]> results else results)
            keywords ∅.

(** The body shared by the two [Each] callbacks of [ExtractLinks]. *)
Definition collectLink (baseURL : string) (st : gset string * list string)
  (ref : string) : gset string * list string :=
  match resolveReference baseURL ref with
  | None => st
  | Some urlStr => if IsValidURL urlStr then keepNew st urlStr else st
  end.

Definition ExtractLinks (content baseURL : string) : list string :=
  match NewDocument content with
  | None => []
  | Some doc =>
      match url_Parse baseURL with
      | None => []
      | Some _ =>
          let st1 := fold_left (collectLink baseURL) (attrValues doc "href") (∅, []) in
          let st2 := fold_left (collectLink baseURL) (attrValues doc "src") st1 in
          snd st2
      end
  end.

End Content.

End Extractor.

(** ** Package [application]: the worker *)

(** The components that [NewInfrastructure] wires together, and [gets],
    the log of the worker's calls of [client.Do]: one entry per call,
    holding the URL of the request that was handed over. *)
Record World `{Codec} `{RobotsTxt} := mkWorld {
  URLQueue : PriorityURLQueue;
  BloomFilter : list string;
  Storage : BadgerStorage;
  Robots : RobotsChecker;
  Extractor_ : ContentExtractor;
  Metrics : CrawlMetrics;
  gets : list string
}.

Record CrawlerService := mkService {
  mode : string;
  keywords : list string;
  checkDeadDomains : bool
}.

Definition UserAgent : string := "GolamV2-Crawler/1.0".

(** [2*1024*1024] *)
Definition maxBody : N := 2097152.

Module App.
Section WithLibs.
Context `{StdLib} `{Codec} `{RobotsTxt}.

(** [urls] and [results] are the two databases that [NewBadgerStorage]
    finds under [./golamv2_data]: empty on a first run, what earlier runs
    left there otherwise.  (When the directory cannot be opened the
    program ends before any worker runs.) *)
Definition NewInfrastructure `{!MetricsDecoder} (urls results : list (string * Bytes))
  : World :=
  {| URLQueue := Queue.New; BloomFilter := []; Storage := Badger.Open urls results;
     Robots := Robots.New; Extractor_ := Extractor.New; Metrics := zeroMetrics;
     gets := [] |}.

Definition set_URLQueue (w : World) (q : PriorityURLQueue) : World :=
  mkWorld _ _ q (BloomFilter w) (Storage w) (Robots w) (Extractor_ w) (Metrics w) (gets w).

Definition set_BloomFilter (w : World) (b : list string) : World :=
  mkWorld _ _ (URLQueue w) b (Storage w) (Robots w) (Extractor_ w) (Metrics w) (gets w).

Definition set_Storage (w : World) (s : BadgerStorage) : World :=
  mkWorld _ _ (URLQueue w) (BloomFilter w) s (Robots w) (Extractor_ w) (Metrics w) (gets w).

Definition set_Robots (w : World) (r : RobotsChecker) : World :=
  mkWorld _ _ (URLQueue w) (BloomFilter w) (Storage w) r (Extractor_ w) (Metrics w) (gets w).

Definition set_Extractor (w : World) (e : ContentExtractor) : World :=
  mkWorld _ _ (URLQueue w) (BloomFilter w) (Storage w) (Robots w) e (Metrics w) (gets w).

Definition set_Metrics (w : World) (m : CrawlMetrics) : World :=
  mkWorld _ _ (URLQueue w) (BloomFilter w) (Storage w) (Robots w) (Extractor_ w) m (gets w).

Definition set_gets (w : World) (g : list string) : World :=
  mkWorld _ _ (URLQueue w) (BloomFilter w) (Storage w) (Robots w) (Extractor_ w)
          (Metrics w) g.

(** [io.ReadAll(io.LimitReader(resp.Body, 2*1024*1024))] *)
Definition readBody (resp : HTTPResponse) : string + string :=
  match respReadError resp with
  | Some (at_, msg) =>
      if (at_ <? maxBody)%N then inr msg else inl (takeBytes maxBody (respBody resp))
  | None => inl (takeBytes maxBody (respBody resp))
  end.

Definition isHTML (contentType : string) : bool :=
  Contains (ToLower contentType) "text/html"
  || Contains (ToLower contentType) "application/xhtml".

(** Returns the content, the status code and the error ([None] for
    [nil]), with the log extended by the URL when [client.Do] was
    called. *)
Definition fetchURL (E : Oracle) (url : string) (log : list string)
  : string * Z * option string * list string :=
  match httpDo E url with
  | RequestError msg => ("", 0, Some msg, log)
  | TransportError msg => ("", 0, Some msg, log ++ [url])
  | Responded resp =>
      let contentType := respContentType resp in
      if negb (String.eqb contentType "") && negb (isHTML contentType)
      then ("", respStatus resp,
            Some ("skipped non-HTML content: " ++ contentType)%string, log ++ [url])
      else match readBody resp with
           | inr msg => ("", respStatus resp, Some msg, log ++ [url])
           | inl content => (content, respStatus resp, None, log ++ [url])
           end
  end.

Definition mkTask (E : Oracle) (url : string) (depth : Z) : URLTask :=
  {| URL := url; Depth := depth; Timestamp := taskTime E url; Retries := 0 |}.

(** One iteration of the loop of [addNewURLs] past the two filters. *)
Definition enlist (E : Oracle) (w : World) (url : string) (depth : Z) : World :=
  let w1 := set_BloomFilter w (Bloom.Add (BloomFilter w) url) in
  let t := mkTask E url depth in
  match Queue.Push (URLQueue w1) t with
  | (q', None) => set_URLQueue w1 q'
  | (_, Some _) =>
      set_Storage w1
        (fst (Badger.StoreURL (Storage w1) t (commitOK E (URLPrefix ++ URL t)%string)))
  end.

Fixpoint addNewURLs (E : Oracle) (w : World) (urls : list string) (depth : Z)
  (newURLs : list string) : list string * World :=
  match urls with
  | [] => (newURLs, w)
  | url :: rest =>
      if negb (IsValidURL url) then addNewURLs E w rest depth newURLs
      else if Bloom.Test E (BloomFilter w) url then addNewURLs E w rest depth newURLs
      else addNewURLs E (enlist E w url depth) rest depth (newURLs ++ [url])
  end.

Definition shouldCheckDeadLinks (c : CrawlerService) : bool :=
  checkDeadDomains c || String.eqb (mode c) "domains".

(** [for _, count := range result.Keywords { keywordCount += int64(count) }] *)
Definition keywordCount (kw : gmap string Z) : Z :=
  map_fold (fun _ count acc => add64 acc count) 0 kw.

(** The dead-link branch shared by the modes ["domains"] and ["all"]. *)
Definition checkLinks (E : Oracle) (w : World) (r : CrawlResult.t)
  (content url : string) : CrawlResult.t * World :=
  let links := ExtractLinks E content url in
  let '(deadLinks, deadDomains, e') :=
    Extractor.CheckDeadLinks E (Extractor_ w) links url in
  let m1 := Collector.UpdateLinksChecked (Metrics w) (Z.of_nat (length links)) in
  let m2 := Collector.UpdateDeadLinksFound m1 (Z.of_nat (length deadLinks)) in
  let m3 := Collector.UpdateDeadDomainsFound m2 (Z.of_nat (length deadDomains)) in
  (CrawlResult.set_Dead r deadLinks deadDomains,
   set_Metrics (set_Extractor w e') m3).

(** The [switch c.mode] of [processURL]. *)
Definition extract (c : CrawlerService) (E : Oracle) (w : World) (r : CrawlResult.t)
  (content url : string) : CrawlResult.t * World :=
  if String.eqb (mode c) "email" then
    let r1 := CrawlResult.set_Emails r (ExtractEmails E content) in
    (r1, set_Metrics w (Collector.UpdateEmailsFound (Metrics w)
                          (Z.of_nat (length (CrawlResult.Emails r1)))))
  else if String.eqb (mode c) "keywords" then
    let r1 := CrawlResult.set_Keywords r (ExtractKeywords E content (keywords c)) in
    (r1, set_Metrics w (Collector.UpdateKeywordsFound (Metrics w)
                          (keywordCount (CrawlResult.Keywords r1))))
  else if String.eqb (mode c) "domains" then checkLinks E w r content url
  else if String.eqb (mode c) "all" then
    let r1 := CrawlResult.set_Emails r (ExtractEmails E content) in
    let r2 := CrawlResult.set_Keywords r1 (ExtractKeywords E content (keywords c)) in
    let '(r3, w3) :=
      if shouldCheckDeadLinks c then checkLinks E w r2 content url
      else (CrawlResult.set_Dead r2 [] [], w) in
    let m1 := Collector.UpdateEmailsFound (Metrics w3)
                (Z.of_nat (length (CrawlResult.Emails r3))) in
    let m2 := Collector.UpdateKeywordsFound m1 (keywordCount (CrawlResult.Keywords r3)) in
    (r3, set_Metrics w3 m2)
  else (r, w).

(** The deferred function of [processURL]: store the result, count the
    URL. *)
Definition finish (E : Oracle) (w : World) (r : CrawlResult.t) : World :=
  let r' := CrawlResult.set_ProcessTime r (elapsed E) in
  let s' := fst (Badger.StoreResult (Storage w) r' (commitOK E (Badger.resultKey r'))) in
  set_Metrics (set_Storage w s') (Collector.UpdateURLsProcessed (Metrics w) 1).

Definition processURL (c : CrawlerService) (E : Oracle) (w : World) (t : URLTask)
  (maxDepth : Z) : World :=
  let result := CrawlResult.init (URL t) (startTime E) in
  let '(allowed, robots') := Robots.CanFetch E (Robots w) UserAgent (URL t) in
  let w := set_Robots w robots' in
  if negb allowed then
    finish E w (CrawlResult.set_Error result "blocked by robots.txt")
  else if negb (rateWait E) then
    finish E w (CrawlResult.set_Error result "rate limit context cancelled")
  else
    let '(content, statusCode, err, log) := fetchURL E (URL t) (gets w) in
    let w := set_gets w log in
    let result := CrawlResult.set_StatusCode result statusCode in
    match err with
    | Some msg =>
        finish E (set_Metrics w (Collector.UpdateErrors (Metrics w) 1))
               (CrawlResult.set_Error result msg)
    | None =>
        let result := CrawlResult.set_Title result (ExtractTitle E content) in
        let '(result, w) := extract c E w result content (URL t) in
        if Depth t <? maxDepth then
          let newURLs := ExtractLinks E content (URL t) in
          let '(added, w) := addNewURLs E w newURLs (wrap64 (Depth t + 1)) [] in
          finish E w (CrawlResult.set_NewURLs result added)
        else finish E w result
    end.

(** The part of [StartCrawling] before the workers are started: [inl]
    carries the error of a refused seed. *)
Definition StartCrawling (E : Oracle) (w : World) (startURL : string)
  : string + World :=
  let startTask := mkTask E startURL 0 in
  match Queue.Push (URLQueue w) startTask with
  | (_, Some e) =>
      inl ("failed to add start URL to queue: " ++ QueueError_Message e)%string
  | (q', None) =>
      inr (set_BloomFilter (set_URLQueue w q') (Bloom.Add (BloomFilter w) startURL))
  end.

(** One turn of the worker loop past the cancellation check: pop, and
    process what was popped; on an empty queue the worker sleeps and
    nothing changes. *)
Definition workerStep (c : CrawlerService) (E : Oracle) (w : World) (maxDepth : Z)
  : World :=
  let p := Queue.Pop (URLQueue w) in
  match Queue.pop_err p with
  | Some _ => w
  | None => processURL c E (set_URLQueue w (Queue.pop_queue p)) (Queue.popped p) maxDepth
  end.

(** [refillFromDB], run to completion. *)
Definition refillFromDB (w : World) : World :=
  let q := URLQueue w in
  if refilling q then w
  else
    let needed := wrap64 (maxSize q - Queue.Size q) in
    if needed <=? 0 then w
    else
      let '(urls, ok, s') := Badger.GetURLs (Storage w) needed in
      if ok then set_Storage (set_URLQueue w (Queue.pushAll q urls)) s'
      else set_Storage w s'.

(** The dead-link worker's treatment of one request from the channel.
    [NewInfrastructure] hands the extractor its store and its collector
    before any worker runs, so the two nil checks of the Go function
    are passed. *)
Definition processLinkAsync (E : Oracle) (w : World) (req : linkCheckRequest)
  (at_ : GoTime) : World :=
  let domainName := GetDomain (lcURL req) in
  if String.eqb domainName "" then w
  else
    let '(isDomainDead, e1) := Extractor.isDomainDead E (Extractor_ w) domainName in
    let w1 := set_Extractor w e1 in
    if isDomainDead then
      let r := CrawlResult.set_Dead (CrawlResult.init (lcSourceURL req) at_)
                 [lcURL req] [domainName] in
      let s' := fst (Badger.StoreResult (Storage w1) r
                       (commitOK E (Badger.resultKey r))) in
      set_Metrics (set_Storage w1 s')
        (Collector.UpdateDeadDomainsFound
           (Collector.UpdateDeadLinksFound (Metrics w1) 1) 1)
    else
      let '(isURLDead, e2) := Extractor.isDeadLinkFast E (Extractor_ w1) (lcURL req) in
      let w2 := set_Extractor w1 e2 in
      if isURLDead then
        let r := CrawlResult.set_Dead (CrawlResult.init (lcSourceURL req) at_)
                   [lcURL req] [] in
        let s' := fst (Badger.StoreResult (Storage w2) r
                         (commitOK E (Badger.resultKey r))) in
        set_Metrics (set_Storage w2 s') (Collector.UpdateDeadLinksFound (Metrics w2) 1)
      else w2.

(** One tick of [updateMetrics]; [activeWorkers] is the service's
    worker count at that moment. *)
Definition updateMetrics (w : World) (activeWorkers : Z) : World :=
  let m1 := Collector.UpdateActiveWorkers (Metrics w) activeWorkers in
  let m2 := Collector.UpdateURLsInQueue m1 (Queue.Size (URLQueue w)) in
  let '(storageMetrics, s') := Badger.GetMetrics (Storage w) in
  set_Storage (set_Metrics w (Collector.UpdateURLsInDB m2 (URLsInDB storageMetrics))) s'.

End WithLibs.
End App.

(** ** Package [interfaces]: the URL-injection handler of the dashboard *)

Record AddURLsResponse := mkAddURLs {
  success : bool;
  added : Z;
  total_valid : Z;
  invalid_urls : list string;
  errors : list string
}.

Inductive HandlerReply :=
| BadRequest (msg : string)
| Reply (r : AddURLsResponse).

Module Dashboard.
Section WithLibs.
Context `{StdLib}.

(** The handler's own test of a trimmed entry. *)
Definition accepts (cleanURL : string) : bool :=
  match url_Parse cleanURL with
  | Some parsedURL =>
      negb (String.eqb (Scheme parsedURL) "") && negb (String.eqb (Host parsedURL) "")
  | None => false
  end.

(** The first loop: sort the entries into [validURLs] and [invalidURLs]. *)
Fixpoint validate (urls validURLs invalidURLs : list string)
  : list string * list string :=
  match urls with
  | [] => (validURLs, invalidURLs)
  | rawURL :: rest =>
      let cleanURL := TrimSpace rawURL in
      if String.eqb cleanURL "" then validate rest validURLs invalidURLs
      else if accepts cleanURL then validate rest (validURLs ++ [cleanURL]) invalidURLs
      else validate rest validURLs (invalidURLs ++ [cleanURL])
  end.

Definition newTask (E : Oracle) (validURL : string) : URLTask :=
  {| URL := validURL; Depth := 0; Timestamp := taskTime E validURL; Retries := 0 |}.

(** The second loop: one task per valid URL, pushed to the queue. *)
Fixpoint enqueue (E : Oracle) (q : PriorityURLQueue) (validURLs : list string)
  (addedCount : Z) (errs : list string) : PriorityURLQueue * Z * list string :=
  match validURLs with
  | [] => (q, addedCount, errs)
  | validURL :: rest =>
      match Queue.Push q (newTask E validURL) with
      | (_, Some e) =>
          enqueue E q rest addedCount
            (errs ++ [("Failed to add " ++ validURL ++ ": " ++ QueueError_Message e)%string])
      | (q', None) => enqueue E q' rest (add64 addedCount 1) errs
      end
  end.

(** [body] is the decoded request, [None] when it is not valid JSON. *)
Definition handleAddURLs (E : Oracle) (q : PriorityURLQueue)
  (body : option (list string)) : HandlerReply * PriorityURLQueue :=
  match body with
  | None => (BadRequest "Invalid JSON request", q)
  | Some urls =>
      if (length urls =? 0)%nat then (BadRequest "No URLs provided", q)
      else
        let '(validURLs, invalidURLs) := validate urls [] [] in
        let '(q', addedCount, errs) := enqueue E q validURLs 0 [] in
        (Reply {| success := true; added := addedCount;
                  total_valid := Z.of_nat (length validURLs);
                  invalid_urls := invalidURLs; errors := errs |}, q')
  end.

End WithLibs.
End Dashboard.

(** ** Reference instances of the library parameters

    The theorems below hold for every [StdLib], [Codec], [RobotsTxt] and
    [Oracle].  The instances here are small executable stand-ins used to
    run the model on concrete inputs. *)

Definition isUpper (c : ascii) : bool :=
  (65 <=? nat_of_ascii c)%nat && (nat_of_ascii c <=? 90)%nat.

Definition isLetter (c : ascii) : bool :=
  isUpper c || ((97 <=? nat_of_ascii c)%nat && (nat_of_ascii c <=? 122)%nat).

Definition isDigit (c : ascii) : bool :=
  (48 <=? nat_of_ascii c)%nat && (nat_of_ascii c <=? 57)%nat.

Definition isSpace (c : ascii) : bool :=
  ((9 <=? nat_of_ascii c)%nat && (nat_of_ascii c <=? 13)%nat)
  || (nat_of_ascii c =? 32)%nat.

Definition lowerAscii (c : ascii) : ascii :=
  if isUpper c then ascii_of_nat (nat_of_ascii c + 32) else c.

(** [strings.ToLower] on ASCII text. *)
Fixpoint asciiToLower (s : string) : string :=
  match s with
  | EmptyString => EmptyString
  | String c s' => String (lowerAscii c) (asciiToLower s')
  end.

Fixpoint trimLeft (s : string) : string :=
  match s with
  | EmptyString => EmptyString
  | String c s' => if isSpace c then trimLeft s' else s
  end.

Fixpoint trimRight (s : string) : string :=
  match s with
  | EmptyString => EmptyString
  | String c s' =>
      match trimRight s' with
      | EmptyString => if isSpace c then EmptyString else String c EmptyString
      | t => String c t
      end
  end.

(** [strings.TrimSpace] on ASCII text. *)
Definition asciiTrimSpace (s : string) : string := trimRight (trimLeft s).

(** The scan of [net/url]'s [getScheme]: [None] is the error "missing
    protocol scheme", otherwise the scheme and what follows the colon. *)
Fixpoint getScheme (first : bool) (seen rest whole : string)
  : option (string * string) :=
  match rest with
  | EmptyString => Some (EmptyString, whole)
  | String c r =>
      if isLetter c then getScheme false (seen ++ String c EmptyString) r whole
      else if isDigit c || Ascii.eqb c "+" || Ascii.eqb c "-" || Ascii.eqb c "."
      then if first then Some (EmptyString, whole)
           else getScheme false (seen ++ String c EmptyString) r whole
      else if Ascii.eqb c ":"
      then if first then None else Some (seen, r)
      else Some (EmptyString, whole)
  end.

(** Splits [s] at the first occurrence of [sep]. *)
Fixpoint cutAt (sep : ascii) (s : string) : string * string :=
  match s with
  | EmptyString => (EmptyString, EmptyString)
  | String c r =>
      if Ascii.eqb c sep then (EmptyString, s)
      else let '(a, b) := cutAt sep r in (String c a, b)
  end.

(** [net/url.Parse] on URLs of the shape [scheme://host/path]: the
    fragment and the query are cut off, the scheme is found by
    [getScheme] and lower-cased, a rootless remainder after a scheme is
    opaque, a colon in the first segment of a scheme-less relative
    reference is an error, and the authority runs up to the next slash.
    User information, ports, IPv6 literals and percent-escapes are not
    interpreted. *)
Definition simpleParse (rawURL : string) : option url_URL :=
  let '(u, _) := cutAt "#" rawURL in
  match getScheme true EmptyString u u with
  | None => None
  | Some (scheme, rest) =>
      let scheme := asciiToLower scheme in
      let '(rest, _) := cutAt "?" rest in
      if negb (String.prefix "/" rest) && negb (String.eqb scheme "")
      then Some (mkURL scheme "" "")
      else if negb (String.prefix "/" rest)
              && Contains (fst (cutAt "/" rest)) ":"
      then None
      else if String.prefix "//" rest
              && (negb (String.eqb scheme "") || negb (String.prefix "///" rest))
      then let '(authority, path) := cutAt "/" (String.substring 2 (String.length rest) rest) in
           Some (mkURL scheme authority path)
      else Some (mkURL scheme "" rest)
  end.

Definition simpleLib : StdLib :=
  {| ToLower := asciiToLower; TrimSpace := asciiTrimSpace; url_Parse := simpleParse |}.

(** Stored values kept as the records their JSON text describes. *)
Inductive Stored :=
| StoredTask (t : URLTask)
| StoredResult (r : CrawlResult.t)
| StoredMetrics (m : CrawlMetrics).

Definition plainCodec : Codec :=
  {| Bytes := Stored;
     marshalTask := fun t => StoredTask (jsonTask t);
     unmarshalTask := fun v => match v with StoredTask t => Some t | _ => None end;
     marshalResult := StoredResult;
     marshalMetrics := StoredMetrics;
     unmarshal_marshalTask := fun t => eq_refl |}.

Definition plainDecoder : @MetricsDecoder plainCodec :=
  {| unmarshalMetricsInto := fun (v : @Bytes plainCodec) m0 =>
       match v with StoredMetrics m => m | _ => m0 end;
     unmarshalInto_marshalMetrics := fun m m0 => eq_refl |}.

(** Rules as one group for every agent: a list of disallowed path
    prefixes, read off a body that is either empty or the single line
    [Disallow: <prefix>]. *)
Definition prefixRules : RobotsTxt :=
  {| RobotsData := list string;
     Group := list string;
     FromResponse := fun resp =>
       if String.prefix "Disallow: " (respBody resp)
       then Some [String.substring 10 (String.length (respBody resp)) (respBody resp)]
       else Some [];
     FindGroup := fun rules agent => if String.eqb agent "*" then Some rules else None;
     GroupTest := fun g path => negb (existsb (fun p => String.prefix p path) g);
     GroupCrawlDelay := fun _ => 0;
     Sitemaps := fun _ => [] |}.

(** A network on which every host answers [200 text/html] with an empty
    page and has no [robots.txt], no page carries findings, the filter
    never collides, and every write commits. *)
Definition quietOracle : Oracle :=
  {| robotsGet := fun _ => None;
     rateWait := true;
     httpDo := fun _ => Responded (mkResponse 200 "text/html" "" None);
     headDo := fun _ => Responded (mkResponse 200 "" "" None);
     ExtractTitle := fun _ => "";
     ExtractEmails := fun _ => [];
     ExtractKeywords := fun _ _ => ∅;
     ExtractLinks := fun _ _ => [];
     bloomCollision := fun _ _ => false;
     taskTime := fun _ => 1700000000;
     startTime := 1700000000;
     elapsed := 0;
     randIntn := fun _ => 0%nat;
     commitOK := fun _ => true |}.

(** As [quietOracle], but every host serves a [robots.txt] that
    disallows everything. *)
Definition blockingOracle : Oracle :=
  {| robotsGet := fun _ => Some (mkResponse 200 "text/plain" "Disallow: /" None);
     rateWait := true;
     httpDo := httpDo quietOracle;
     headDo := headDo quietOracle;
     ExtractTitle := ExtractTitle quietOracle;
     ExtractEmails := ExtractEmails quietOracle;
     ExtractKeywords := ExtractKeywords quietOracle;
     ExtractLinks := ExtractLinks quietOracle;
     bloomCollision := bloomCollision quietOracle;
     taskTime := taskTime quietOracle;
     startTime := startTime quietOracle;
     elapsed := elapsed quietOracle;
     randIntn := randIntn quietOracle;
     commitOK := commitOK quietOracle |}.

(** As [quietOracle], but every URL is answered [200 image/png]. *)
Definition pngOracle : Oracle :=
  {| robotsGet := robotsGet quietOracle;
     rateWait := true;
     httpDo := fun _ => Responded (mkResponse 200 "image/png" "PNG" None);
     headDo := headDo quietOracle;
     ExtractTitle := ExtractTitle quietOracle;
     ExtractEmails := ExtractEmails quietOracle;
     ExtractKeywords := ExtractKeywords quietOracle;
     ExtractLinks := ExtractLinks quietOracle;
     bloomCollision := bloomCollision quietOracle;
     taskTime := taskTime quietOracle;
     startTime := startTime quietOracle;
     elapsed := elapsed quietOracle;
     randIntn := randIntn quietOracle;
     commitOK := commitOK quietOracle |}.

(** As [quietOracle], but every page links to two further pages. *)
Definition linkingOracle : Oracle :=
  {| robotsGet := robotsGet quietOracle;
     rateWait := true;
     httpDo := httpDo quietOracle;
     headDo := headDo quietOracle;
     ExtractTitle := ExtractTitle quietOracle;
     ExtractEmails := ExtractEmails quietOracle;
     ExtractKeywords := ExtractKeywords quietOracle;
     ExtractLinks := fun _ _ => ["https://a.example/1"; "https://a.example/2"]%string;
     bloomCollision := bloomCollision quietOracle;
     taskTime := taskTime quietOracle;
     startTime := startTime quietOracle;
     elapsed := elapsed quietOracle;
     randIntn := randIntn quietOracle;
     commitOK := commitOK quietOracle |}.

Definition emailService : CrawlerService :=
  {| mode := "email"; keywords := []; checkDeadDomains := false |}.

(** ** Invariants and specification-level notions *)

(** The priority in slot [k], [0] outside the slice. *)
Definition prio (h : list urlItem) (k : nat) : Z :=
  from_option priority 0 (h !! k).

(** The heap condition on the first [n] slots. *)
Definition heap_ok (h : list urlItem) (n : nat) : Prop :=
  forall k : nat, (0 < k < n)%nat -> prio h ((k - 1) / 2) <= prio h k.

(** The heap condition with slot [j] possibly too small for its place
    (the state [up] repairs). *)
Definition up_inv (h : list urlItem) (n j : nat) : Prop :=
  (forall k : nat, (0 < k < n)%nat -> k <> j -> prio h ((k - 1) / 2) <= prio h k) /\
  (forall k : nat, (0 < k < n)%nat -> ((k - 1) / 2)%nat = j -> (0 < j)%nat ->
                   prio h ((j - 1) / 2) <= prio h k).

(** The heap condition with slot [i] possibly too large for its place
    (the state [down] repairs). *)
Definition down_inv (h : list urlItem) (n i : nat) : Prop :=
  (forall k : nat, (0 < k < n)%nat -> ((k - 1) / 2)%nat <> i ->
                   prio h ((k - 1) / 2) <= prio h k) /\
  (forall k : nat, (0 < k < n)%nat -> ((k - 1) / 2)%nat = i -> (0 < i)%nat ->
                   prio h ((i - 1) / 2) <= prio h k).

(** What holds of the frontier between any two of its operations. *)
Definition queue_inv (q : PriorityURLQueue) : Prop :=
  Queue.Size q <= maxSize q /\
  heap_ok (qheap q) (length (qheap q)) /\
  Forall (fun it => priority it = priority_of (task it)) (qheap q).

(** The tasks for which the two additions of [priority_of] do not wrap. *)
Definition priority_exact (t : URLTask) : Prop :=
  int64_min <= Depth t * 1000 <= int64_max /\
  int64_min <= Depth t * 1000 + Unix (Timestamp t) <= int64_max.

(** The priority value of the specification. *)
Definition spec_priority (t : URLTask) : Z := Depth t * 1000 + Unix (Timestamp t).

Definition db_keys {V : Type} (db : list (string * V)) : list string := fst <$> db.

Definition db_sorted {V : Type} (db : list (string * V)) : Prop :=
  StronglySorted key_lt (db_keys db).

(** Whether an entry of the URL database lies in the backlog namespace. *)
Definition in_backlog `{Codec} (e : string * Bytes) : bool :=
  String.prefix URLPrefix (fst e).

(** The key and the entry under which [StoreURL] files a task. *)
Definition task_key (t : URLTask) : string := (URLPrefix ++ URL t)%string.

Definition task_entry `{Codec} (t : URLTask) : string * Bytes :=
  (task_key t, marshalTask t).

(** The entries of the backlog namespace, in key order. *)
Definition backlog `{Codec} (s : BadgerStorage) : list (string * Bytes) :=
  List.filter in_backlog (urlDB s).

Definition backlog_tasks `{Codec} (s : BadgerStorage) : list URLTask :=
  omap (fun e => unmarshalTask (snd e)) (backlog s).

(** A backlog entry is the encoding of a task stored under that task's
    key, as [StoreURL] writes it. *)
Definition entry_wf `{Codec} (e : string * Bytes) : Prop :=
  in_backlog e = true -> exists t : URLTask, e = task_entry t.

(** The URL database is ordered and its backlog entries are well
    formed. *)
Definition storage_wf `{Codec} (s : BadgerStorage) : Prop :=
  db_sorted (urlDB s) /\ Forall entry_wf (urlDB s).

(** The tasks that [encoding/json] gives back unchanged: those whose
    URL is well-formed UTF-8. *)
Definition json_exact (t : URLTask) : Prop := jsonTask t = t.

(** A backlog entry written by [StoreURL] for such a task. *)
Definition entry_exact `{Codec} (e : string * Bytes) : Prop :=
  in_backlog e = true -> exists t : URLTask, e = task_entry t /\ json_exact t.

Definition storage_exact `{Codec} (s : BadgerStorage) : Prop :=
  db_sorted (urlDB s) /\ Forall entry_exact (urlDB s).

(** The entries of an injection request after trimming, blank ones
    left out. *)
Definition cleaned_entries `{StdLib} (urls : list string) : list string :=
  List.filter (fun u => negb (String.eqb u "")) (TrimSpace <$> urls).

(** The result that the deferred function of [processURL] hands to the
    store. *)
Definition stored_result (E : Oracle) (r : CrawlResult.t) : CrawlResult.t :=
  CrawlResult.set_ProcessTime r (elapsed E).

(** Running [StoreResult] over a sequence of results, each with the
    outcome of its write. *)
Definition storeAll `{Codec} (s : BadgerStorage) (rs : list (CrawlResult.t * bool))
  : BadgerStorage :=
  fold_left (fun acc x => fst (Badger.StoreResult acc (fst x) (snd x))) rs s.

Definition fileStoreAll `{Codec} (s : FastFileStorage) (rs : list (CrawlResult.t * bool))
  : FastFileStorage :=
  fold_left (fun acc x => fst (FastFile.StoreResult acc (fst x) (snd x))) rs s.

(** The results whose write succeeded. *)
Definition persisted (rs : list (CrawlResult.t * bool)) : list CrawlResult.t :=
  fst <$> List.filter snd rs.

(** The sum of the per-keyword counts of one result. *)
Definition keyword_total (r : CrawlResult.t) : Z :=
  map_fold (fun _ count acc => acc + count) 0 (CrawlResult.Keywords r).

Definition sum_over (f : CrawlResult.t -> Z) (rs : list CrawlResult.t) : Z :=
  fold_right (fun r acc => f r + acc) 0 rs.

(** The tasks waiting in the frontier and in the backlog. *)
Definition frontier_tasks `{Codec} `{RobotsTxt} (w : World) : list URLTask :=
  task <$> qheap (URLQueue w).

Definition pending_tasks `{Codec} `{RobotsTxt} (w : World) : list URLTask :=
  frontier_tasks w ++ backlog_tasks (Storage w).

Definition depth_ok (maxDepth : Z) (t : URLTask) : Prop := 0 <= Depth t <= maxDepth.

Definition depth_inv `{Codec} `{RobotsTxt} (maxDepth : Z) (w : World) : Prop :=
  Forall (depth_ok maxDepth) (pending_tasks w).

(** The engine's invariant besides the depth bound. *)
Definition world_wf `{Codec} `{RobotsTxt} (w : World) : Prop :=
  queue_inv (URLQueue w) /\ storage_wf (Storage w).

(** The moves of a running engine: a worker turn, a refill, an injection
    through the dashboard, a dead-link check. *)
Inductive crawl_step `{StdLib} `{Codec} `{RobotsTxt}
  (c : CrawlerService) (maxDepth : Z) : World -> World -> Prop :=
| step_worker (E : Oracle) (w : World) :
    crawl_step c maxDepth w (App.workerStep c E w maxDepth)
| step_refill (w : World) :
    crawl_step c maxDepth w (App.refillFromDB w)
| step_inject (E : Oracle) (w : World) (body : option (list string)) :
    crawl_step c maxDepth w
      (App.set_URLQueue w (snd (Dashboard.handleAddURLs E (URLQueue w) body)))
| step_deadlink (E : Oracle) (w : World) (req : linkCheckRequest) (at_ : GoTime) :
    crawl_step c maxDepth w (App.processLinkAsync E w req at_).

(** The states of a run that finds the databases [urls] and [results]
    in its data directory. *)
Inductive reachable `{StdLib} `{Codec} `{!MetricsDecoder} `{RobotsTxt}
  (c : CrawlerService) (maxDepth : Z) (urls results : list (string * Bytes))
  : World -> Prop :=
| reach_start (E : Oracle) (startURL : string) (w : World) :
    App.StartCrawling E (App.NewInfrastructure urls results) startURL = inr w ->
    reachable c maxDepth urls results w
| reach_step (w w' : World) :
    reachable c maxDepth urls results w -> crawl_step c maxDepth w w' ->
    reachable c maxDepth urls results w'.

(** The elements of a list in the order of their first occurrence, each
    once. *)
Fixpoint first_occurrences (l : list string) : list string :=
  match l with
  | [] => []
  | x :: rest => x :: List.filter (fun y => negb (String.eqb y x)) (first_occurrences rest)
  end.

(** ** Further invariants *)

(** The bookkeeping field of every slot names the slot. *)
Definition index_ok (h : list urlItem) : Prop :=
  forall (i : nat) (it : urlItem), h !! i = Some it -> index it = Z.of_nat i.

(** The bounds the extractor keeps on its two caches and on its
    channel. *)
Definition extractor_bounded (e : ContentExtractor) : Prop :=
  Z.of_nat (size (deadDomainCache e)) <= 1001 /\
  Z.of_nat (size (deadLinkCache e)) <= 5001 /\
  Z.of_nat (length (linkQueue e)) <= Z.of_nat linkQueueCap.

(** The number of results in a sequence that satisfy a test. *)
Definition count_where (f : CrawlResult.t -> bool) (rs : list CrawlResult.t) : Z :=
  Z.of_nat (length (List.filter f rs)).

(** A deduplication loop over the items that [g] keeps: the common
    shape of the loops of [ExtractEmails] and [ExtractLinks]. *)
Definition dedup_step (g : string -> option string)
  (st : gset string * list string) (x : string) : gset string * list string :=
  match g x with
  | Some y => Extractor.keepNew st y
  | None => st
  end.

(** ** Concrete inputs used in the examples *)

Definition c9_t1 : URLTask := mkURLTask "https://a.example/deep" 2 1700000000 0.

Definition c9_t2 : URLTask := mkURLTask "https://a.example/" 0 1700000005 0.

Definition c9_t3 : URLTask := mkURLTask "https://a.example/x" 1 1700000001 0.

Definition c9_queue : PriorityURLQueue :=
  fst (Queue.Push (fst (Queue.Push (fst (Queue.Push Queue.New c9_t1)) c9_t2)) c9_t3).

Definition c6_task : URLTask := mkURLTask "https://a.example/" 0 1700000000 0.

(** A frontier of capacity one that holds one task. *)
Definition c6_full : PriorityURLQueue :=
  {| qheap := [mkItem c6_task (priority_of c6_task) 0]; maxSize := 1;
     refillThreshold := 0; refilling := false |}.

Definition c6_world : @World plainCodec prefixRules :=
  @App.set_URLQueue plainCodec prefixRules
    (@App.NewInfrastructure plainCodec prefixRules plainDecoder [] []) c6_full.

(** A link whose query holds the byte [0xFF]: [net/url] accepts it and
    [URL.String] leaves the query as it is. *)
Definition c7_url : string :=
  ("https://a.example/?q=" ++ String (ascii_of_nat 255) "")%string.

Definition c7_task : URLTask := mkURLTask c7_url 1 1700000000 0.

(** A page on which the one keyword ["go"] occurs three times. *)
Definition c1_result : CrawlResult.t :=
  CrawlResult.set_Keywords (CrawlResult.init "https://a.example/" 1700000000)
    {[ "go"%string := 3 ]}.

Definition c4_task : URLTask := mkURLTask "https://h/p" 0 1700000000 0.

Definition c2_task : URLTask := mkURLTask "https://h/logo.png" 0 1700000000 0.

(** What the store receives for [c2_task] on the network of [pngOracle]. *)
Definition c2_result : CrawlResult.t :=
  stored_result pngOracle
    (CrawlResult.set_Error
       (CrawlResult.set_StatusCode
          (CrawlResult.init (URL c2_task) (startTime pngOracle)) 200)
       "skipped non-HTML content: image/png").

Definition c5_seed : URLTask := mkURLTask "https://a.example/" 0 1700000000 0.

(** A backlog left by an earlier run: one task at depth 3. *)
Definition c5_disk : list (string * @Bytes plainCodec) :=
  [@task_entry plainCodec (mkURLTask "https://a.example/old" 3 1690000000 0)].

(** The state in which the workers of a run on [quietOracle] start when
    the data directory holds [c5_disk]. *)
Definition c5_start : @World plainCodec prefixRules :=
  match @App.StartCrawling plainCodec prefixRules quietOracle
          (@App.NewInfrastructure plainCodec prefixRules plainDecoder c5_disk [])
          "https://a.example/" with
  | inr w => w
  | inl _ => @App.NewInfrastructure plainCodec prefixRules plainDecoder c5_disk []
  end.

(** A backlog left by an earlier run that was started with [--depth 9]:
    one task at depth 7. *)
Definition c5_deep : URLTask := mkURLTask "https://a.example/deep" 7 1690000000 0.

Definition c5_deep_disk : list (string * @Bytes plainCodec) :=
  [@task_entry plainCodec c5_deep].

(** A run with [--depth 5] on that directory: the start, one worker
    turn (the seed is popped and processed), one refill. *)
Definition c5_restart : @World plainCodec prefixRules :=
  match @App.StartCrawling plainCodec prefixRules quietOracle
          (@App.NewInfrastructure plainCodec prefixRules plainDecoder c5_deep_disk [])
          "https://a.example/" with
  | inr w => w
  | inl _ => @App.NewInfrastructure plainCodec prefixRules plainDecoder c5_deep_disk []
  end.

Definition c5_refilled : @World plainCodec prefixRules :=
  @App.refillFromDB plainCodec prefixRules
    (@App.workerStep simpleLib plainCodec prefixRules emailService quietOracle
       c5_restart 5).

(** A run with [--depth -1] on an empty directory, at its start. *)
Definition c5_negative : @World plainCodec prefixRules :=
  match @App.StartCrawling plainCodec prefixRules quietOracle
          (@App.NewInfrastructure plainCodec prefixRules plainDecoder [] [])
          "https://a.example/" with
  | inr w => w
  | inl _ => @App.NewInfrastructure plainCodec prefixRules plainDecoder [] []
  end.

Definition x_t1 : URLTask := mkURLTask "https://b.example/deep/page" 3 1700000000 0.

Definition x_t2 : URLTask := mkURLTask "https://b.example/" 0 1700000009 0.

Definition x_t3 : URLTask := mkURLTask "https://b.example/about" 1 1700000004 0.

Definition x_t4 : URLTask := mkURLTask "https://b.example/news" 1 1700000002 0.

(** A frontier that received four tasks. *)
Definition x_frontier : PriorityURLQueue :=
  fst (Queue.Push (fst (Queue.Push (fst (Queue.Push (fst (Queue.Push Queue.New x_t1))
                                                    x_t2)) x_t3)) x_t4).

Definition x_backlog_a : URLTask := mkURLTask "https://c.example/a" 2 1700000100 0.

Definition x_backlog_b : URLTask := mkURLTask "https://c.example/b" 2 1700000101 0.

(** A world whose frontier holds four tasks and whose backlog holds two. *)
Definition x_world : @World plainCodec prefixRules :=
  @mkWorld plainCodec prefixRules x_frontier []
    (fst (@Badger.StoreURL plainCodec
            (fst (@Badger.StoreURL plainCodec (@Badger.New plainCodec) x_backlog_b true))
            x_backlog_a true))
    (@Robots.New prefixRules) Extractor.New zeroMetrics [].

Definition x_backlog_a2 : URLTask := mkURLTask "https://c.example/a" 1 1700000500 0.

(** The store of [x_world]: two tasks in the backlog. *)
Definition x_store : @BadgerStorage plainCodec :=
  fst (@Badger.StoreURL plainCodec
         (fst (@Badger.StoreURL plainCodec (@Badger.New plainCodec) x_backlog_b true))
         x_backlog_a true).

(** A URL database in which the second backlog entry does not hold a
    task. *)
Definition x_damaged_store : @BadgerStorage plainCodec :=
  @mkStorage plainCodec
    [ ("metrics"%string, StoredMetrics zeroMetrics : @Bytes plainCodec);
      ("url:https://c.example/a"%string, StoredTask x_backlog_a : @Bytes plainCodec);
      ("url:https://c.example/b"%string, StoredMetrics zeroMetrics : @Bytes plainCodec);
      ("url:https://c.example/c"%string, StoredTask x_backlog_b : @Bytes plainCodec) ]
    [] zeroMetrics.

(** A store that has processed one result with two e-mail addresses and
    holds two tasks in its backlog. *)
Definition x_used_store : @BadgerStorage plainCodec :=
  fst (@Badger.StoreResult plainCodec x_store
         (CrawlResult.set_Emails (CrawlResult.init "https://c.example/" 1700000050)
            ["a@c.example"; "b@c.example"]%string) true).

Definition x_dead1 : CrawlResult.t :=
  CrawlResult.set_Dead (CrawlResult.init "https://c.example/" 1700000060)
    ["https://gone.example/1"%string] [].

Definition x_dead2 : CrawlResult.t :=
  CrawlResult.set_Dead (CrawlResult.init "https://c.example/" 1700000060)
    ["https://gone.example/2"%string] [].

Definition x_cancelOracle : Oracle :=
  {| robotsGet := robotsGet quietOracle;
     rateWait := false;
     httpDo := httpDo quietOracle;
     headDo := headDo quietOracle;
     ExtractTitle := ExtractTitle quietOracle;
     ExtractEmails := ExtractEmails quietOracle;
     ExtractKeywords := ExtractKeywords quietOracle;
     ExtractLinks := ExtractLinks quietOracle;
     bloomCollision := bloomCollision quietOracle;
     taskTime := taskTime quietOracle;
     startTime := startTime quietOracle;
     elapsed := elapsed quietOracle;
     randIntn := randIntn quietOracle;
     commitOK := commitOK quietOracle |}.

(** A world whose frontier, of capacity one, is full. *)
Definition x_full_world : @World plainCodec prefixRules :=
  @App.set_URLQueue plainCodec prefixRules
    (@App.NewInfrastructure plainCodec prefixRules plainDecoder [] [])
    {| qheap := [mkItem x_t2 (priority_of x_t2) 0]; maxSize := 1;
       refillThreshold := 0; refilling := false |}.

Definition x_failingOracle : Oracle :=
  {| robotsGet := robotsGet quietOracle;
     rateWait := true;
     httpDo := httpDo quietOracle;
     headDo := headDo quietOracle;
     ExtractTitle := ExtractTitle quietOracle;
     ExtractEmails := ExtractEmails quietOracle;
     ExtractKeywords := ExtractKeywords quietOracle;
     ExtractLinks := ExtractLinks quietOracle;
     bloomCollision := bloomCollision quietOracle;
     taskTime := taskTime quietOracle;
     startTime := startTime quietOracle;
     elapsed := elapsed quietOracle;
     randIntn := randIntn quietOracle;
     commitOK := fun _ => false |}.

(** * Properties *)

(** ** The heap of [container/heap] *)

Lemma Less_prio (h : urlHeap.t) (i j : nat) :
  (i < length h)%nat -> (j < length h)%nat ->
  urlHeap.Less h i j = (prio h i <? prio h j).
Proof.
  intros Hi Hj. unfold urlHeap.Less, prio.
  destruct (lookup_lt_is_Some_2 h i Hi) as [a ->].
  destruct (lookup_lt_is_Some_2 h j Hj) as [b ->]. reflexivity.
Qed.

Lemma Swap_length (h : urlHeap.t) (i j : nat) :
  length (urlHeap.Swap h i j) = length h.
Proof.
  unfold urlHeap.Swap. destruct (h !! i), (h !! j); trivial.
  by rewrite !length_insert.
Qed.

Lemma Swap_lookup_ne (h : urlHeap.t) (i j k : nat) :
  k <> i -> k <> j -> urlHeap.Swap h i j !! k = h !! k.
Proof.
  intros Hi Hj. unfold urlHeap.Swap. destruct (h !! i), (h !! j); trivial.
  rewrite !list_lookup_insert_ne; auto.
Qed.

Lemma Swap_lookup_l (h : urlHeap.t) (i j : nat) (a b : urlItem) :
  h !! i = Some a -> h !! j = Some b ->
  urlHeap.Swap h i j !! i = Some (set_index b (Z.of_nat i)).
Proof.
  intros Hi Hj. unfold urlHeap.Swap. rewrite Hi, Hj.
  apply list_lookup_insert_eq. rewrite length_insert. eauto using lookup_lt_Some.
Qed.

Lemma Swap_lookup_r (h : urlHeap.t) (i j : nat) (a b : urlItem) :
  i <> j -> h !! i = Some a -> h !! j = Some b ->
  urlHeap.Swap h i j !! j = Some (set_index a (Z.of_nat j)).
Proof.
  intros Hne Hi Hj. unfold urlHeap.Swap. rewrite Hi, Hj.
  rewrite list_lookup_insert_ne by done.
  apply list_lookup_insert_eq. eauto using lookup_lt_Some.
Qed.

Lemma prio_Swap_ne (h : urlHeap.t) (i j k : nat) :
  k <> i -> k <> j -> prio (urlHeap.Swap h i j) k = prio h k.
Proof. intros. unfold prio. by rewrite Swap_lookup_ne. Qed.

Lemma prio_Swap_l (h : urlHeap.t) (i j : nat) :
  (i < length h)%nat -> (j < length h)%nat ->
  prio (urlHeap.Swap h i j) i = prio h j.
Proof.
  intros Hi Hj. unfold prio.
  destruct (lookup_lt_is_Some_2 h i Hi) as [a Ha].
  destruct (lookup_lt_is_Some_2 h j Hj) as [b Hb].
  by rewrite (Swap_lookup_l h i j a b), Hb.
Qed.

Lemma prio_Swap_r (h : urlHeap.t) (i j : nat) :
  (i < length h)%nat -> (j < length h)%nat ->
  prio (urlHeap.Swap h i j) j = prio h i.
Proof.
  intros Hi Hj. destruct (decide (i = j)) as [->|Hne].
  - by apply prio_Swap_l.
  - unfold prio.
    destruct (lookup_lt_is_Some_2 h i Hi) as [a Ha].
    destruct (lookup_lt_is_Some_2 h j Hj) as [b Hb].
    by rewrite (Swap_lookup_r h i j a b), Ha.
Qed.

Lemma insert_Permutation_delete {A} (l : list A) (i : nat) (x : A) :
  (i < length l)%nat -> <[i := x]> l ≡ₚ x :: delete i l.
Proof.
  intros Hi. rewrite insert_take_drop, delete_take_drop by done.
  symmetry. apply Permutation_middle.
Qed.

(** Exchanging two slots permutes the list. *)
Lemma insert_swap_Permutation {A} (l : list A) (i j : nat) (a b : A) :
  l !! i = Some a -> l !! j = Some b -> <[i := b]> (<[j := a]> l) ≡ₚ l.
Proof.
  intros Hla Hlb. destruct (decide (i = j)) as [->|Hne].
  - rewrite list_insert_insert_eq. by rewrite list_insert_id.
  - etrans; [apply insert_Permutation_delete;
              rewrite length_insert; eauto using lookup_lt_Some|].
    etrans; [|symmetry; apply (delete_Permutation l j _ Hlb)].
    apply perm_skip, (Permutation_cons_inv (a := a)).
    etrans; [symmetry; apply delete_Permutation;
             by rewrite list_lookup_insert_ne|].
    apply insert_Permutation_delete. eauto using lookup_lt_Some.
Qed.

Lemma keys_Swap (h : list urlItem) (i j : nat) :
  item_key <$> urlHeap.Swap h i j ≡ₚ item_key <$> h.
Proof.
  unfold urlHeap.Swap.
  destruct (h !! i) as [a|] eqn:Ha; [|done].
  destruct (h !! j) as [b|] eqn:Hb; [|done].
  rewrite !list_fmap_insert.
  change (item_key (set_index b (Z.of_nat i))) with (item_key b).
  change (item_key (set_index a (Z.of_nat j))) with (item_key a).
  apply insert_swap_Permutation; by rewrite list_lookup_fmap, ?Ha, ?Hb.
Qed.

Lemma prio_Swap (h : list urlItem) (i j x : nat) :
  (i < length h)%nat -> (j < length h)%nat ->
  prio (urlHeap.Swap h i j) x =
  if decide (x = i) then prio h j
  else if decide (x = j) then prio h i else prio h x.
Proof.
  intros Hi Hj. destruct (decide (x = i)) as [->|Hxi].
  - by apply prio_Swap_l.
  - destruct (decide (x = j)) as [->|Hxj].
    + by apply prio_Swap_r.
    + by apply prio_Swap_ne.
Qed.

Lemma up_length (j : nat) : forall h : list urlItem, length (heap.up h j) = length h.
Proof.
  induction (lt_wf j) as [j _ IH]. intros h.
  rewrite heap.up_equation_1.
  destruct (decide _) as [|Hne]; [done|].
  destruct (urlHeap.Less _ _ _); [|done].
  rewrite IH by lia. apply Swap_length.
Qed.

Lemma up_keys (j : nat) :
  forall h : list urlItem, item_key <$> heap.up h j ≡ₚ item_key <$> h.
Proof.
  induction (lt_wf j) as [j _ IH]. intros h.
  rewrite heap.up_equation_1.
  destruct (decide _) as [|Hne]; [done|].
  destruct (urlHeap.Less _ _ _); [|done].
  etrans; [apply IH; lia|]. apply keys_Swap.
Qed.

Ltac prio_congr h :=
  repeat match goal with
  | H : @eq nat ?a ?b |- _ =>
      lazymatch goal with
      | _ : prio h a = prio h b |- _ => fail
      | _ => pose proof (f_equal (prio h) H);
             pose proof (f_equal (fun x : nat => prio h ((x - 1) / 2)) H : 
                           prio h ((a - 1) / 2) = prio h ((b - 1) / 2))
      end
  end.

Lemma up_heap_ok (n j : nat) :
  forall h : list urlItem,
    n = length h -> (j < n)%nat -> up_inv h n j -> heap_ok (heap.up h j) n.
Proof.
  induction (lt_wf j) as [j _ IH]. intros h Hn Hj [H1 H2].
  rewrite heap.up_equation_1.
  destruct (decide _) as [He|Hne].
  { intros k Hk. apply H1; lia. }
  remember ((j - 1) / 2)%nat as i eqn:Ei.
  assert (Hij : (i < j)%nat) by lia.
  rewrite Less_prio by lia.
  destruct (Z.ltb_spec (prio h j) (prio h i)) as [Hlt|Hge].
  - apply IH; [lia|by rewrite Swap_length|lia|].
    split.
    + intros k Hk Hki. rewrite !prio_Swap by lia.
      pose proof (H1 k Hk) as H1k. pose proof (H2 k Hk) as H2k.
      repeat case_decide; prio_congr h; lia.
    + intros k Hk Hki Hi. rewrite !prio_Swap by lia.
      pose proof (H1 k Hk) as H1k. pose proof (H1 i) as H1i.
      repeat case_decide; prio_congr h; lia.
  - intros k Hk. destruct (decide (k = j)) as [->|Hkj]; [|by apply H1].
    rewrite <- Ei. lia.
Qed.

Lemma child_spec (h : list urlItem) (i n : nat) :
  (2 * i + 1 < n)%nat -> (n <= length h)%nat ->
  (i < heap.child h i n < n)%nat /\
  ((heap.child h i n - 1) / 2)%nat = i /\
  forall k : nat, (0 < k < n)%nat -> ((k - 1) / 2)%nat = i ->
                  prio h (heap.child h i n) <= prio h k.
Proof.
  intros Hc Hn. unfold heap.child.
  replace (2 * i + 1 + 1)%nat with (2 * i + 2)%nat by lia.
  assert (Hk : forall k : nat, (0 < k)%nat -> ((k - 1) / 2)%nat = i ->
                 k = (2 * i + 1)%nat \/ k = (2 * i + 2)%nat) by (intros; lia).
  case_bool_decide as Hr; cbn [andb].
  - rewrite Less_prio by lia.
    destruct (Z.ltb_spec (prio h (2 * i + 2)) (prio h (2 * i + 1)));
      (split; [lia|]); (split; [lia|]);
      intros k Hkn Hki; destruct (Hk k) as [-> | ->]; lia.
  - split; [lia|]. split; [lia|].
    intros k Hkn Hki; destruct (Hk k) as [-> | ->]; lia.
Qed.

Lemma down_length (n : nat) (h : list urlItem) (i : nat) :
  length (heap.down h i n) = length h.
Proof.
  remember (n - i)%nat as m eqn:Em. revert h i Em.
  induction (lt_wf m) as [m _ IH]. intros h i ->.
  rewrite heap.down_equation_1.
  destruct (decide _) as [Hc|]; [|done].
  destruct (urlHeap.Less _ _ _); [|done].
  rewrite (IH (n - heap.child h i n)%nat); [apply Swap_length| |done].
  unfold heap.child. destruct (_ && _); lia.
Qed.

Lemma down_keys (n : nat) (h : list urlItem) (i : nat) :
  item_key <$> heap.down h i n ≡ₚ item_key <$> h.
Proof.
  remember (n - i)%nat as m eqn:Em. revert h i Em.
  induction (lt_wf m) as [m _ IH]. intros h i ->.
  rewrite heap.down_equation_1.
  destruct (decide _) as [Hc|]; [|done].
  destruct (urlHeap.Less _ _ _); [|done].
  etrans; [apply (IH (n - heap.child h i n)%nat)|apply keys_Swap]; [|done].
  unfold heap.child. destruct (_ && _); lia.
Qed.

Lemma down_lookup_ge (n : nat) (h : list urlItem) (i k : nat) :
  (i < n)%nat -> (n <= k)%nat -> heap.down h i n !! k = h !! k.
Proof.
  remember (n - i)%nat as m eqn:Em. revert h i Em.
  induction (lt_wf m) as [m _ IH]. intros h i -> Hi Hk.
  rewrite heap.down_equation_1.
  destruct (decide _) as [Hc|]; [|done].
  destruct (urlHeap.Less _ _ _); [|done].
  assert (Hch : (i < heap.child h i n < n)%nat)
    by (unfold heap.child; case_bool_decide; simpl; [destruct (urlHeap.Less _ _ _)|]; lia).
  rewrite (IH (n - heap.child h i n)%nat) by (done || lia).
  apply Swap_lookup_ne; lia.
Qed.

Lemma down_heap_ok (n : nat) (h : list urlItem) (i : nat) :
  (n <= length h)%nat -> (i < n)%nat -> down_inv h n i ->
  heap_ok (heap.down h i n) n.
Proof.
  remember (n - i)%nat as m eqn:Em. revert h i Em.
  induction (lt_wf m) as [m _ IH]. intros h i -> Hn Hi [H1 H2].
  rewrite heap.down_equation_1.
  destruct (decide _) as [Hc|Hc].
  2:{ intros k Hk. apply H1; lia. }
  destruct (child_spec h i n Hc Hn) as (Hcr & Hcp & Hcmin).
  remember (heap.child h i n) as c eqn:Ec.
  rewrite Less_prio by lia.
  destruct (Z.ltb_spec (prio h c) (prio h i)) as [Hlt|Hge].
  - apply (IH (n - c)%nat); [lia|done|by rewrite Swap_length|lia|].
    split.
    + intros k Hk Hki. rewrite !prio_Swap by lia.
      pose proof (H1 k Hk) as H1k. pose proof (H2 k Hk) as H2k.
      pose proof (H2 c) as H2c. pose proof (Hcmin k Hk) as Hmk.
      repeat case_decide; prio_congr h; lia.
    + intros k Hk Hki _. rewrite !prio_Swap by lia.
      pose proof (H1 k Hk) as H1k.
      repeat case_decide; prio_congr h; lia.
  - intros k Hk. pose proof (H1 k Hk) as H1k. pose proof (Hcmin k Hk) as Hmk.
    destruct (decide (((k - 1) / 2)%nat = i)) as [E|E]; [|auto].
    prio_congr h. lia.
Qed.

Lemma heap_ok_root (h : list urlItem) (n : nat) :
  heap_ok h n -> forall k : nat, (k < n)%nat -> prio h 0 <= prio h k.
Proof.
  intros Hok k. induction (lt_wf k) as [k _ IH]. intros Hk.
  destruct (decide (k = 0%nat)) as [->|Hk0]; [lia|].
  etrans; [apply (IH ((k - 1) / 2)%nat); lia|]. apply Hok. lia.
Qed.

(** ** [heap.Push] and [heap.Pop] *)

Lemma prio_app_l (h1 h2 : list urlItem) (k : nat) :
  (k < length h1)%nat -> prio (h1 ++ h2) k = prio h1 k.
Proof. intros Hk. unfold prio. by rewrite lookup_app_l. Qed.

Lemma prio_take (h : list urlItem) (n k : nat) :
  (k < n)%nat -> prio (take n h) k = prio h k.
Proof. intros Hk. unfold prio. by rewrite lookup_take_lt. Qed.

Lemma heap_Push_length (h : list urlItem) (x : urlItem) :
  length (heap.Push h x) = S (length h).
Proof.
  unfold heap.Push, urlHeap.Push. rewrite up_length, length_app. simpl. lia.
Qed.

Lemma heap_Push_keys (h : list urlItem) (x : urlItem) :
  item_key <$> heap.Push h x ≡ₚ item_key x :: (item_key <$> h).
Proof.
  unfold heap.Push, urlHeap.Push. etrans; [apply up_keys|].
  rewrite fmap_app. simpl. symmetry. apply Permutation_cons_append.
Qed.

Lemma heap_Push_ok (h : list urlItem) (x : urlItem) :
  heap_ok h (length h) -> heap_ok (heap.Push h x) (S (length h)).
Proof.
  intros Hok. unfold heap.Push, urlHeap.Push, urlHeap.Len.
  rewrite length_app. simpl.
  replace (length h + 1 - 1)%nat with (length h) by lia.
  apply up_heap_ok; [rewrite length_app; simpl; lia|lia|].
  split.
  - intros k Hk Hne. rewrite !prio_app_l by lia. apply Hok. lia.
  - intros k Hk Hp _. lia.
Qed.

Lemma heap_Pop_spec (h : list urlItem) :
  h <> [] -> heap_ok h (length h) ->
  exists (it : urlItem) (h' : list urlItem),
    heap.Pop h = Some (it, h') /\
    length h = S (length h') /\
    heap_ok h' (length h') /\
    item_key <$> h ≡ₚ item_key it :: (item_key <$> h') /\
    forall k : nat, (k < length h)%nat -> priority it <= prio h k.
Proof.
  intros Hne Hok.
  assert (Hlen : (0 < length h)%nat) by (destruct h; [done|simpl; lia]).
  destruct (lookup_lt_is_Some_2 h 0 Hlen) as [a Ha].
  set (n := (length h - 1)%nat).
  destruct (lookup_lt_is_Some_2 h n ltac:(lia)) as [b Hb].
  set (h1 := urlHeap.Swap h 0 n).
  set (h2 := heap.down h1 0 n).
  assert (Hl1 : length h1 = length h) by apply Swap_length.
  assert (Hl2 : length h2 = length h) by (unfold h2; by rewrite down_length).
  assert (Hlast : exists c, h2 !! n = Some c /\ item_key c = item_key a).
  { destruct (decide (n = 0%nat)) as [Hn0|Hn0].
    - exists (set_index b (Z.of_nat 0)). unfold h2, h1. rewrite Hn0.
      rewrite heap.down_equation_1. destruct (decide _); [lia|].
      rewrite Hn0 in Hb. rewrite (Swap_lookup_l h 0 0 a b) by done.
      split; [done|]. assert (a = b) as -> by congruence. done.
    - exists (set_index a (Z.of_nat n)). unfold h2.
      rewrite down_lookup_ge by lia. unfold h1.
      by rewrite (Swap_lookup_r h 0 n a b). }
  destruct Hlast as (c & Hc & Hkey).
  assert (Hsplit : h2 = take n h2 ++ [c]).
  { rewrite <- (take_drop n h2) at 1. f_equal.
    rewrite (drop_S _ c) by done. rewrite drop_ge by lia. done. }
  exists (set_index c (-1)), (take n h2). repeat split.
  - unfold heap.Pop, urlHeap.Pop, urlHeap.Len. fold n. fold h1. fold h2.
    rewrite Hl2. fold n. rewrite Hsplit at 1. by rewrite last_snoc.
  - rewrite length_take. lia.
  - rewrite length_take, Nat.min_l by lia.
    intros k Hk. rewrite !prio_take by lia.
    apply (down_heap_ok n h1 0); [lia|lia| |done].
    split.
    + intros k' Hk' Hp. unfold h1. rewrite !prio_Swap_ne by lia. apply Hok. lia.
    + intros; lia.
  - etrans; [symmetry; apply (keys_Swap h 0 n)|]. fold h1.
    etrans; [symmetry; apply (down_keys n h1 0)|]. fold h2.
    rewrite Hsplit at 1. rewrite fmap_app. simpl.
    etrans; [symmetry; apply Permutation_cons_append|].
    by change (item_key (set_index c (-1))) with (item_key c).
  - intros k Hk. simpl.
    assert (priority c = prio h 0) as ->.
    { unfold prio. rewrite Ha. simpl. unfold item_key in Hkey. congruence. }
    by apply (heap_ok_root h (length h)).
Qed.

(** ** The frontier keeps its invariant *)

Lemma priority_of_keys (h : list urlItem) :
  Forall (fun it => priority it = priority_of (task it)) h <->
  Forall (fun kp : URLTask * Z => snd kp = priority_of (fst kp)) (item_key <$> h).
Proof. by rewrite Forall_fmap. Qed.

Lemma queue_inv_New : queue_inv Queue.New.
Proof.
  unfold queue_inv. simpl. repeat split.
  - unfold Queue.Size, MaxQueueSize. simpl. lia.
  - intros k Hk. simpl in Hk. lia.
  - constructor.
Qed.

Lemma Queue_Push_inv (q : PriorityURLQueue) (t : URLTask) :
  queue_inv q -> queue_inv (fst (Queue.Push q t)).
Proof.
  intros (Hsz & Hok & Hpr). unfold Queue.Push.
  destruct (Z.leb_spec (maxSize q) (Z.of_nat (urlHeap.Len (qheap q)))) as [Hfull|Hroom];
    simpl; [done|].
  unfold urlHeap.Len in Hroom. repeat split; simpl.
  - unfold Queue.Size, urlHeap.Len. simpl. rewrite heap_Push_length. lia.
  - rewrite heap_Push_length. by apply heap_Push_ok.
  - apply priority_of_keys.
    eapply Permutation_Forall; [symmetry; apply heap_Push_keys|].
    constructor; [done|]. by apply priority_of_keys.
Qed.

Lemma Queue_Pop_inv (q : PriorityURLQueue) :
  queue_inv q -> queue_inv (Queue.pop_queue (Queue.Pop q)).
Proof.
  intros (Hsz & Hok & Hpr). unfold Queue.Pop, urlHeap.Len.
  destruct (Nat.eqb_spec (length (qheap q)) 0) as [He|Hne]; simpl; [done|].
  destruct (heap_Pop_spec (qheap q)) as (it & h' & -> & Hlen & Hok' & Hperm & _);
    [by destruct (qheap q)|done|].
  simpl. repeat split; simpl; [|done|].
  - unfold Queue.Size, urlHeap.Len in *. simpl. lia.
  - apply priority_of_keys. apply priority_of_keys in Hpr.
    eapply Permutation_Forall in Hpr; [|exact Hperm].
    by inversion Hpr.
Qed.

Lemma Queue_Close_inv (q : PriorityURLQueue) :
  0 <= maxSize q -> queue_inv (Queue.Close q).
Proof.
  intros Hm. repeat split; simpl.
  - unfold Queue.Size. simpl. lia.
  - intros k Hk. simpl in Hk. lia.
  - constructor.
Qed.

Lemma Queue_pushAll_inv (urls : list URLTask) (q : PriorityURLQueue) :
  queue_inv q -> queue_inv (Queue.pushAll q urls).
Proof.
  revert q. induction urls as [|t rest IH]; intros q Hq; simpl; [done|].
  pose proof (Queue_Push_inv q t Hq) as Hq'.
  destruct (Queue.Push q t) as [q' [e|]]; simpl in Hq'; auto.
Qed.

(** ** Priorities *)

Lemma wrap64_id (z : Z) : int64_min <= z <= int64_max -> wrap64 z = z.
Proof.
  unfold int64_min, int64_max, wrap64. intros Hz.
  rewrite Z.mod_small; lia.
Qed.

Lemma priority_of_exact (t : URLTask) :
  priority_exact t -> priority_of t = spec_priority t.
Proof.
  intros [H1 H2]. unfold priority_of, spec_priority.
  rewrite (wrap64_id (Depth t * 1000)) by done. by apply wrap64_id.
Qed.

Lemma tasks_of_keys (h : list urlItem) : task <$> h = fst <$> (item_key <$> h).
Proof. rewrite <- list_fmap_compose. done. Qed.

(** C9. For every non-empty frontier, [Pop] returns a task of the heap
    whose priority value [depth * 1000 + creation_unix_seconds] is
    minimal among the tasks in the heap, and removes exactly that task;
    on an empty frontier [Pop] returns [ErrQueueEmpty] and changes
    nothing.  The priority value is the one [Push] computed in [int64];
    it is the value of the specification for tasks on which that
    arithmetic does not wrap. *)
Theorem C9_pop_returns_minimum (q : PriorityURLQueue) :
  queue_inv q ->
  Forall priority_exact (task <$> qheap q) ->
  (qheap q = [] ->
   Queue.Pop q = Queue.mkPop zeroTask (Some ErrQueueEmpty) q false) /\
  (qheap q <> [] ->
   Queue.pop_err (Queue.Pop q) = None /\
   Queue.popped (Queue.Pop q) ∈ task <$> qheap q /\
   (forall t' : URLTask, t' ∈ task <$> qheap q ->
      spec_priority (Queue.popped (Queue.Pop q)) <= spec_priority t') /\
   task <$> qheap q ≡ₚ
     Queue.popped (Queue.Pop q) :: (task <$> qheap (Queue.pop_queue (Queue.Pop q)))).
Proof.
  intros (Hsz & Hok & Hpr) Hex. split.
  - intros He. unfold Queue.Pop. by rewrite He.
  - intros Hne. unfold Queue.Pop, urlHeap.Len.
    destruct (Nat.eqb_spec (length (qheap q)) 0) as [He|_].
    { by destruct (qheap q). }
    destruct (heap_Pop_spec (qheap q) Hne Hok)
      as (it & h' & -> & Hlen & Hok' & Hperm & Hmin).
    simpl.
    assert (Htasks : task <$> qheap q ≡ₚ task it :: (task <$> h')).
    { rewrite !tasks_of_keys. by rewrite Hperm. }
    assert (Hin : task it ∈ task <$> qheap q).
    { rewrite Htasks. by left. }
    assert (Hkin : item_key it ∈ item_key <$> qheap q).
    { rewrite Hperm. by left. }
    apply list_elem_of_fmap in Hkin as (it0 & Hk0 & Hit0).
    assert (Hpit : priority it = priority_of (task it)).
    { rewrite Forall_forall in Hpr. specialize (Hpr it0 Hit0).
      unfold item_key in Hk0. congruence. }
    repeat split; [done| |done].
    intros t' Ht'.
    apply list_elem_of_fmap in Ht' as (it' & -> & Hit').
    apply list_elem_of_lookup in Hit' as [k Hk].
    specialize (Hmin k (lookup_lt_Some _ _ _ Hk)).
    unfold prio in Hmin. rewrite Hk in Hmin. simpl in Hmin.
    rewrite Forall_forall in Hpr. rewrite Forall_forall in Hex.
    rewrite <- !priority_of_exact.
    + rewrite <- Hpit. rewrite <- (Hpr it'); [done|].
      apply list_elem_of_lookup. eauto.
    + apply Hex, list_elem_of_fmap. exists it'. split; [done|].
      apply list_elem_of_lookup. eauto.
    + by apply Hex.
Qed.

Lemma C9_pop_returns_minimum_witness :
  queue_inv c9_queue /\
  Forall priority_exact (task <$> qheap c9_queue) /\
  Queue.popped (Queue.Pop c9_queue) = c9_t2 /\
  forall t' : URLTask, t' ∈ task <$> qheap c9_queue ->
    spec_priority (Queue.popped (Queue.Pop c9_queue)) <= spec_priority t'.
Proof.
  assert (Hq : task <$> qheap c9_queue = [c9_t2; c9_t1; c9_t3])
    by (vm_compute; reflexivity).
  assert (Hex : Forall priority_exact (task <$> qheap c9_queue)).
  { rewrite Hq.
    repeat (apply List.Forall_cons;
            [vm_compute; repeat split; intros Hd; discriminate Hd|]).
    apply List.Forall_nil. }
  assert (Hne : qheap c9_queue <> []).
  { intros He. rewrite He in Hq. discriminate Hq. }
  assert (Hinv : queue_inv c9_queue)
    by (do 3 apply Queue_Push_inv; apply queue_inv_New).
  split; [exact Hinv|]. split; [exact Hex|].
  split; [vm_compute; reflexivity|].
  destruct (C9_pop_returns_minimum c9_queue Hinv Hex) as [_ Hpop].
  destruct (Hpop Hne) as (_ & _ & Hmin & _).
  exact Hmin.
Defined.

(** ** The capacity bound *)

Lemma db_set_elem {V : Type} (k : string) (v : V) (db : list (string * V)) :
  (k, v) ∈ db_set k v db.
Proof.
  induction db as [|[k' v'] rest IH]; simpl; [by left|].
  destruct (String.compare k k'); [by left|by left|by right].
Qed.

Lemma Queue_Push_full (q : PriorityURLQueue) (t : URLTask) :
  maxSize q <= Queue.Size q -> Queue.Push q t = (q, Some ErrQueueFull).
Proof.
  intros Hfull. unfold Queue.Push. unfold Queue.Size in Hfull.
  by destruct (Z.leb_spec (maxSize q) (Z.of_nat (urlHeap.Len (qheap q)))); [|lia].
Qed.

Lemma Queue_Push_room (q : PriorityURLQueue) (t : URLTask) :
  Queue.Size q < maxSize q ->
  snd (Queue.Push q t) = None /\
  Queue.Size (fst (Queue.Push q t)) = Queue.Size q + 1 /\
  maxSize (fst (Queue.Push q t)) = maxSize q.
Proof.
  intros Hroom. unfold Queue.Push. unfold Queue.Size in *.
  destruct (Z.leb_spec (maxSize q) (Z.of_nat (urlHeap.Len (qheap q)))); [lia|].
  simpl. unfold urlHeap.Len. rewrite heap_Push_length. repeat split. lia.
Qed.

Section Capacity.
Context `{Codec} `{RobotsTxt}.

(** C6. The heap never grows beyond the configured capacity: a frontier
    within its capacity is still within it after [Push], and [Push] on a
    frontier whose size is at or above capacity returns [ErrQueueFull]
    at once and leaves the heap as it was; a frontier with room takes
    the task.  On [ErrQueueFull] the caller [addNewURLs] hands the very
    task to [StoreURL], so that once the write commits the task sits in
    the backlog under its key; the queue is untouched. *)
Theorem C6_capacity_bound (E : Oracle) (w : World) (url : string) (depth : Z) :
  queue_inv (URLQueue w) ->
  let q := URLQueue w in
  let t := App.mkTask E url depth in
  let w' := App.enlist E w url depth in
  (Queue.Size (fst (Queue.Push q t)) <= maxSize (fst (Queue.Push q t)) /\
   Queue.Size (URLQueue w') <= maxSize (URLQueue w')) /\
  (maxSize q <= Queue.Size q ->
     Queue.Push q t = (q, Some ErrQueueFull) /\
     URLQueue w' = q /\
     Storage w' =
       fst (Badger.StoreURL (Storage w) t (commitOK E (URLPrefix ++ url)%string)) /\
     (commitOK E (URLPrefix ++ url)%string = true ->
        ((URLPrefix ++ url)%string, marshalTask t) ∈ urlDB (Storage w'))) /\
  (Queue.Size q < maxSize q ->
     snd (Queue.Push q t) = None /\
     URLQueue w' = fst (Queue.Push q t) /\
     Queue.Size (URLQueue w') = Queue.Size q + 1 /\
     Storage w' = Storage w).
Proof.
  intros Hinv q t w'.
  assert (Hpush : Queue.Size (fst (Queue.Push q t)) <= maxSize (fst (Queue.Push q t))).
  { by destruct (Queue_Push_inv q t Hinv) as [? _]. }
  assert (Hw' : URLQueue w' = fst (Queue.Push q t) /\
                (snd (Queue.Push q t) = None -> Storage w' = Storage w) /\
                (snd (Queue.Push q t) <> None ->
                 Storage w' = fst (Badger.StoreURL (Storage w) t
                                     (commitOK E (URLPrefix ++ url)%string)))).
  { unfold w', App.enlist. simpl. fold q. fold t.
    destruct (Queue.Push q t) as [q1 [e|]] eqn:Hp; simpl.
    - split; [|split; [done|done]].
      unfold Queue.Push in Hp.
      destruct (maxSize q <=? Z.of_nat (urlHeap.Len (qheap q)));
        [by inversion Hp|discriminate Hp].
    - split; [done|split; [done|]]. by intros []. }
  destruct Hw' as (Hq' & Hs1 & Hs2).
  split; [split; [done|by rewrite Hq']|]. split.
  - intros Hfull. pose proof (Queue_Push_full q t Hfull) as Hp.
    rewrite Hp in Hq', Hs2. simpl in *.
    repeat split; [done|done|by apply Hs2|].
    intros Hok. rewrite Hs2 by done. unfold Badger.StoreURL. rewrite Hok. simpl.
    apply db_set_elem.
  - intros Hroom. destruct (Queue_Push_room q t Hroom) as (Hn & Hsz & _).
    repeat split; [done|done|by rewrite Hq'|by apply Hs1].
Qed.

End Capacity.

Lemma C6_capacity_bound_witness :
  queue_inv (@URLQueue plainCodec prefixRules c6_world) /\
  @URLQueue plainCodec prefixRules
    (@App.enlist plainCodec prefixRules quietOracle c6_world
       "https://a.example/next" 1) = c6_full /\
  ("url:https://a.example/next"%string,
   StoredTask (App.mkTask quietOracle "https://a.example/next" 1))
    ∈ @urlDB plainCodec
        (@Storage plainCodec prefixRules
           (@App.enlist plainCodec prefixRules quietOracle c6_world
              "https://a.example/next" 1)).
Proof.
  assert (Hinv : queue_inv (@URLQueue plainCodec prefixRules c6_world)).
  { repeat split.
    - vm_compute. intros Hd; discriminate Hd.
    - intros k Hk. simpl in Hk. lia.
    - repeat constructor. }
  destruct (@C6_capacity_bound plainCodec prefixRules quietOracle c6_world
              "https://a.example/next" 1 Hinv) as (_ & Hfull & _).
  destruct Hfull as (_ & Hq & _ & Hin).
  { vm_compute. intros Hd; discriminate Hd. }
  split; [exact Hinv|]. split; [exact Hq|]. apply Hin. reflexivity.
Defined.

(** ** Keys in byte order *)

Lemma key_lt_trans (a b c : string) : key_lt a b -> key_lt b c -> key_lt a c.
Proof.
  unfold key_lt. intros Hab Hbc.
  apply String_as_OT.cmp_lt. apply String_as_OT.cmp_lt in Hab, Hbc.
  eapply String_as_OT.lt_trans; eauto.
Qed.

Lemma key_lt_irrefl (a : string) : ~ key_lt a a.
Proof.
  unfold key_lt. intros Ha. apply String_as_OT.cmp_lt in Ha.
  by apply String_as_OT.lt_not_eq in Ha.
Qed.

Lemma compare_Gt_lt (a b : string) : String.compare a b = Gt -> key_lt b a.
Proof.
  unfold key_lt. intros Hgt. rewrite String.compare_antisym, Hgt. done.
Qed.

Lemma ascii_compare_refl (a : ascii) : Ascii.compare a a = Eq.
Proof. unfold Ascii.compare. apply N.compare_refl. Qed.

Lemma prefix_not_below (p k : string) :
  String.prefix p k = true -> String.compare k p <> Lt.
Proof.
  revert k. induction p as [|a p IH]; intros k Hp.
  - by destruct k.
  - destruct k as [|b k]; simpl in Hp; [done|].
    destruct (ascii_dec a b) as [->|]; [|done].
    simpl. rewrite ascii_compare_refl. by apply IH.
Qed.

Lemma prefix_lost (p k1 k2 : string) :
  String.compare k1 p <> Lt -> String.prefix p k1 = false ->
  String.compare k1 k2 = Lt -> String.prefix p k2 = false.
Proof.
  revert k1 k2. induction p as [|a p IH]; intros k1 k2 Hge Hnp Hlt.
  - by destruct k1.
  - destruct k1 as [|b k1]; [done|].
    destruct k2 as [|c k2]; [done|].
    simpl in *.
    destruct (ascii_dec a c) as [<-|]; [|done].
    destruct (Ascii.compare b a) eqn:Hba; [|congruence|congruence].
    apply Ascii.compare_eq_iff in Hba as ->.
    destruct (ascii_dec a a); [|done]. eauto.
Qed.

(** ** The ordered database *)

Lemma db_keys_cons {V : Type} (k : string) (v : V) (db : list (string * V)) :
  db_keys ((k, v) :: db) = k :: db_keys db.
Proof. done. Qed.

Lemma db_set_keys_elem {V : Type} (k : string) (v : V) (db : list (string * V))
  (x : string) :
  x ∈ db_keys (db_set k v db) -> x = k \/ x ∈ db_keys db.
Proof.
  unfold db_keys. induction db as [|[k' v'] rest IH]; simpl.
  - rewrite list_elem_of_singleton. auto.
  - destruct (String.compare k k') eqn:Hc; simpl.
    + apply String.compare_eq_iff in Hc as ->.
      rewrite !elem_of_cons. tauto.
    + rewrite !elem_of_cons. tauto.
    + rewrite !elem_of_cons. intros [->|Hx]; [tauto|].
      destruct (IH Hx); tauto.
Qed.

Lemma db_set_sorted {V : Type} (k : string) (v : V) (db : list (string * V)) :
  db_sorted db -> db_sorted (db_set k v db).
Proof.
  unfold db_sorted. induction db as [|[k' v'] rest IH]; intros Hs.
  - repeat constructor.
  - rewrite db_keys_cons in Hs. apply StronglySorted_inv in Hs as [Hs Hall].
    simpl. destruct (String.compare k k') eqn:Hc; rewrite !db_keys_cons.
    + apply String.compare_eq_iff in Hc as ->. by constructor.
    + constructor; [by constructor|].
      constructor; [done|].
      eapply Forall_impl; [exact Hall|]. intros x Hx. by eapply key_lt_trans.
    + constructor; [by apply IH|].
      apply Forall_forall. intros x Hx.
      apply db_set_keys_elem in Hx as [->|Hx]; [by apply compare_Gt_lt|].
      rewrite Forall_forall in Hall. by apply Hall.
Qed.

Lemma filter_sorted {V : Type} (f : string * V -> bool) (db : list (string * V)) :
  db_sorted db -> db_sorted (List.filter f db).
Proof.
  unfold db_sorted. induction db as [|[k v] rest IH]; intros Hs; [done|].
  rewrite db_keys_cons in Hs. apply StronglySorted_inv in Hs as [Hs Hall].
  simpl. destruct (f (k, v)); [|by apply IH].
  rewrite db_keys_cons. constructor; [by apply IH|].
  rewrite Forall_forall in Hall. apply Forall_forall. intros x Hx.
  apply Hall. unfold db_keys in *.
  apply list_elem_of_fmap in Hx as (e & -> & He).
  apply list_elem_of_fmap. exists e. split; [done|].
  apply list_elem_of_In, filter_In in He as [He _]. by apply list_elem_of_In.
Qed.

Lemma sorted_NoDup {V : Type} (db : list (string * V)) :
  db_sorted db -> NoDup (db_keys db).
Proof.
  unfold db_sorted. induction (db_keys db) as [|k ks IH]; intros Hs; [constructor|].
  apply StronglySorted_inv in Hs as [Hs Hall].
  constructor; [|by apply IH].
  intros Hin. rewrite Forall_forall in Hall. by apply (key_lt_irrefl k), Hall.
Qed.

(** Deleting a batch of keys is one filter. *)
Lemma delete_batch_filter {V : Type} (ks : list string) (db : list (string * V)) :
  fold_left (fun acc k => db_delete k acc) ks db =
  List.filter (fun e => negb (bool_decide (fst e ∈ ks))) db.
Proof.
  revert db. induction ks as [|k ks IH]; intros db; cbn [fold_left].
  - induction db as [|e db IHdb]; cbn [List.filter]; [done|].
    rewrite bool_decide_eq_false_2 by apply not_elem_of_nil.
    cbn [negb]. by f_equal.
  - rewrite IH. unfold db_delete. clear IH.
    induction db as [|e db IHdb]; cbn [List.filter]; [done|].
    destruct (String.eqb_spec (fst e) k) as [He|He]; cbn [negb].
    + rewrite IHdb. rewrite (bool_decide_eq_true_2 (fst e ∈ k :: ks)); [done|].
      rewrite He. by left.
    + cbn [List.filter]. rewrite IHdb.
      assert (bool_decide (fst e ∈ k :: ks) = bool_decide (fst e ∈ ks)) as ->; [|done].
      apply bool_decide_ext. rewrite elem_of_cons. tauto.
Qed.

Lemma filter_take_drop {V : Type} (n : nat) (l : list (string * V)) :
  NoDup (db_keys l) ->
  List.filter (fun e => negb (bool_decide (fst e ∈ db_keys (take n l)))) l = drop n l.
Proof.
  revert n. induction l as [|[k v] l IH]; intros n Hnd; [by destruct n|].
  rewrite db_keys_cons in Hnd. apply NoDup_cons in Hnd as [Hk Hnd].
  destruct n as [|n].
  - rewrite take_0, drop_0. cbn [List.filter db_keys fmap list_fmap].
    rewrite bool_decide_eq_false_2 by apply not_elem_of_nil. cbn [negb]. f_equal.
    specialize (IH 0%nat Hnd). rewrite take_0, drop_0 in IH. exact IH.
  - cbn [take drop List.filter]. rewrite db_keys_cons.
    rewrite bool_decide_eq_true_2 by (by left). cbn [negb fst].
    rewrite <- (IH n Hnd).
    apply filter_ext_in. intros [k' v'] Hin. cbn [fst].
    f_equal. apply bool_decide_ext. rewrite elem_of_cons.
    split; [|tauto]. intros [->|]; [|done].
    exfalso. apply Hk. apply list_elem_of_fmap. exists (k, v').
    split; [done|]. by apply list_elem_of_In.
Qed.

Lemma seek_above {V : Type} (p : string) (db : list (string * V)) :
  db_sorted db ->
  Forall (fun e => String.compare (fst e) p <> Lt) (db_seek p db).
Proof.
  unfold db_sorted. induction db as [|[k v] rest IH]; intros Hs; [constructor|].
  rewrite db_keys_cons in Hs. apply StronglySorted_inv in Hs as [Hs Hall].
  cbn [db_seek]. unfold String.ltb.
  destruct (String.compare k p) eqn:Hc; [|by apply IH|].
  - constructor; [cbn; congruence|].
    apply Forall_forall. intros [k2 v2] Hin. cbn. intros Hlt.
    rewrite Forall_forall in Hall.
    assert (Hk : key_lt k k2).
    { apply Hall. apply list_elem_of_fmap. by exists (k2, v2). }
    pose proof (key_lt_trans _ _ _ Hk Hlt) as Hkp. unfold key_lt in Hkp. congruence.
  - constructor; [cbn; congruence|].
    apply Forall_forall. intros [k2 v2] Hin. cbn. intros Hlt.
    rewrite Forall_forall in Hall.
    assert (Hk : key_lt k k2).
    { apply Hall. apply list_elem_of_fmap. by exists (k2, v2). }
    pose proof (key_lt_trans _ _ _ Hk Hlt) as Hkp. unfold key_lt in Hkp. congruence.
Qed.

Lemma seek_filter {V : Type} (p : string) (db : list (string * V)) :
  List.filter (fun e => String.prefix p (fst e)) (db_seek p db) =
  List.filter (fun e => String.prefix p (fst e)) db.
Proof.
  induction db as [|[k v] rest IH]; [done|].
  cbn [db_seek]. unfold String.ltb.
  destruct (String.compare k p) eqn:Hc; [done| |done].
  cbn [List.filter fst].
  destruct (String.prefix p k) eqn:Hp; [|done].
  by apply prefix_not_below in Hp.
Qed.

Lemma seek_sorted {V : Type} (p : string) (db : list (string * V)) :
  db_sorted db -> db_sorted (db_seek p db).
Proof.
  unfold db_sorted. induction db as [|[k v] rest IH]; intros Hs; [done|].
  cbn [db_seek]. destruct (String.ltb k p); [|done].
  rewrite db_keys_cons in Hs. apply StronglySorted_inv in Hs as [Hs _]. auto.
Qed.

Lemma seek_incl {V : Type} (p : string) (db : list (string * V)) (e : string * V) :
  e ∈ db_seek p db -> e ∈ db.
Proof.
  induction db as [|[k v] rest IH]; [done|].
  cbn [db_seek]. destruct (String.ltb k p); [|done].
  intros He. right. auto.
Qed.

(** Past the first key without the prefix, no key carries it. *)
Lemma filter_prefix_nil {V : Type} (p k : string) (rest : list (string * V)) :
  String.compare k p <> Lt -> String.prefix p k = false ->
  Forall (key_lt k) (db_keys rest) ->
  List.filter (fun e => String.prefix p (fst e)) rest = [].
Proof.
  intros Hge Hnp Hall. induction rest as [|[k2 v2] rest IH]; [done|].
  rewrite db_keys_cons in Hall. apply Forall_cons in Hall as [Hk Hall].
  cbn [List.filter fst]. rewrite (prefix_lost p k k2) by done. auto.
Qed.

Section Backlog.
Context `{Codec}.

Lemma omap_task_entry (l : list URLTask) :
  omap (fun e : string * Bytes => unmarshalTask (snd e)) (task_entry <$> l) =
  jsonTask <$> l.
Proof.
  induction l as [|t l IH]; [done|].
  cbn. rewrite unmarshal_marshalTask. by f_equal.
Qed.

Lemma elem_backlog_tasks (s : BadgerStorage) (t : URLTask) :
  t ∈ backlog_tasks s <->
  exists e : string * Bytes,
    e ∈ urlDB s /\ in_backlog e = true /\ unmarshalTask (snd e) = Some t.
Proof.
  unfold backlog_tasks, backlog. rewrite list_elem_of_omap. split.
  - intros (e & He & Hd). apply list_elem_of_In, filter_In in He as [He Hb].
    exists e. split; [by apply list_elem_of_In|done].
  - intros (e & He & Hb & Hd). exists e. split; [|done].
    apply list_elem_of_In, filter_In. split; [by apply list_elem_of_In|done].
Qed.

Lemma entry_exact_wf (e : string * Bytes) : entry_exact e -> entry_wf e.
Proof. intros He Hp. destruct (He Hp) as (t & -> & _). by exists t. Qed.

Lemma storage_exact_wf (s : BadgerStorage) : storage_exact s -> storage_wf s.
Proof.
  intros [Hs Hall]. split; [done|].
  eapply Forall_impl; [exact Hall|]. apply entry_exact_wf.
Qed.

(** Every entry of a well-formed backlog decodes. *)
Lemma wf_backlog_length (db : list (string * Bytes)) :
  Forall entry_wf db ->
  length (omap (fun e => unmarshalTask (snd e)) (List.filter in_backlog db)) =
  length (List.filter in_backlog db).
Proof.
  induction db as [|e rest IH]; intros Hwf; [done|].
  apply Forall_cons in Hwf as [He Hwf].
  cbn [List.filter].
  destruct (in_backlog e) eqn:Hp; [|by apply IH].
  destruct (He Hp) as (t & ->).
  cbn. rewrite unmarshal_marshalTask. cbn. f_equal. by apply IH.
Qed.

Lemma backlog_tasks_length (s : BadgerStorage) :
  storage_wf s -> length (backlog_tasks s) = length (backlog s).
Proof. intros [_ Hwf]. by apply wf_backlog_length. Qed.

Lemma exact_filter_entries (db : list (string * Bytes)) :
  Forall entry_exact db ->
  List.filter in_backlog db =
  task_entry <$> omap (fun e => unmarshalTask (snd e)) (List.filter in_backlog db).
Proof.
  induction db as [|e rest IH]; intros Hwf; [done|].
  apply Forall_cons in Hwf as [He Hwf].
  cbn [List.filter].
  destruct (in_backlog e) eqn:Hp; [|by apply IH].
  destruct (He Hp) as (t & -> & Hex).
  cbn. rewrite unmarshal_marshalTask. cbn. rewrite Hex. f_equal. by apply IH.
Qed.

Lemma backlog_entries (s : BadgerStorage) :
  storage_exact s -> backlog s = task_entry <$> backlog_tasks s.
Proof. intros [_ Hwf]. by apply exact_filter_entries. Qed.

Lemma scan_spec (limit : Z) (entries : list (string * Bytes)) :
  forall (count : Z) (acc : list URLTask),
    db_sorted entries ->
    Forall (fun e => String.compare (fst e) URLPrefix <> Lt) entries ->
    Forall entry_wf entries ->
    Badger.scanURLs entries count limit acc =
    (acc ++ take (Z.to_nat (limit - count))
               (omap (fun e => unmarshalTask (snd e)) (List.filter in_backlog entries)),
     true).
Proof.
  induction entries as [|[k v] rest IH]; intros count acc Hs Hge Hwf.
  - cbn. by rewrite take_nil, app_nil_r.
  - unfold db_sorted in Hs. rewrite db_keys_cons in Hs.
    apply StronglySorted_inv in Hs as [Hs Hall].
    apply Forall_cons in Hge as [Hk Hge]. apply Forall_cons in Hwf as [He Hwf].
    cbn [Badger.scanURLs List.filter]. cbn [fst] in Hk.
    destruct (in_backlog (k, v)) eqn:Hp.
    + destruct (He Hp) as (t & Ht). unfold in_backlog in Hp. cbn [fst] in Hp.
      rewrite Hp. cbn [andb].
      injection Ht as Hkt Hv. subst v.
      cbn [omap list_omap snd]. rewrite unmarshal_marshalTask.
      destruct (Z.ltb_spec count limit) as [Hlt|Hnl].
      * rewrite IH by done. rewrite <- app_assoc. cbn [app]. do 2 f_equal.
        replace (Z.to_nat (limit - count)) with (S (Z.to_nat (limit - (count + 1))))
          by lia.
        done.
      * replace (Z.to_nat (limit - count)) with 0%nat by lia.
        by rewrite take_0, app_nil_r.
    + unfold in_backlog in Hp. cbn [fst] in Hp. rewrite Hp. cbn [andb].
      change (List.filter in_backlog rest)
        with (List.filter (fun e : string * Bytes => String.prefix URLPrefix (fst e)) rest).
      rewrite (filter_prefix_nil URLPrefix k rest) by done.
      cbn. by rewrite take_nil, app_nil_r.
Qed.

(** On any database, the scan hands out decodings of backlog entries
    only. *)
Lemma scanURLs_elem (limit : Z) (entries : list (string * Bytes)) :
  forall (count : Z) (acc : list URLTask) (t : URLTask),
    t ∈ fst (Badger.scanURLs entries count limit acc) ->
    t ∈ acc \/
    exists e : string * Bytes,
      e ∈ entries /\ in_backlog e = true /\ unmarshalTask (snd e) = Some t.
Proof.
  induction entries as [|[k v] rest IH]; intros count acc t; cbn [Badger.scanURLs].
  - cbn. tauto.
  - destruct (String.prefix URLPrefix k) eqn:Hp; cbn [andb]; [|cbn; tauto].
    destruct (count <? limit); [|cbn; tauto].
    destruct (unmarshalTask v) as [t0|] eqn:Hd; [|cbn; tauto].
    intros Ht. apply IH in Ht as [Ht|(e & He & Hb & Hde)].
    + apply elem_of_app in Ht as [Ht|Ht]; [by left|].
      apply list_elem_of_singleton in Ht as ->. right.
      exists (k, v). split; [by left|]. by split.
    + right. exists e. split; [by right|]. by split.
Qed.

Lemma delete_tasks_filter (tasks : list URLTask) (db : list (string * Bytes)) :
  fold_left (fun acc t => db_delete (URLPrefix ++ URL t)%string acc) tasks db =
  List.filter (fun e => negb (bool_decide (fst e ∈ task_key <$> tasks))) db.
Proof.
  rewrite <- delete_batch_filter. revert db.
  induction tasks as [|t tasks IH]; intros db; [done|]. cbn. apply IH.
Qed.

Lemma GetURLs_tasks_elem (s : BadgerStorage) (limit : Z) (t : URLTask) :
  t ∈ fst (fst (Badger.GetURLs s limit)) -> t ∈ backlog_tasks s.
Proof.
  unfold Badger.GetURLs.
  pose proof (scanURLs_elem limit (db_seek URLPrefix (urlDB s)) 0 [] t) as Hscan.
  destruct (Badger.scanURLs (db_seek URLPrefix (urlDB s)) 0 limit []) as [tasks ok].
  cbn [fst] in Hscan.
  intros Ht.
  assert (Ht' : t ∈ tasks)
    by (by destruct (ok && (0 <? Z.of_nat (length tasks)))).
  destruct (Hscan Ht') as [Hnil|(e & He & Hb & Hd)]; [by apply elem_of_nil in Hnil|].
  apply elem_backlog_tasks. exists e. split; [by apply (seek_incl URLPrefix)|done].
Qed.

Lemma GetURLs_urlDB_elem (s : BadgerStorage) (limit : Z) (e : string * Bytes) :
  e ∈ urlDB (snd (Badger.GetURLs s limit)) -> e ∈ urlDB s.
Proof.
  unfold Badger.GetURLs.
  destruct (Badger.scanURLs (db_seek URLPrefix (urlDB s)) 0 limit []) as [tasks ok].
  destruct (ok && (0 <? Z.of_nat (length tasks))); cbn [snd]; [|done].
  cbn [Badger.deleteURLsBatch urlDB]. rewrite delete_tasks_filter.
  intros He. apply list_elem_of_In, filter_In in He as [He _].
  by apply list_elem_of_In.
Qed.

Lemma GetURLs_backlog_elem (s : BadgerStorage) (limit : Z) (t : URLTask) :
  t ∈ backlog_tasks (snd (Badger.GetURLs s limit)) -> t ∈ backlog_tasks s.
Proof.
  rewrite !elem_backlog_tasks. intros (e & He & Hb & Hd).
  exists e. split; [by apply (GetURLs_urlDB_elem s limit)|done].
Qed.

Lemma filter_comm {A : Type} (f g : A -> bool) (l : list A) :
  List.filter f (List.filter g l) = List.filter g (List.filter f l).
Proof.
  induction l as [|x l IH]; [done|]. cbn.
  destruct (f x) eqn:Hf, (g x) eqn:Hg; cbn; rewrite ?Hf, ?Hg, IH; done.
Qed.

(** What [GetURLs] computes on a well-formed store: the batch delete
    goes by the keys rebuilt from the decoded tasks. *)
Lemma GetURLs_spec (s : BadgerStorage) (limit : Z) :
  storage_wf s ->
  exists s' : BadgerStorage,
    Badger.GetURLs s limit = (take (Z.to_nat limit) (backlog_tasks s), true, s') /\
    urlDB s' =
      List.filter (fun e => negb (bool_decide
                      (fst e ∈ task_key <$> take (Z.to_nat limit) (backlog_tasks s))))
                  (urlDB s) /\
    resultsDB s' = resultsDB s /\ metrics s' = metrics s.
Proof.
  intros Hwf. pose proof Hwf as [Hs Hall].
  unfold Badger.GetURLs.
  rewrite (scan_spec limit (db_seek URLPrefix (urlDB s)) 0 []);
    [|by apply seek_sorted|by apply seek_above|].
  2:{ apply Forall_forall. intros e He. rewrite Forall_forall in Hall.
      by apply Hall, (seek_incl URLPrefix). }
  cbn [app]. rewrite Z.sub_0_r.
  change (List.filter in_backlog (db_seek URLPrefix (urlDB s)))
    with (List.filter (fun e : string * Bytes => String.prefix URLPrefix (fst e))
                      (db_seek URLPrefix (urlDB s))).
  rewrite seek_filter.
  change (List.filter (fun e : string * Bytes => String.prefix URLPrefix (fst e)) (urlDB s))
    with (backlog s).
  fold (backlog_tasks s).
  set (tasks := take (Z.to_nat limit) (backlog_tasks s)).
  exists (Badger.deleteURLsBatch s tasks). split; [|split; [|done]].
  - cbn [andb]. destruct (Z.ltb_spec 0 (Z.of_nat (length tasks))) as [|Hz]; [done|].
    assert (tasks = []) as -> by (destruct tasks; [done|simpl in Hz; lia]).
    do 2 f_equal. destruct s. reflexivity.
  - cbn. by rewrite delete_tasks_filter.
Qed.

End Backlog.

Lemma filter_all {A : Type} (f : A -> bool) (l : list A) :
  (forall x : A, In x l -> f x = true) -> List.filter f l = l.
Proof.
  induction l as [|x l IH]; intros Hf; [done|]. cbn.
  rewrite (Hf x) by (by left). f_equal. apply IH. intros y Hy. apply Hf. by right.
Qed.

Lemma db_set_elem_inv {V : Type} (k : string) (v : V) (db : list (string * V))
  (e : string * V) :
  e ∈ db_set k v db -> e = (k, v) \/ e ∈ db.
Proof.
  induction db as [|[k' v'] rest IH]; cbn [db_set].
  - rewrite list_elem_of_singleton. auto.
  - destruct (String.compare k k'); rewrite !elem_of_cons; [tauto|tauto|].
    intros [->|He]; [tauto|]. destruct (IH He); tauto.
Qed.

Section StoreInvariant.
Context `{Codec}.

Lemma storage_wf_New : storage_wf Badger.New.
Proof. split; constructor. Qed.

Lemma storage_exact_New : storage_exact Badger.New.
Proof. split; constructor. Qed.

Lemma entry_wf_task (t : URLTask) : entry_wf (task_entry t).
Proof. intros _. by exists t. Qed.

Lemma StoreURL_wf (s : BadgerStorage) (t : URLTask) (ok : bool) :
  storage_wf s -> storage_wf (fst (Badger.StoreURL s t ok)).
Proof.
  intros [Hs Hall]. unfold Badger.StoreURL. destruct ok; [|done]. split; cbn.
  - by apply db_set_sorted.
  - apply Forall_forall. intros e He.
    apply db_set_elem_inv in He as [->|He]; [apply (entry_wf_task t)|].
    rewrite Forall_forall in Hall. by apply Hall.
Qed.

Lemma StoreURL_exact (s : BadgerStorage) (t : URLTask) (ok : bool) :
  json_exact t -> storage_exact s -> storage_exact (fst (Badger.StoreURL s t ok)).
Proof.
  intros Ht [Hs Hall]. unfold Badger.StoreURL. destruct ok; [|done]. split; cbn.
  - by apply db_set_sorted.
  - apply Forall_forall. intros e He.
    apply db_set_elem_inv in He as [->|He]; [intros _; by exists t|].
    rewrite Forall_forall in Hall. by apply Hall.
Qed.

Lemma StoreResult_urlDB (s : BadgerStorage) (r : CrawlResult.t) (ok : bool) :
  urlDB (fst (Badger.StoreResult s r ok)) = urlDB s.
Proof. unfold Badger.StoreResult. by destruct ok. Qed.

Lemma StoreResult_wf (s : BadgerStorage) (r : CrawlResult.t) (ok : bool) :
  storage_wf s -> storage_wf (fst (Badger.StoreResult s r ok)).
Proof. unfold storage_wf. by rewrite StoreResult_urlDB. Qed.

Lemma saveMetrics_wf (s : BadgerStorage) :
  storage_wf s -> storage_wf (Badger.saveMetrics s).
Proof.
  intros [Hs Hall]. split; cbn.
  - by apply db_set_sorted.
  - apply Forall_forall. intros e He.
    apply db_set_elem_inv in He as [->|He]; [by intros Hp|].
    rewrite Forall_forall in Hall. by apply Hall.
Qed.

Lemma backlog_task_keys (s : BadgerStorage) :
  storage_exact s -> task_key <$> backlog_tasks s = db_keys (backlog s).
Proof.
  intros Hwf. unfold db_keys. rewrite (backlog_entries s Hwf).
  by rewrite <- list_fmap_compose.
Qed.

Lemma backlog_tasks_exact (s : BadgerStorage) :
  storage_exact s -> Forall json_exact (backlog_tasks s).
Proof.
  intros [_ Hall]. apply Forall_forall. intros t Ht.
  apply elem_backlog_tasks in Ht as (e & He & Hb & Hd).
  rewrite Forall_forall in Hall.
  destruct (Hall e He Hb) as (t0 & -> & Hex).
  cbn in Hd. rewrite unmarshal_marshalTask, Hex in Hd. by injection Hd as <-.
Qed.

Lemma jsonTask_fmap_exact (l : list URLTask) :
  Forall json_exact l -> jsonTask <$> l = l.
Proof.
  induction 1 as [|t l Ht _ IH]; [done|]. cbn. by rewrite Ht, IH.
Qed.

(** The store that [GetURLs] leaves behind when every stored URL is
    well-formed UTF-8: the rebuilt keys are the keys of the entries that
    were read. *)
Lemma GetURLs_backlog (s : BadgerStorage) (limit : Z) :
  storage_exact s ->
  exists s' : BadgerStorage,
    Badger.GetURLs s limit = (take (Z.to_nat limit) (backlog_tasks s), true, s') /\
    urlDB s' =
      List.filter (fun e => negb (bool_decide
                      (fst e ∈ db_keys (take (Z.to_nat limit) (backlog s)))))
                  (urlDB s) /\
    storage_exact s' /\
    backlog s' = drop (Z.to_nat limit) (backlog s) /\
    backlog_tasks s' = drop (Z.to_nat limit) (backlog_tasks s).
Proof.
  intros Hex. pose proof Hex as [Hs Hall].
  destruct (GetURLs_spec s limit (storage_exact_wf s Hex)) as (s' & Hget & Hdb & _).
  set (n := Z.to_nat limit) in *.
  assert (Hkeys : task_key <$> take n (backlog_tasks s) = db_keys (take n (backlog s))).
  { unfold db_keys. rewrite (backlog_entries s Hex).
    rewrite <- fmap_take, <- list_fmap_compose. done. }
  rewrite Hkeys in Hdb.
  assert (Hbs : db_sorted (backlog s)) by (by apply filter_sorted).
  assert (Hb' : backlog s' = drop n (backlog s)).
  { unfold backlog at 1. rewrite Hdb, filter_comm.
    apply filter_take_drop. by apply sorted_NoDup. }
  assert (Hex' : storage_exact s').
  { split; rewrite Hdb; [by apply filter_sorted|].
    apply Forall_forall. intros e He. rewrite Forall_forall in Hall.
    apply Hall. apply list_elem_of_In, filter_In in He as [He _].
    by apply list_elem_of_In. }
  exists s'. repeat split; try done; try apply Hex'.
  unfold backlog_tasks at 1. rewrite Hb', (backlog_entries s Hex).
  rewrite <- fmap_drop, omap_task_entry.
  apply jsonTask_fmap_exact.
  eapply Forall_impl; [apply (Forall_drop _ n), (backlog_tasks_exact s Hex)|done].
Qed.

End StoreInvariant.

Section UndecodableURL.
Context `{Codec}.

Lemma c7_backlog :
  backlog (fst (Badger.StoreURL Badger.New c7_task true)) = [task_entry c7_task].
Proof. reflexivity. Qed.

Lemma c7_key_changed : task_key (jsonTask c7_task) <> task_key c7_task.
Proof. intros Heq. vm_compute in Heq. discriminate Heq. Qed.

(** C7. A task whose URL is not well-formed UTF-8 is spilled and then
    fetched with [GetURLs]: the call succeeds and returns the task with
    the URL that [encoding/json] made of it, [deleteURLsBatch] builds
    its key from that URL and so deletes nothing, and the next
    [GetURLs] returns the same entry again. *)
Theorem C7_undecodable_URL_is_returned_again :
  let s := fst (Badger.StoreURL Badger.New c7_task true) in
  let r := Badger.GetURLs s 1 in
  backlog s = [task_entry c7_task] /\
  fst r = ([jsonTask c7_task], true) /\
  URL (jsonTask c7_task) = ("https://a.example/?q=" ++ replacementChar)%string /\
  URL (jsonTask c7_task) <> URL c7_task /\
  urlDB (snd r) = urlDB s /\
  backlog (snd r) = [task_entry c7_task] /\
  fst (Badger.GetURLs (snd r) 1) = ([jsonTask c7_task], true).
Proof.
  intros s r.
  assert (Hwf : storage_wf s) by apply StoreURL_wf, storage_wf_New.
  assert (Hbt : backlog_tasks s = [jsonTask c7_task]).
  { unfold backlog_tasks. unfold s. rewrite c7_backlog. cbn.
    by rewrite unmarshal_marshalTask. }
  assert (Hkeep : forall s0 : BadgerStorage,
             urlDB s0 =
               List.filter (fun e => negb (bool_decide
                               (fst e ∈ task_key <$> take (Z.to_nat 1) (backlog_tasks s))))
                           (urlDB s) ->
             urlDB s0 = urlDB s).
  { intros s0 ->. rewrite Hbt. cbn [Z.to_nat Pos.to_nat Pos.iter_op take fmap list_fmap].
    change (urlDB s) with [task_entry c7_task]. cbn [List.filter fst task_entry].
    rewrite bool_decide_eq_false_2; [done|].
    intros Hin. apply list_elem_of_singleton in Hin. by apply c7_key_changed. }
  destruct (GetURLs_spec s 1 Hwf) as (s' & Hget & Hdb & _).
  apply Hkeep in Hdb.
  assert (Hr : r = ([jsonTask c7_task], true, s')).
  { unfold r. rewrite Hget, Hbt. reflexivity. }
  assert (Hwf' : storage_wf s') by (unfold storage_wf; by rewrite Hdb).
  assert (Hbt' : backlog_tasks s' = [jsonTask c7_task]).
  { unfold backlog_tasks, backlog. rewrite Hdb. exact Hbt. }
  destruct (GetURLs_spec s' 1 Hwf') as (s'' & Hget' & _).
  rewrite Hr. cbn [fst snd].
  split; [reflexivity|]. split; [reflexivity|]. split; [vm_compute; reflexivity|].
  split; [intros Heq; vm_compute in Heq; discriminate Heq|].
  split; [exact Hdb|]. split; [unfold backlog; rewrite Hdb; reflexivity|].
  rewrite Hget', Hbt'. reflexivity.
Qed.

End UndecodableURL.

(** ** The store's cumulative counters *)

Lemma wrap64_range (z : Z) : int64_min <= wrap64 z <= int64_max.
Proof.
  unfold wrap64, int64_min, int64_max.
  pose proof (Z.mod_pos_bound (z + 2 ^ 63) (2 ^ 64) ltac:(lia)). lia.
Qed.

Lemma wrap64_add_l (a b : Z) : wrap64 (wrap64 a + b) = wrap64 (a + b).
Proof.
  unfold wrap64.
  replace ((a + 2 ^ 63) mod 2 ^ 64 - 2 ^ 63 + b + 2 ^ 63)
    with ((a + 2 ^ 63) mod 2 ^ 64 + b) by lia.
  rewrite Z.add_mod_idemp_l by lia. do 2 f_equal. lia.
Qed.

Lemma persisted_cons (r : CrawlResult.t) (ok : bool) (rs : list (CrawlResult.t * bool)) :
  persisted ((r, ok) :: rs) = if ok then r :: persisted rs else persisted rs.
Proof. unfold persisted. cbn. by destruct ok. Qed.

Lemma bump_spec (n : nat) (c : Z) :
  int64_min <= c <= int64_max -> Badger.bump n c = wrap64 (c + Z.of_nat n).
Proof.
  intros Hc. unfold Badger.bump, add64.
  destruct (Nat.ltb_spec 0 n); [done|].
  replace (Z.of_nat n) with 0 by lia. rewrite Z.add_0_r. by rewrite wrap64_id.
Qed.

Section Counters.
Context `{Codec}.

(** A counter that [StoreResult] bumps by [f r] ends at its start value
    plus the sum of [f] over the results that were written. *)
Lemma storeAll_counter (f : CrawlResult.t -> nat) (get : CrawlMetrics -> Z) :
  (forall (s : BadgerStorage) (r : CrawlResult.t),
     get (metrics (fst (Badger.StoreResult s r true))) =
     Badger.bump (f r) (get (metrics s))) ->
  forall (rs : list (CrawlResult.t * bool)) (s : BadgerStorage),
    int64_min <= get (metrics s) <= int64_max ->
    get (metrics (storeAll s rs)) =
    wrap64 (get (metrics s) + sum_over (fun r => Z.of_nat (f r)) (persisted rs)).
Proof.
  intros Hstep. induction rs as [|[r ok] rs IH]; intros s Hc.
  - cbn. rewrite Z.add_0_r. by rewrite wrap64_id.
  - unfold storeAll. cbn [fold_left fst snd]. fold (storeAll (fst (Badger.StoreResult s r ok)) rs).
    rewrite persisted_cons. destruct ok.
    + rewrite IH; rewrite Hstep, bump_spec by done; [|apply wrap64_range].
      rewrite wrap64_add_l. f_equal.
      change (sum_over (fun r0 => Z.of_nat (f r0)) (r :: persisted rs))
        with (Z.of_nat (f r) + sum_over (fun r0 => Z.of_nat (f r0)) (persisted rs)).
      lia.
    + by apply IH.
Qed.

Lemma store_counts_emails (rs : list (CrawlResult.t * bool)) :
  EmailsFound (metrics (storeAll Badger.New rs)) =
  wrap64 (sum_over (fun r => Z.of_nat (length (CrawlResult.Emails r))) (persisted rs)).
Proof.
  by rewrite (storeAll_counter (fun r => length (CrawlResult.Emails r)) EmailsFound).
Qed.

Lemma store_counts_dead_links (rs : list (CrawlResult.t * bool)) :
  DeadLinksFound (metrics (storeAll Badger.New rs)) =
  wrap64 (sum_over (fun r => Z.of_nat (length (CrawlResult.DeadLinks r))) (persisted rs)).
Proof.
  by rewrite (storeAll_counter (fun r => length (CrawlResult.DeadLinks r)) DeadLinksFound).
Qed.

Lemma store_counts_dead_domains (rs : list (CrawlResult.t * bool)) :
  DeadDomainsFound (metrics (storeAll Badger.New rs)) =
  wrap64 (sum_over (fun r => Z.of_nat (length (CrawlResult.DeadDomains r)))
                   (persisted rs)).
Proof.
  by rewrite (storeAll_counter (fun r => length (CrawlResult.DeadDomains r))
                DeadDomainsFound).
Qed.

(** What the keyword counter holds: the number of distinct keywords
    found, summed over the written results. *)
Lemma store_counts_keyword_keys (rs : list (CrawlResult.t * bool)) :
  KeywordsFound (metrics (storeAll Badger.New rs)) =
  wrap64 (sum_over (fun r => Z.of_nat (size (CrawlResult.Keywords r))) (persisted rs)).
Proof.
  by rewrite (storeAll_counter (fun r => size (CrawlResult.Keywords r)) KeywordsFound).
Qed.

End Counters.

(** C1. At the single persisted result whose keyword map is
    [{"go": 3}], the sum of the per-keyword counts is 3, while
    [StoreResult] of either store leaves [keywords_found] at 1: it adds
    the number of keys of the map.  The worker, for the same result,
    adds 3 to the collector's counter of the same name. *)
Theorem C1_keywords_found_counts_keys :
  sum_over keyword_total (persisted [(c1_result, true)]) = 3 /\
  KeywordsFound
    (@metrics plainCodec (@storeAll plainCodec (@Badger.New plainCodec)
                            [(c1_result, true)])) = 1 /\
  KeywordsFound
    (@fileMetrics plainCodec (@fileStoreAll plainCodec (@FastFile.New plainCodec)
                                [(c1_result, true)])) = 1 /\
  KeywordsFound
    (Collector.UpdateKeywordsFound zeroMetrics
       (App.keywordCount (CrawlResult.Keywords c1_result))) = 3.
Proof. vm_compute. repeat split; reflexivity. Qed.

(** ** Robots policy *)

Section RobotsPolicy.
Context `{StdLib} `{RobotsTxt}.

Lemma fromResponse_None (r : RobotsChecker) (domain : string) (resp : HTTPResponse) :
  respStatus resp <> 200 \/ FromResponse resp = None ->
  fst (Robots.fromResponse r domain resp) = None.
Proof.
  intros Hbad. unfold Robots.fromResponse.
  destruct (Z.eqb_spec (respStatus resp) 200) as [He|Hne]; cbn [negb]; [|done].
  destruct Hbad as [|Hp]; [done|]. by rewrite Hp.
Qed.

(** C10. When [url.Parse] rejects the string, [CanFetch] answers
    [false] at once: the cache is not read and no [robots.txt] is
    requested.  Every other path on which no rules are obtained answers
    [true]: whenever [getRobots] comes back with nil, which is what it
    does on a cached negative entry and, without a cache entry, when
    both requests fail, when the response is not a 200, and when the
    body does not parse. *)
Theorem C10_unparsable_url_is_refused (E : Oracle) (r : RobotsChecker)
  (userAgent urlStr : string) :
  (url_Parse urlStr = None ->
   Robots.CanFetch E r userAgent urlStr = (false, r)) /\
  (forall u : url_URL,
     url_Parse urlStr = Some u ->
     fst (Robots.getRobots E r (Host u)) = None ->
     fst (Robots.CanFetch E r userAgent urlStr) = true) /\
  (forall domain : string,
     cache r !! domain = Some None \/
     (cache r !! domain = None /\
      match robotsGet E ("https://" ++ domain ++ "/robots.txt")%string with
      | Some resp => respStatus resp <> 200 \/ FromResponse resp = None
      | None =>
          match robotsGet E ("http://" ++ domain ++ "/robots.txt")%string with
          | Some resp => respStatus resp <> 200 \/ FromResponse resp = None
          | None => True
          end
      end) ->
     fst (Robots.getRobots E r domain) = None).
Proof.
  split; [|split].
  - intros Hp. unfold Robots.CanFetch. by rewrite Hp.
  - intros u Hp Hr. unfold Robots.CanFetch. rewrite Hp.
    destruct (Robots.getRobots E r (Host u)) as [[robots|] r']; cbn in *; done.
  - intros domain [Hneg|[Hnone Hfail]]; unfold Robots.getRobots.
    + by rewrite Hneg.
    + rewrite Hnone.
      destruct (robotsGet E ("https://" ++ domain ++ "/robots.txt")%string) as [resp|].
      * by apply fromResponse_None.
      * destruct (robotsGet E ("http://" ++ domain ++ "/robots.txt")%string) as [resp|].
        -- by apply fromResponse_None.
        -- done.
Qed.

End RobotsPolicy.

Lemma C10_unparsable_url_is_refused_witness :
  @url_Parse simpleLib ":no-scheme" = None /\
  @Robots.CanFetch simpleLib prefixRules quietOracle (@Robots.New prefixRules)
    UserAgent ":no-scheme" = (false, @Robots.New prefixRules) /\
  fst (@Robots.CanFetch simpleLib prefixRules quietOracle (@Robots.New prefixRules)
         UserAgent "https://a.example/page") = true.
Proof.
  destruct (@C10_unparsable_url_is_refused simpleLib prefixRules quietOracle
              (@Robots.New prefixRules) UserAgent ":no-scheme") as (Hbad & _ & _).
  destruct (@C10_unparsable_url_is_refused simpleLib prefixRules quietOracle
              (@Robots.New prefixRules) UserAgent "https://a.example/page")
    as (_ & Hnil & Hget).
  split; [reflexivity|]. split; [apply Hbad; reflexivity|].
  apply (Hnil (mkURL "https" "a.example" "/page")); [reflexivity|].
  apply Hget. right. split; [reflexivity|]. exact I.
Defined.

(** ** Dead-link sampling *)

Lemma swap_Permutation (l : list string) (i j : nat) : Extractor.swap l i j ≡ₚ l.
Proof.
  unfold Extractor.swap.
  destruct (l !! i) as [a|] eqn:Ha; [|done].
  destruct (l !! j) as [b|] eqn:Hb; [|done].
  by apply insert_swap_Permutation.
Qed.

Lemma shuffle_Permutation (E : Oracle) (links : list string) :
  Extractor.shuffle E links ≡ₚ links.
Proof.
  unfold Extractor.shuffle.
  generalize (rev (seq 1 (length links - 1))). intros idx.
  assert (Hgen : forall l : list string,
             fold_left (fun l i => Extractor.swap l i (randIntn E i mod (i + 1))%nat)
                       idx l ≡ₚ l); [|apply Hgen].
  induction idx as [|i idx IH]; intros l; cbn [fold_left]; [done|].
  etrans; [apply IH|]. apply swap_Permutation.
Qed.

(** One fifth of the links, rounded down, but at least one when there
    is any. *)
Lemma numToSample_fifth (n : nat) :
  Extractor.numToSample n (2 # 10) =
  if (n =? 0)%nat then 0 else Z.max 1 (Z.of_nat n / 5).
Proof.
  unfold Extractor.numToSample.
  assert (Hk : Qfloor (inject_Z (Z.of_nat n) * (2 # 10)) = Z.of_nat n / 5).
  { unfold Qfloor, Qmult, inject_Z. cbn [Qnum Qden Pos.mul]. lia. }
  rewrite Hk.
  destruct (Nat.eqb_spec n 0) as [->|Hn]; [done|].
  destruct (Z.eqb_spec (Z.of_nat n / 5) 0) as [Hz|Hz];
    destruct (Nat.ltb_spec 0 n); cbn [andb]; lia.
Qed.

Lemma queueLinks_spec (links : list string) (sourceURL : string) :
  forall e : ContentExtractor,
    let e' := Extractor.queueLinksForChecking e links sourceURL in
    linkQueue e' =
      linkQueue e ++ take (linkQueueCap - length (linkQueue e))
                          ((fun l => mkLinkCheck l sourceURL) <$> links) /\
    probes e' = probes e /\
    deadLinkCache e' = deadLinkCache e /\
    deadDomainCache e' = deadDomainCache e.
Proof.
  induction links as [|link rest IH]; intros e; cbn [Extractor.queueLinksForChecking].
  - cbn. by rewrite take_nil, app_nil_r.
  - cbn zeta. destruct (Nat.ltb_spec (length (linkQueue e)) linkQueueCap) as [Hroom|Hfull].
    + destruct (IH (Extractor.set_linkQueue e
                      (linkQueue e ++ [mkLinkCheck link sourceURL])))
        as (Hq & Hp & Hc1 & Hc2).
      rewrite Hq, Hp, Hc1, Hc2. cbn [linkQueue probes deadLinkCache deadDomainCache
                                      Extractor.set_linkQueue].
      repeat split. rewrite length_app. cbn [length fmap list_fmap].
      rewrite <- app_assoc. cbn [app]. f_equal.
      replace (linkQueueCap - length (linkQueue e))%nat
        with (S (linkQueueCap - (length (linkQueue e) + 1)))%nat by lia.
      done.
    + destruct (IH e) as (Hq & Hp & Hc1 & Hc2).
      rewrite Hq, Hp, Hc1, Hc2. repeat split.
      replace (linkQueueCap - length (linkQueue e))%nat with 0%nat by lia.
      by rewrite !take_0.
Qed.

(** C8. [CheckDeadLinks] sends no probe and touches neither cache: it
    returns two empty lists, and all it leaves behind is the channel,
    extended by requests for a sample of the links, as many of them as
    the channel has room for.  The sample is drawn from the links
    without repetition of positions and has one fifth of their number,
    rounded down, but at least one element whenever there is a link. *)
Theorem C8_check_dead_links_only_enqueues (E : Oracle) (e : ContentExtractor)
  (links : list string) (sourceURL : string) :
  exists (sampled : list string) (e' : ContentExtractor),
    Extractor.CheckDeadLinks E e links sourceURL = ([], [], e') /\
    probes e' = probes e /\
    deadLinkCache e' = deadLinkCache e /\
    deadDomainCache e' = deadDomainCache e /\
    sampled ⊆+ links /\
    Z.of_nat (length sampled) =
      (if (length links =? 0)%nat then 0 else Z.max 1 (Z.of_nat (length links) / 5)) /\
    linkQueue e' =
      linkQueue e ++ take (linkQueueCap - length (linkQueue e))
                          ((fun l => mkLinkCheck l sourceURL) <$> sampled).
Proof.
  set (sampled := Extractor.sampleLinks E links (2 # 10)).
  exists sampled, (Extractor.queueLinksForChecking e sampled sourceURL).
  destruct (queueLinks_spec sampled sourceURL e) as (Hq & Hp & Hc1 & Hc2).
  assert (Hs : sampled = take (Z.to_nat (Extractor.numToSample (length links) (2 # 10)))
                              (Extractor.shuffle E links)) by done.
  repeat split; try done.
  - rewrite Hs. etrans; [apply submseteq_take|].
    apply Permutation_submseteq, shuffle_Permutation.
  - rewrite Hs, length_take, (Permutation_length (shuffle_Permutation E links)).
    rewrite numToSample_fifth.
    destruct (Nat.eqb_spec (length links) 0) as [->|Hn]; [done|]. lia.
Qed.

(** ** The worker *)

Section Worker.
Context `{StdLib} `{Codec} `{RobotsTxt}.

Lemma finish_spec (E : Oracle) (w : World) (r : CrawlResult.t) :
  let w' := App.finish E w r in
  Storage w' =
    fst (Badger.StoreResult (Storage w) (stored_result E r)
           (commitOK E (Badger.resultKey (stored_result E r)))) /\
  URLQueue w' = URLQueue w /\
  BloomFilter w' = BloomFilter w /\
  Robots w' = Robots w /\
  Extractor_ w' = Extractor_ w /\
  gets w' = gets w /\
  Errors (Metrics w') = Errors (Metrics w) /\
  URLsProcessed (Metrics w') = add64 (URLsProcessed (Metrics w)) 1.
Proof. cbn. repeat split. Qed.

Lemma StoreResult_persists (s : BadgerStorage) (r : CrawlResult.t) :
  (Badger.resultKey r, marshalResult r)
    ∈ resultsDB (fst (Badger.StoreResult s r true)).
Proof. cbn. apply db_set_elem. Qed.

(** C4. When the robots check refuses the task's URL, the worker sends
    no GET (its request log is as before), hands the store a result
    whose error is exactly ["blocked by robots.txt"] with status code 0,
    which is in the findings once the write commits, counts the URL as
    processed and leaves the error counter of the metrics collector
    alone; frontier and backlog are untouched. *)
Theorem C4_robots_denial_is_not_fetched (c : CrawlerService) (E : Oracle) (w : World)
  (t : URLTask) (maxDepth : Z) :
  fst (Robots.CanFetch E (Robots w) UserAgent (URL t)) = false ->
  let w' := App.processURL c E w t maxDepth in
  let r := stored_result E
             (CrawlResult.set_Error (CrawlResult.init (URL t) (startTime E))
                                    "blocked by robots.txt") in
  gets w' = gets w /\
  CrawlResult.Error r = "blocked by robots.txt"%string /\
  CrawlResult.StatusCode r = 0 /\
  Storage w' =
    fst (Badger.StoreResult (Storage w) r (commitOK E (Badger.resultKey r))) /\
  (commitOK E (Badger.resultKey r) = true ->
   (Badger.resultKey r, marshalResult r) ∈ resultsDB (Storage w')) /\
  Errors (Metrics w') = Errors (Metrics w) /\
  URLsProcessed (Metrics w') = add64 (URLsProcessed (Metrics w)) 1 /\
  URLQueue w' = URLQueue w /\
  urlDB (Storage w') = urlDB (Storage w).
Proof.
  intros Hdeny w' r. unfold w', App.processURL.
  destruct (Robots.CanFetch E (Robots w) UserAgent (URL t)) as [allowed robots'].
  cbn in Hdeny. subst allowed. cbn [negb].
  repeat split; try done.
  - intros Hok. cbn [App.finish App.set_Robots App.set_Storage App.set_Metrics Storage].
    fold (stored_result E (CrawlResult.set_Error
                             (CrawlResult.init (URL t) (startTime E))
                             "blocked by robots.txt")).
    fold r. rewrite Hok. apply StoreResult_persists.
  - cbn [App.finish App.set_Robots App.set_Storage App.set_Metrics Storage].
    by rewrite StoreResult_urlDB.
Qed.

(** C2 (amended). When the response carries a [Content-Type] that is
    present and names neither [text/html] nor [application/xhtml], the
    worker reads no body and expands no links; it hands the store a
    result with the response's status code and the error
    ["skipped non-HTML content: "] followed by the header value, and
    the outcome takes the common fetch-error path: the collector's error
    counter goes up by one. *)
Theorem C2_non_html_recorded_as_fetch_error (c : CrawlerService) (E : Oracle)
  (w : World) (t : URLTask) (maxDepth : Z) (resp : HTTPResponse) :
  fst (Robots.CanFetch E (Robots w) UserAgent (URL t)) = true ->
  rateWait E = true ->
  httpDo E (URL t) = Responded resp ->
  respContentType resp <> ""%string ->
  App.isHTML (respContentType resp) = false ->
  let w' := App.processURL c E w t maxDepth in
  let r := stored_result E
             (CrawlResult.set_Error
                (CrawlResult.set_StatusCode
                   (CrawlResult.init (URL t) (startTime E)) (respStatus resp))
                ("skipped non-HTML content: " ++ respContentType resp)%string) in
  gets w' = gets w ++ [URL t] /\
  CrawlResult.StatusCode r = respStatus resp /\
  Storage w' =
    fst (Badger.StoreResult (Storage w) r (commitOK E (Badger.resultKey r))) /\
  (commitOK E (Badger.resultKey r) = true ->
   (Badger.resultKey r, marshalResult r) ∈ resultsDB (Storage w')) /\
  Errors (Metrics w') = add64 (Errors (Metrics w)) 1 /\
  URLsProcessed (Metrics w') = add64 (URLsProcessed (Metrics w)) 1 /\
  URLQueue w' = URLQueue w /\
  urlDB (Storage w') = urlDB (Storage w).
Proof.
  intros Hallow Hrate Hdo Hct Hhtml w' r. unfold w', App.processURL.
  destruct (Robots.CanFetch E (Robots w) UserAgent (URL t)) as [allowed robots'].
  cbn in Hallow. subst allowed. rewrite Hrate. cbn [negb].
  unfold App.fetchURL. cbn [gets App.set_Robots]. rewrite Hdo.
  apply String.eqb_neq in Hct. rewrite Hct, Hhtml. cbn [negb andb].
  repeat split; try done.
  - intros Hok.
    cbn [App.finish App.set_Robots App.set_Storage App.set_Metrics App.set_gets Storage].
    fold (stored_result E
            (CrawlResult.set_Error
               (CrawlResult.set_StatusCode
                  (CrawlResult.init (URL t) (startTime E)) (respStatus resp))
               ("skipped non-HTML content: " ++ respContentType resp)%string)).
    fold r. rewrite Hok. apply StoreResult_persists.
  - cbn [App.finish App.set_Robots App.set_Storage App.set_Metrics App.set_gets Storage].
    by rewrite StoreResult_urlDB.
Qed.

End Worker.

Lemma C4_robots_denial_is_not_fetched_witness :
  fst (@Robots.CanFetch simpleLib prefixRules blockingOracle
         (@Robots (plainCodec) prefixRules (@App.NewInfrastructure plainCodec prefixRules plainDecoder [] []))
         UserAgent (URL c4_task)) = false /\
  @gets plainCodec prefixRules
    (@App.processURL simpleLib plainCodec prefixRules emailService blockingOracle
       (@App.NewInfrastructure plainCodec prefixRules plainDecoder [] []) c4_task 5) = [] /\
  Errors (@Metrics plainCodec prefixRules
    (@App.processURL simpleLib plainCodec prefixRules emailService blockingOracle
       (@App.NewInfrastructure plainCodec prefixRules plainDecoder [] []) c4_task 5)) = 0.
Proof.
  assert (Hdeny :
    fst (@Robots.CanFetch simpleLib prefixRules blockingOracle
           (@Robots (plainCodec) prefixRules
              (@App.NewInfrastructure plainCodec prefixRules plainDecoder [] []))
           UserAgent (URL c4_task)) = false) by (vm_compute; reflexivity).
  destruct (@C4_robots_denial_is_not_fetched simpleLib plainCodec prefixRules
              emailService blockingOracle
              (@App.NewInfrastructure plainCodec prefixRules plainDecoder [] []) c4_task 5 Hdeny)
    as (Hgets & _ & _ & _ & _ & Herr & _).
  split; [exact Hdeny|]. split; [exact Hgets|exact Herr].
Defined.

Lemma C2_non_html_recorded_as_fetch_error_witness :
  @App.isHTML simpleLib "image/png" = false /\
  Errors (@Metrics plainCodec prefixRules
    (@App.processURL simpleLib plainCodec prefixRules emailService pngOracle
       (@App.NewInfrastructure plainCodec prefixRules plainDecoder [] []) c2_task 5)) = add64 0 1 /\
  @gets plainCodec prefixRules
    (@App.processURL simpleLib plainCodec prefixRules emailService pngOracle
       (@App.NewInfrastructure plainCodec prefixRules plainDecoder [] []) c2_task 5) = [URL c2_task].
Proof.
  assert (Hhtml : @App.isHTML simpleLib "image/png" = false) by (vm_compute; reflexivity).
  destruct (@C2_non_html_recorded_as_fetch_error simpleLib plainCodec prefixRules
              emailService pngOracle (@App.NewInfrastructure plainCodec prefixRules plainDecoder [] [])
              c2_task 5 (mkResponse 200 "image/png" "PNG" None))
    as (Hgets & _ & _ & _ & Herr & _).
  - vm_compute; reflexivity.
  - reflexivity.
  - reflexivity.
  - intros Hd; discriminate Hd.
  - exact Hhtml.
  - split; [exact Hhtml|]. split; [exact Herr|exact Hgets].
Defined.

(** C2 fails as stated: a [200] response of type [image/png] raises the
    collector's error counter from 0 to 1, and the error stored with the
    result is not the bare string ["skipped non-HTML content"]. *)
Lemma C2_counterexample :
  httpDo pngOracle (URL c2_task) = Responded (mkResponse 200 "image/png" "PNG" None) /\
  @App.isHTML simpleLib "image/png" = false /\
  Errors (@Metrics plainCodec prefixRules
            (@App.NewInfrastructure plainCodec prefixRules plainDecoder [] [])) = 0 /\
  Errors (@Metrics plainCodec prefixRules
    (@App.processURL simpleLib plainCodec prefixRules emailService pngOracle
       (@App.NewInfrastructure plainCodec prefixRules plainDecoder [] []) c2_task 5)) = 1 /\
  snd <$> @resultsDB plainCodec (@Storage plainCodec prefixRules
    (@App.processURL simpleLib plainCodec prefixRules emailService pngOracle
       (@App.NewInfrastructure plainCodec prefixRules plainDecoder [] []) c2_task 5))
    = [StoredResult c2_result] /\
  CrawlResult.StatusCode c2_result = 200 /\
  CrawlResult.Error c2_result = "skipped non-HTML content: image/png"%string /\
  CrawlResult.Error c2_result <> "skipped non-HTML content"%string.
Proof.
  split; [reflexivity|]. split; [vm_compute; reflexivity|].
  split; [reflexivity|]. split; [vm_compute; reflexivity|].
  split; [vm_compute; reflexivity|]. split; [reflexivity|].
  split; [reflexivity|]. intros Hd; discriminate Hd.
Qed.

(** ** URL injection *)

(** The tasks of the frontier after a [Push]: the old ones, and the new
    one when it was taken. *)
Lemma Queue_Push_tasks (q : PriorityURLQueue) (t : URLTask) :
  task <$> qheap (fst (Queue.Push q t)) ≡ₚ
  match snd (Queue.Push q t) with
  | None => t :: (task <$> qheap q)
  | Some _ => task <$> qheap q
  end.
Proof.
  unfold Queue.Push.
  destruct (maxSize q <=? Z.of_nat (urlHeap.Len (qheap q))); cbn; [done|].
  rewrite !tasks_of_keys, heap_Push_keys. done.
Qed.

Lemma Queue_Push_task_elem (q : PriorityURLQueue) (t t' : URLTask) :
  t' ∈ task <$> qheap (fst (Queue.Push q t)) -> t' = t \/ t' ∈ task <$> qheap q.
Proof.
  rewrite Queue_Push_tasks. destruct (snd (Queue.Push q t)); [tauto|].
  rewrite elem_of_cons. tauto.
Qed.

Section Injection.
Context `{StdLib}.

Lemma validate_spec (urls : list string) :
  forall validURLs invalidURLs : list string,
    Dashboard.validate urls validURLs invalidURLs =
    (validURLs ++ List.filter Dashboard.accepts (cleaned_entries urls),
     invalidURLs ++ List.filter (fun u => negb (Dashboard.accepts u))
                                (cleaned_entries urls)).
Proof.
  unfold cleaned_entries.
  induction urls as [|rawURL rest IH]; intros v i; cbn [Dashboard.validate].
  - cbn. by rewrite !app_nil_r.
  - cbn [fmap list_fmap List.filter].
    destruct (String.eqb (TrimSpace rawURL) "") eqn:Hblank; cbn [negb]; [apply IH|].
    cbn [List.filter].
    destruct (Dashboard.accepts (TrimSpace rawURL)) eqn:Hacc; cbn [negb];
      rewrite IH, <- app_assoc; done.
Qed.

Lemma enqueue_tasks (E : Oracle) (validURLs : list string) :
  forall (q : PriorityURLQueue) (addedCount : Z) (errs : list string) (t : URLTask),
    t ∈ task <$> qheap (fst (fst (Dashboard.enqueue E q validURLs addedCount errs))) ->
    t ∈ task <$> qheap q \/
    exists u : string, u ∈ validURLs /\ t = Dashboard.newTask E u.
Proof.
  induction validURLs as [|u rest IH]; intros q n errs t; cbn [Dashboard.enqueue].
  - tauto.
  - pose proof (Queue_Push_task_elem q (Dashboard.newTask E u) t) as Hpush.
    destruct (Queue.Push q (Dashboard.newTask E u)) as [q1 [e|]]; cbn [fst] in *;
      intros Ht; apply IH in Ht as [Ht|(u' & Hu' & ->)].
    + by left.
    + right. exists u'. split; [by right|done].
    + destruct (Hpush Ht) as [->|]; [|by left].
      right. exists u. split; [by left|done].
    + right. exists u'. split; [by right|done].
Qed.

Lemma accepts_spec (u : string) :
  Dashboard.accepts u = true <->
  exists p : url_URL,
    url_Parse u = Some p /\ Scheme p <> ""%string /\ Host p <> ""%string.
Proof.
  unfold Dashboard.accepts. destruct (url_Parse u) as [p|].
  - rewrite andb_true_iff, !negb_true_iff, !String.eqb_neq. split.
    + intros [? ?]. by exists p.
    + intros (p' & Hp & ? & ?). by injection Hp as <-.
  - split; [done|]. by intros (p & Hp & _).
Qed.

(** C3 (amended). Each entry of the request is trimmed, and blank
    entries are dropped without a report.  The handler accepts a trimmed
    entry exactly when it parses with a non-empty scheme and a non-empty
    host; every other non-blank entry is listed in [invalid_urls].  The
    tasks the handler adds to the frontier are tasks for accepted
    entries only, each with the trimmed entry as its URL and depth 0. *)
Theorem C3_injection_checks_scheme_and_host (E : Oracle) (q : PriorityURLQueue)
  (urls : list string) :
  urls <> [] ->
  exists (r : AddURLsResponse) (q' : PriorityURLQueue),
    Dashboard.handleAddURLs E q (Some urls) = (Reply r, q') /\
    invalid_urls r =
      List.filter (fun u => negb (Dashboard.accepts u)) (cleaned_entries urls) /\
    total_valid r =
      Z.of_nat (length (List.filter Dashboard.accepts (cleaned_entries urls))) /\
    (forall t : URLTask,
       t ∈ task <$> qheap q' ->
       t ∈ task <$> qheap q \/
       exists u : string,
         u ∈ cleaned_entries urls /\ Dashboard.accepts u = true /\
         t = Dashboard.newTask E u) /\
    (forall u : string,
       Dashboard.accepts u = true ->
       Depth (Dashboard.newTask E u) = 0 /\
       URL (Dashboard.newTask E u) = u /\
       exists p : url_URL,
         url_Parse u = Some p /\ Scheme p <> ""%string /\ Host p <> ""%string).
Proof.
  intros Hne. unfold Dashboard.handleAddURLs.
  destruct (Nat.eqb_spec (length urls) 0) as [Hz|_].
  { by destruct urls. }
  rewrite validate_spec. cbn [app].
  set (valid := List.filter Dashboard.accepts (cleaned_entries urls)).
  pose proof (enqueue_tasks E valid q 0 []) as Htasks.
  destruct (Dashboard.enqueue E q valid 0 []) as [[q' addedCount] errs].
  eexists _, q'. split; [reflexivity|]. cbn [invalid_urls total_valid fst] in *.
  repeat split; try done.
  - intros t Ht. destruct (Htasks t Ht) as [|(u & Hu & ->)]; [by left|].
    right. exists u. unfold valid in Hu.
    apply list_elem_of_In, filter_In in Hu as [Hu Hacc].
    split; [by apply list_elem_of_In|done].
  - by apply accepts_spec.
Qed.

End Injection.

Lemma C3_injection_checks_scheme_and_host_witness :
  ["  https://a.example/start  "; "not a url"; " "]%string <> [] /\
  invalid_urls
    (match fst (@Dashboard.handleAddURLs simpleLib quietOracle Queue.New
                  (Some ["  https://a.example/start  "; "not a url"; " "]%string)) with
     | Reply r => r
     | BadRequest _ => mkAddURLs false 0 0 [] []
     end) = ["not a url"%string].
Proof.
  assert (Hne : ["  https://a.example/start  "; "not a url"; " "]%string <> [])
    by (intros Hd; discriminate Hd).
  destruct (@C3_injection_checks_scheme_and_host simpleLib quietOracle Queue.New
              ["  https://a.example/start  "; "not a url"; " "]%string Hne)
    as (r & q' & Hrun & Hinv & _).
  split; [exact Hne|]. rewrite Hrun. cbn [fst]. rewrite Hinv.
  vm_compute. reflexivity.
Defined.

(** C3 fails as stated: the handler creates a task for an [ftp] URL,
    which [IsValidURL] rejects, and the blank entry, which [IsValidURL]
    rejects as well, is not reported in [invalid_urls]. *)
Lemma C3_counterexample :
  fst (@Dashboard.handleAddURLs simpleLib quietOracle Queue.New
         (Some ["ftp://files.example/pub"; "   "]%string))
    = Reply (mkAddURLs true 1 1 [] []) /\
  task <$> qheap (snd (@Dashboard.handleAddURLs simpleLib quietOracle Queue.New
                         (Some ["ftp://files.example/pub"; "   "]%string)))
    = [mkURLTask "ftp://files.example/pub" 0 1700000000 0] /\
  @url_Parse simpleLib "ftp://files.example/pub"
    = Some (mkURL "ftp" "files.example" "/pub") /\
  @IsValidURL simpleLib "ftp://files.example/pub" = false /\
  @IsValidURL simpleLib "   " = false.
Proof.
  split; [vm_compute; reflexivity|]. split; [vm_compute; reflexivity|].
  split; [vm_compute; reflexivity|]. split; vm_compute; reflexivity.
Qed.

(** ** The depth bound *)

Lemma Queue_Pop_tasks (q : PriorityURLQueue) :
  queue_inv q -> Queue.pop_err (Queue.Pop q) = None ->
  task <$> qheap q ≡ₚ
  Queue.popped (Queue.Pop q) :: (task <$> qheap (Queue.pop_queue (Queue.Pop q))).
Proof.
  intros (_ & Hok & _). unfold Queue.Pop, urlHeap.Len.
  destruct (Nat.eqb_spec (length (qheap q)) 0) as [He|Hne]; [done|].
  destruct (heap_Pop_spec (qheap q)) as (it & h' & -> & _ & _ & Hperm & _);
    [by destruct (qheap q)|done|].
  cbn. intros _. rewrite !tasks_of_keys. by rewrite Hperm.
Qed.

Lemma Queue_Pop_err_queue (q : PriorityURLQueue) :
  Queue.pop_err (Queue.Pop q) <> None -> Queue.pop_queue (Queue.Pop q) = q.
Proof.
  unfold Queue.Pop. destruct (urlHeap.Len (qheap q) =? 0)%nat; [done|].
  by destruct (heap.Pop (qheap q)) as [[it h']|].
Qed.

Lemma Queue_pushAll_tasks (urls : list URLTask) :
  forall (q : PriorityURLQueue) (t : URLTask),
    t ∈ task <$> qheap (Queue.pushAll q urls) ->
    t ∈ task <$> qheap q \/ t ∈ urls.
Proof.
  induction urls as [|u rest IH]; intros q t; cbn [Queue.pushAll]; [tauto|].
  pose proof (Queue_Push_task_elem q u t) as Hpush.
  destruct (Queue.Push q u) as [q1 [e|]]; cbn [fst] in Hpush.
  - intros Ht. destruct (Hpush Ht) as [-> |]; [right; by left|by left].
  - intros Ht. apply IH in Ht as [Ht|Ht]; [|right; by right].
    destruct (Hpush Ht) as [-> |]; [right; by left|by left].
Qed.

Section DepthBound.
Context `{StdLib} `{Codec} `{!MetricsDecoder} `{RobotsTxt}.

Lemma backlog_tasks_urlDB (s1 s2 : BadgerStorage) :
  urlDB s1 = urlDB s2 -> backlog_tasks s1 = backlog_tasks s2.
Proof. unfold backlog_tasks, backlog. by intros ->. Qed.

(** What comes back for a spilled task is the task as [encoding/json]
    returns it. *)
Lemma StoreURL_backlog_elem (s : BadgerStorage) (t t' : URLTask) (ok : bool) :
  t' ∈ backlog_tasks (fst (Badger.StoreURL s t ok)) ->
  t' = jsonTask t \/ t' ∈ backlog_tasks s.
Proof.
  unfold Badger.StoreURL. destruct ok; [|tauto]. cbn [fst].
  rewrite !elem_backlog_tasks. cbn [urlDB].
  intros (e & He & Hb & Hd).
  apply db_set_elem_inv in He as [-> |He].
  - cbn in Hd. rewrite unmarshal_marshalTask in Hd. left. congruence.
  - right. by exists e.
Qed.

(** The pending tasks are those of the frontier and those of the backlog. *)
Lemma elem_pending (w : World) (t : URLTask) :
  t ∈ pending_tasks w <->
  t ∈ task <$> qheap (URLQueue w) \/ t ∈ backlog_tasks (Storage w).
Proof. unfold pending_tasks, frontier_tasks. apply elem_of_app. Qed.

Lemma enlist_spec (E : Oracle) (w : World) (url : string) (depth : Z) :
  (queue_inv (URLQueue w) -> queue_inv (URLQueue (App.enlist E w url depth))) /\
  forall t' : URLTask,
    t' ∈ pending_tasks (App.enlist E w url depth) ->
    t' ∈ pending_tasks w \/ Depth t' = depth.
Proof.
  unfold App.enlist. cbn [App.set_BloomFilter URLQueue Storage].
  pose proof (Queue_Push_inv (URLQueue w) (App.mkTask E url depth)) as Hq'.
  pose proof (Queue_Push_task_elem (URLQueue w) (App.mkTask E url depth)) as Hel.
  destruct (Queue.Push (URLQueue w) (App.mkTask E url depth)) as [q' [e|]];
    cbn [fst] in *.
  - split; [done|].
    intros t'. rewrite !elem_pending. cbn [App.set_Storage URLQueue Storage].
    intros [Ht|Ht]; [tauto|].
    apply StoreURL_backlog_elem in Ht as [-> |Ht]; [by right|tauto].
  - split; [done|].
    intros t'. rewrite !elem_pending. cbn [App.set_URLQueue URLQueue Storage].
    intros [Ht|Ht]; [|tauto]. destruct (Hel t' Ht) as [-> |]; [by right|tauto].
Qed.

Lemma addNewURLs_spec (E : Oracle) (depth : Z) (urls : list string) :
  forall (w : World) (acc : list string),
    (queue_inv (URLQueue w) ->
     queue_inv (URLQueue (snd (App.addNewURLs E w urls depth acc)))) /\
    forall t' : URLTask,
      t' ∈ pending_tasks (snd (App.addNewURLs E w urls depth acc)) ->
      t' ∈ pending_tasks w \/ Depth t' = depth.
Proof.
  induction urls as [|url rest IH]; intros w acc; cbn [App.addNewURLs].
  - split; [done|]. tauto.
  - destruct (IsValidURL url); cbn [negb]; [|by apply IH].
    destruct (Bloom.Test E (BloomFilter w) url); [by apply IH|].
    destruct (enlist_spec E w url depth) as [Hq1 Hel1].
    destruct (IH (App.enlist E w url depth) (acc ++ [url])) as [Hq2 Hel2].
    split; [auto|]. intros t' Ht'.
    destruct (Hel2 t' Ht') as [Ht1|]; [|tauto].
    destruct (Hel1 t' Ht1); tauto.
Qed.

Lemma checkLinks_frame (E : Oracle) (w : World) (r : CrawlResult.t)
  (content url : string) :
  URLQueue (snd (App.checkLinks E w r content url)) = URLQueue w /\
  Storage (snd (App.checkLinks E w r content url)) = Storage w.
Proof. done. Qed.

Lemma extract_frame (c : CrawlerService) (E : Oracle) (w : World) (r : CrawlResult.t)
  (content url : string) :
  URLQueue (snd (App.extract c E w r content url)) = URLQueue w /\
  Storage (snd (App.extract c E w r content url)) = Storage w.
Proof.
  unfold App.extract.
  destruct (String.eqb (mode c) "email"); [done|].
  destruct (String.eqb (mode c) "keywords"); [done|].
  destruct (String.eqb (mode c) "domains"); [apply checkLinks_frame|].
  destruct (String.eqb (mode c) "all"); [|done].
  destruct (App.shouldCheckDeadLinks c); done.
Qed.

Lemma finish_frame (E : Oracle) (w : World) (r : CrawlResult.t) :
  URLQueue (App.finish E w r) = URLQueue w /\
  urlDB (Storage (App.finish E w r)) = urlDB (Storage w).
Proof. cbn. split; [done|]. apply StoreResult_urlDB. Qed.

Lemma pending_frame (w w' : World) :
  URLQueue w' = URLQueue w -> urlDB (Storage w') = urlDB (Storage w) ->
  pending_tasks w' = pending_tasks w.
Proof.
  intros Hq Hs. unfold pending_tasks, frontier_tasks.
  by rewrite Hq, (backlog_tasks_urlDB _ _ Hs).
Qed.

(** What one call of [processURL] does to the pending tasks. *)
Lemma processURL_pending (c : CrawlerService) (E : Oracle) (w : World) (t : URLTask)
  (maxDepth : Z) :
  let w' := App.processURL c E w t maxDepth in
  (queue_inv (URLQueue w) -> queue_inv (URLQueue w')) /\
  (forall t' : URLTask,
     t' ∈ pending_tasks w' ->
     t' ∈ pending_tasks w \/
     (Depth t < maxDepth /\ Depth t' = wrap64 (Depth t + 1))) /\
  (maxDepth <= Depth t ->
   URLQueue w' = URLQueue w /\ urlDB (Storage w') = urlDB (Storage w)).
Proof.
  intros w'.
  assert (Hsame : forall w1 : World,
             URLQueue w1 = URLQueue w -> urlDB (Storage w1) = urlDB (Storage w) ->
             (queue_inv (URLQueue w) -> queue_inv (URLQueue w1)) /\
             (forall t' : URLTask,
                t' ∈ pending_tasks w1 ->
                t' ∈ pending_tasks w \/
                (Depth t < maxDepth /\ Depth t' = wrap64 (Depth t + 1))) /\
             (maxDepth <= Depth t ->
              URLQueue w1 = URLQueue w /\ urlDB (Storage w1) = urlDB (Storage w))).
  { intros w1 Hq Hs. split; [by rewrite Hq|].
    split; [|done]. intros t'. rewrite (pending_frame w w1) by done. tauto. }
  unfold w', App.processURL.
  destruct (Robots.CanFetch E (Robots w) UserAgent (URL t)) as [allowed robots'].
  destruct allowed; cbn [negb].
  2:{ apply Hsame; by destruct (finish_frame E (App.set_Robots w robots')
                                  (CrawlResult.set_Error
                                     (CrawlResult.init (URL t) (startTime E))
                                     "blocked by robots.txt")). }
  destruct (rateWait E); cbn [negb].
  2:{ apply Hsame; by destruct (finish_frame E (App.set_Robots w robots')
                                  (CrawlResult.set_Error
                                     (CrawlResult.init (URL t) (startTime E))
                                     "rate limit context cancelled")). }
  destruct (App.fetchURL E (URL t) (gets (App.set_Robots w robots')))
    as [[[content statusCode] err] log].
  destruct err as [msg|].
  { apply Hsame; match goal with
                 | |- context [App.finish E ?w0 ?r0] =>
                     by destruct (finish_frame E w0 r0)
                 end. }
  match goal with
  | |- context [App.extract c E ?w0 ?r0 content (URL t)] =>
      pose proof (extract_frame c E w0 r0 content (URL t)) as [Hxq Hxs];
      destruct (App.extract c E w0 r0 content (URL t)) as [result w2]
  end.
  cbn [snd App.set_gets App.set_Robots URLQueue Storage] in Hxq, Hxs.
  destruct (Z.ltb_spec (Depth t) maxDepth) as [Hlt|Hge].
  - pose proof (addNewURLs_spec E (wrap64 (Depth t + 1))
                  (ExtractLinks E content (URL t)) w2 []) as [Hq3 Hel].
    destruct (App.addNewURLs E w2 (ExtractLinks E content (URL t))
                (wrap64 (Depth t + 1)) []) as [added w3].
    cbn [snd] in Hq3, Hel.
    match goal with
    | |- context [App.finish E w3 ?r0] =>
        destruct (finish_frame E w3 r0) as [Hfq Hfs]
    end.
    split; [rewrite Hfq; intros Hq; apply Hq3; by rewrite Hxq|]. split; [|lia].
    intros t'. rewrite (pending_frame w3) by done. intros Ht'.
    destruct (Hel t' Ht') as [Ht2|Hnew]; [|tauto].
    left. rewrite (pending_frame w w2) in Ht2; [done|done|by rewrite Hxs].
  - apply Hsame; match goal with
                 | |- context [App.finish E w2 ?r0] =>
                     destruct (finish_frame E w2 r0) as [Hfq Hfs]
                 end; [by rewrite Hfq|by rewrite Hfs, Hxs].
Qed.

(** A refill hands out nothing but tasks of the backlog. *)
Lemma refillFromDB_spec (w : World) :
  (queue_inv (URLQueue w) -> queue_inv (URLQueue (App.refillFromDB w))) /\
  forall t' : URLTask,
    t' ∈ pending_tasks (App.refillFromDB w) -> t' ∈ pending_tasks w.
Proof.
  unfold App.refillFromDB.
  destruct (refilling (URLQueue w)); [by split|].
  destruct (wrap64 (maxSize (URLQueue w) - Queue.Size (URLQueue w)) <=? 0); [by split|].
  pose proof (GetURLs_tasks_elem (Storage w)
                (wrap64 (maxSize (URLQueue w) - Queue.Size (URLQueue w)))) as Hout.
  pose proof (GetURLs_backlog_elem (Storage w)
                (wrap64 (maxSize (URLQueue w) - Queue.Size (URLQueue w)))) as Hleft.
  destruct (Badger.GetURLs (Storage w)
              (wrap64 (maxSize (URLQueue w) - Queue.Size (URLQueue w))))
    as [[urls ok] s'].
  cbn [fst snd] in Hout, Hleft.
  destruct ok.
  - split; cbn [URLQueue Storage App.set_Storage App.set_URLQueue];
      [by apply Queue_pushAll_inv|].
    intros t'. rewrite !elem_pending.
    cbn [URLQueue Storage App.set_Storage App.set_URLQueue].
    intros [Ht|Ht]; [|right; by apply Hleft].
    apply Queue_pushAll_tasks in Ht as [?|Ht]; [tauto|]. right. by apply Hout.
  - split; [done|].
    intros t'. rewrite !elem_pending.
    cbn [URLQueue Storage App.set_Storage]. intros [Ht|Ht]; [tauto|].
    right. by apply Hleft.
Qed.

Lemma enqueue_inv (E : Oracle) (validURLs : list string) :
  forall (q : PriorityURLQueue) (addedCount : Z) (errs : list string),
    queue_inv q ->
    queue_inv (fst (fst (Dashboard.enqueue E q validURLs addedCount errs))).
Proof.
  induction validURLs as [|u rest IH]; intros q n errs Hq; cbn [Dashboard.enqueue];
    [done|].
  pose proof (Queue_Push_inv q (Dashboard.newTask E u) Hq) as Hq'.
  destruct (Queue.Push q (Dashboard.newTask E u)) as [q1 [e|]]; cbn [fst] in Hq';
    by apply IH.
Qed.

Lemma handleAddURLs_spec (E : Oracle) (q : PriorityURLQueue)
  (body : option (list string)) :
  queue_inv q ->
  queue_inv (snd (Dashboard.handleAddURLs E q body)) /\
  forall t : URLTask,
    t ∈ task <$> qheap (snd (Dashboard.handleAddURLs E q body)) ->
    t ∈ task <$> qheap q \/ Depth t = 0.
Proof.
  intros Hq. unfold Dashboard.handleAddURLs.
  destruct body as [urls|]; [|by split; [|tauto]].
  destruct (length urls =? 0)%nat; [by split; [|tauto]|].
  destruct (Dashboard.validate urls [] []) as [validURLs invalidURLs].
  pose proof (enqueue_inv E validURLs q 0 [] Hq) as Hq'.
  pose proof (enqueue_tasks E validURLs q 0 []) as Hel.
  destruct (Dashboard.enqueue E q validURLs 0 []) as [[q' addedCount] errs].
  cbn [fst snd] in *. split; [done|].
  intros t Ht. destruct (Hel t Ht) as [?|(u & _ & ->)]; [by left|by right].
Qed.

Lemma processLinkAsync_frame (E : Oracle) (w : World) (req : linkCheckRequest)
  (at_ : GoTime) :
  URLQueue (App.processLinkAsync E w req at_) = URLQueue w /\
  urlDB (Storage (App.processLinkAsync E w req at_)) = urlDB (Storage w).
Proof.
  unfold App.processLinkAsync.
  destruct (String.eqb (GetDomain (lcURL req)) ""); [done|].
  destruct (Extractor.isDomainDead E (Extractor_ w) (GetDomain (lcURL req)))
    as [dead e1].
  destruct dead.
  - cbn. split; [done|]. apply StoreResult_urlDB.
  - cbn [App.set_Extractor Extractor_].
    destruct (Extractor.isDeadLinkFast E e1 (lcURL req)) as [dead2 e2].
    destruct dead2; cbn; [|done]. split; [done|]. apply StoreResult_urlDB.
Qed.

(** The workers start with the seed in the frontier, at depth 0, and
    with the backlog that the data directory held. *)
Lemma StartCrawling_spec (E : Oracle) (urls results : list (string * Bytes))
  (startURL : string) (w : World) :
  App.StartCrawling E (App.NewInfrastructure urls results) startURL = inr w ->
  queue_inv (URLQueue w) /\
  forall t : URLTask,
    t ∈ pending_tasks w ->
    Depth t = 0 \/ t ∈ backlog_tasks (Badger.Open urls results).
Proof.
  unfold App.StartCrawling. cbn [URLQueue App.NewInfrastructure].
  pose proof (Queue_Push_inv Queue.New (App.mkTask E startURL 0) queue_inv_New) as Hq.
  pose proof (Queue_Push_task_elem Queue.New (App.mkTask E startURL 0)) as Hel.
  destruct (Queue.Push Queue.New (App.mkTask E startURL 0)) as [q' [e|]];
    cbn [fst] in *; [done|].
  intros [= <-]. split; [done|].
  intros t. rewrite elem_pending. cbn. intros [Ht|Ht]; [|by right].
  destruct (Hel t Ht) as [-> |Hn]; [by left|]. cbn in Hn.
  by apply elem_of_nil in Hn.
Qed.

(** When the backlog found at the start keeps the depth bound, every
    reachable state does. *)
Lemma reachable_inv (c : CrawlerService) (maxDepth : Z)
  (urls results : list (string * Bytes)) (w : World) :
  0 <= maxDepth <= int64_max ->
  Forall (depth_ok maxDepth) (backlog_tasks (Badger.Open urls results)) ->
  reachable c maxDepth urls results w ->
  queue_inv (URLQueue w) /\ depth_inv maxDepth w.
Proof.
  intros Hmax Hdisk Hreach. unfold depth_inv.
  induction Hreach as [E startURL w Hstart|w w' Hreach [Hq Hd] Hstep].
  - destruct (StartCrawling_spec E urls results startURL w Hstart) as [Hq Hzero].
    split; [done|]. apply Forall_forall. intros t Ht.
    destruct (Hzero t Ht) as [Hz|Hb].
    + unfold depth_ok. rewrite Hz. lia.
    + rewrite Forall_forall in Hdisk. by apply Hdisk.
  - rewrite Forall_forall in Hd.
    destruct Hstep as [E w|w|E w body|E w req at_].
    + unfold App.workerStep.
      destruct (Queue.pop_err (Queue.Pop (URLQueue w))) as [e|] eqn:Herr;
        [by split; [|apply Forall_forall]|].
      pose proof (Queue_Pop_tasks (URLQueue w) Hq Herr) as Hperm.
      set (w1 := App.set_URLQueue w (Queue.pop_queue (Queue.Pop (URLQueue w)))).
      assert (Hq1 : queue_inv (URLQueue w1)) by (by apply Queue_Pop_inv).
      assert (Hsub : forall t : URLTask, t ∈ pending_tasks w1 -> t ∈ pending_tasks w).
      { intros t. rewrite !elem_pending. cbn [w1 App.set_URLQueue URLQueue Storage].
        intros [Ht|Ht]; [|tauto]. left. rewrite Hperm. by right. }
      assert (Hpop : depth_ok maxDepth (Queue.popped (Queue.Pop (URLQueue w)))).
      { apply Hd, elem_pending. left. rewrite Hperm. by left. }
      destruct (processURL_pending c E w1 (Queue.popped (Queue.Pop (URLQueue w)))
                  maxDepth) as (Hq' & Hel & _).
      split; [auto|]. apply Forall_forall. intros t Ht.
      destruct (Hel t Ht) as [Hold|(Hlt & Hdep)]; [by apply Hd, Hsub|].
      unfold depth_ok in *. rewrite Hdep.
      rewrite wrap64_id; unfold int64_min, int64_max in *; lia.
    + destruct (refillFromDB_spec w) as [Hq' Hel].
      split; [auto|]. apply Forall_forall. intros t Ht. by apply Hd, Hel.
    + destruct (handleAddURLs_spec E (URLQueue w) body Hq) as [Hq' Hel].
      split; [done|]. apply Forall_forall. intros t.
      rewrite elem_pending. cbn [App.set_URLQueue URLQueue Storage].
      intros [Ht|Ht].
      * destruct (Hel t Ht) as [Hold|Hzero].
        -- apply Hd, elem_pending. by left.
        -- unfold depth_ok. rewrite Hzero. lia.
      * apply Hd, elem_pending. by right.
    + destruct (processLinkAsync_frame E w req at_) as [Hfq Hfs].
      split; [by rewrite Hfq|].
      rewrite (pending_frame w) by done. by apply Forall_forall.
Qed.

(** C5, as amended.  In a run with a depth limit of at least 0 whose
    data directory holds, when the run starts, no backlog task with a
    depth outside the bound (an empty directory in particular), every
    task waiting in the frontier or in the backlog has depth between 0
    and the limit.  In every state and for every limit, processing a
    task adds tasks only when its depth is strictly below the limit,
    and each added task has the depth of the processed one plus one; for
    a task at or beyond the limit, frontier and backlog stay as they
    are. *)
Theorem C5_depth_bound (c : CrawlerService) (maxDepth : Z)
  (urls results : list (string * Bytes)) :
  0 <= maxDepth <= int64_max ->
  Forall (depth_ok maxDepth) (backlog_tasks (Badger.Open urls results)) ->
  (forall w : World,
     reachable c maxDepth urls results w ->
     Forall (depth_ok maxDepth) (pending_tasks w)) /\
  (forall (w : World) (E : Oracle) (t : URLTask) (limit : Z),
     int64_min <= Depth t -> limit <= int64_max ->
     let w' := App.processURL c E w t limit in
     (forall t' : URLTask,
        t' ∈ pending_tasks w' ->
        t' ∈ pending_tasks w \/ (Depth t < limit /\ Depth t' = Depth t + 1)) /\
     (limit <= Depth t ->
      qheap (URLQueue w') = qheap (URLQueue w) /\
      urlDB (Storage w') = urlDB (Storage w))).
Proof.
  intros Hmax Hdisk. split.
  - intros w Hreach.
    by destruct (reachable_inv c maxDepth urls results w Hmax Hdisk Hreach).
  - intros w E t limit Hlo Hhi w'.
    destruct (processURL_pending c E w t limit) as (_ & Hel & Hsame).
    split.
    + intros t' Ht'. destruct (Hel t' Ht') as [?|(Hlt & Hdep)]; [by left|].
      right. split; [done|]. rewrite Hdep.
      rewrite wrap64_id; unfold int64_min, int64_max in *; lia.
    + intros Hge. destruct (Hsame Hge) as [Hq Hs]. unfold w'. by rewrite Hq.
Qed.

End DepthBound.

Lemma C5_depth_bound_witness :
  0 <= 5 <= int64_max /\
  Forall (depth_ok 5)
    (@backlog_tasks plainCodec (@Badger.Open plainCodec plainDecoder c5_disk [])) /\
  @reachable simpleLib plainCodec plainDecoder prefixRules emailService 5 c5_disk []
    c5_start /\
  Forall (depth_ok 5) (@pending_tasks plainCodec prefixRules c5_start) /\
  forall t' : URLTask,
    t' ∈ @pending_tasks plainCodec prefixRules
           (@App.processURL simpleLib plainCodec prefixRules emailService
              linkingOracle c5_start c5_seed 5) ->
    t' ∈ @pending_tasks plainCodec prefixRules c5_start \/
    (Depth c5_seed < 5 /\ Depth t' = Depth c5_seed + 1).
Proof.
  assert (Hmax : 0 <= 5 <= int64_max) by (unfold int64_max; lia).
  assert (Hdisk : Forall (depth_ok 5)
            (@backlog_tasks plainCodec (@Badger.Open plainCodec plainDecoder c5_disk []))).
  { change (Forall (depth_ok 5) [mkURLTask "https://a.example/old" 3 1690000000 0]).
    constructor; [|constructor]. unfold depth_ok. cbn. lia. }
  assert (Hreach : @reachable simpleLib plainCodec plainDecoder prefixRules
                     emailService 5 c5_disk [] c5_start).
  { apply (@reach_start simpleLib plainCodec plainDecoder prefixRules emailService 5
             c5_disk [] quietOracle "https://a.example/" c5_start).
    reflexivity. }
  pose proof (@C5_depth_bound simpleLib plainCodec plainDecoder prefixRules
                emailService 5 c5_disk [] Hmax Hdisk) as [Hinv Hproc].
  assert (Hlo : int64_min <= Depth c5_seed) by (unfold int64_min; cbn; lia).
  destruct (Hproc c5_start linkingOracle c5_seed 5 Hlo (proj2 Hmax)) as [Hnew _].
  split; [exact Hmax|]. split; [exact Hdisk|]. split; [exact Hreach|].
  split; [exact (Hinv c5_start Hreach)|exact Hnew].
Defined.

(** The depth bound fails in a run that finds a deeper backlog, and in a
    run whose limit is negative. *)
Lemma C5_counterexample :
  (@reachable simpleLib plainCodec plainDecoder prefixRules emailService 5
     c5_deep_disk [] c5_refilled /\
   @frontier_tasks plainCodec prefixRules c5_refilled = [c5_deep] /\
   ~ Forall (depth_ok 5) (@pending_tasks plainCodec prefixRules c5_refilled)) /\
  (@reachable simpleLib plainCodec plainDecoder prefixRules emailService (-1)
     [] [] c5_negative /\
   @frontier_tasks plainCodec prefixRules c5_negative = [c5_seed] /\
   ~ Forall (depth_ok (-1)) (@pending_tasks plainCodec prefixRules c5_negative)).
Proof.
  split.
  - split; [|split].
    + eapply reach_step; [eapply reach_step|].
      * apply (@reach_start simpleLib plainCodec plainDecoder prefixRules emailService 5
                 c5_deep_disk [] quietOracle "https://a.example/" c5_restart).
        reflexivity.
      * apply (step_worker emailService 5 quietOracle c5_restart).
      * apply step_refill.
    + vm_compute. reflexivity.
    + intros Hall. rewrite Forall_forall in Hall.
      assert (Hd : depth_ok 5 c5_deep).
      { apply Hall, elem_of_app. left.
        assert (Hf : @frontier_tasks plainCodec prefixRules c5_refilled = [c5_deep])
          by (vm_compute; reflexivity).
        rewrite Hf. by left. }
      unfold depth_ok in Hd. cbn in Hd. lia.
  - split; [|split].
    + apply (@reach_start simpleLib plainCodec plainDecoder prefixRules emailService (-1)
               [] [] quietOracle "https://a.example/" c5_negative).
      reflexivity.
    + vm_compute. reflexivity.
    + intros Hall. rewrite Forall_forall in Hall.
      assert (Hd : depth_ok (-1) c5_seed).
      { apply Hall, elem_of_app. left.
        assert (Hf : @frontier_tasks plainCodec prefixRules c5_negative = [c5_seed])
          by (vm_compute; reflexivity).
        rewrite Hf. by left. }
      unfold depth_ok in Hd. cbn in Hd. lia.
Qed.

(** ** More on the frontier: emptiness, fullness, order of pops, slot
    indices, refill *)

Lemma heap_Pop_some (h : list urlItem) :
  h <> [] ->
  exists (it : urlItem) (h' : list urlItem),
    heap.Pop h = Some (it, h') /\ length h = S (length h').
Proof.
  intros Hne.
  assert (Hlen : (0 < length h)%nat) by (destruct h; [done|simpl; lia]).
  unfold heap.Pop, urlHeap.Pop, urlHeap.Len.
  set (h2 := heap.down _ _ _).
  assert (Hl2 : length h2 = length h).
  { unfold h2. by rewrite down_length, Swap_length. }
  destruct (last h2) as [it|] eqn:Hlast.
  - exists (set_index it (-1)), (take (length h2 - 1) h2). split; [done|].
    rewrite length_take. lia.
  - apply last_None in Hlast. rewrite Hlast in Hl2. simpl in Hl2. lia.
Qed.

(** X1.  [IsFull] and [IsEmpty] predict the outcome of the next [Push]
    and [Pop]: a push is refused with [ErrQueueFull] exactly when the
    queue reports full, a pop is refused with [ErrQueueEmpty] exactly
    when it reports empty; a refused call leaves the queue as it was, and
    an accepted pop shortens it by one. *)
Theorem IsFull_IsEmpty_predict_errors (q : PriorityURLQueue) (t : URLTask) :
  (Queue.IsFull q = true <-> snd (Queue.Push q t) = Some ErrQueueFull) /\
  (Queue.IsFull q = false <-> snd (Queue.Push q t) = None) /\
  (snd (Queue.Push q t) <> None -> fst (Queue.Push q t) = q) /\
  (Queue.IsEmpty q = true <-> Queue.pop_err (Queue.Pop q) = Some ErrQueueEmpty) /\
  (Queue.IsEmpty q = false <-> Queue.pop_err (Queue.Pop q) = None) /\
  (Queue.pop_err (Queue.Pop q) <> None -> Queue.pop_queue (Queue.Pop q) = q) /\
  (Queue.pop_err (Queue.Pop q) = None ->
   Queue.Size (Queue.pop_queue (Queue.Pop q)) = Queue.Size q - 1).
Proof.
  assert (HP : (Queue.IsFull q = true /\ Queue.Push q t = (q, Some ErrQueueFull)) \/
               (Queue.IsFull q = false /\ snd (Queue.Push q t) = None)).
  { unfold Queue.IsFull, Queue.Push, Queue.Size.
    destruct (maxSize q <=? _); [left|right]; done. }
  assert (HQ : (Queue.IsEmpty q = true /\
                Queue.Pop q = Queue.mkPop zeroTask (Some ErrQueueEmpty) q false) \/
               (Queue.IsEmpty q = false /\ Queue.pop_err (Queue.Pop q) = None /\
                Queue.Size (Queue.pop_queue (Queue.Pop q)) = Queue.Size q - 1)).
  { unfold Queue.IsEmpty, Queue.Pop, Queue.Size, urlHeap.Len.
    destruct (qheap q) as [|a h] eqn:Hh; [left; done|right].
    destruct (heap_Pop_some (a :: h)) as (it & h' & -> & Hl); [done|].
    simpl in *. repeat split; lia. }
  repeat split.
  - destruct HP as [[? ->]|[-> ?]]; done.
  - destruct HP as [[? ->]|[-> ?]]; [done|congruence].
  - destruct HP as [[-> ->]|[? ?]]; done.
  - destruct HP as [[-> ->]|[? ->]]; done.
  - destruct HP as [[? ->]|[? ?]]; done.
  - destruct HQ as [[? ->]|(-> & ? & ?)]; done.
  - destruct HQ as [[? ->]|(-> & ? & ?)]; [done|congruence].
  - destruct HQ as [[-> ->]|(? & ? & ?)]; done.
  - destruct HQ as [[-> ->]|(? & -> & ?)]; done.
  - destruct HQ as [[? ->]|(? & ? & ?)]; done.
  - destruct HQ as [[? ->]|(? & ? & ?)]; done.
Qed.

Lemma key_elem_prio (h : list urlItem) (it : urlItem) :
  item_key it ∈ item_key <$> h ->
  exists k : nat, (k < length h)%nat /\ prio h k = priority it /\
                  exists it' : urlItem, it' ∈ h /\ item_key it' = item_key it.
Proof.
  intros Hin. apply list_elem_of_fmap in Hin as (it' & Hk & Hin).
  pose proof Hin as Hin'.
  apply list_elem_of_lookup in Hin as (k & Hk').
  exists k. split; [by eapply lookup_lt_Some|].
  split; [|by exists it'].
  unfold prio. rewrite Hk'. simpl. unfold item_key in Hk. congruence.
Qed.

Lemma Queue_Pop_nonempty (q : PriorityURLQueue) :
  Queue.pop_err (Queue.Pop q) = None ->
  qheap q <> [] /\
  exists (it : urlItem) (h' : list urlItem),
    heap.Pop (qheap q) = Some (it, h') /\
    Queue.popped (Queue.Pop q) = task it /\
    Queue.pop_queue (Queue.Pop q) = set_qheap q h'.
Proof.
  unfold Queue.Pop, urlHeap.Len.
  destruct (qheap q) as [|a h] eqn:Hh; [done|]. intros _. split; [done|].
  destruct (heap_Pop_some (a :: h)) as (it & h' & Hp & _); [done|].
  exists it, h'. rewrite Hp. done.
Qed.

(** X2.  Two pops in a row come out in priority order: on a queue in its
    invariant, the task popped first has a computed priority
    ([int64(Depth*1000) + Timestamp.Unix()], wrap-around included) no
    larger than that of the task popped next. *)
Theorem pops_come_in_priority_order (q : PriorityURLQueue) :
  queue_inv q ->
  Queue.pop_err (Queue.Pop q) = None ->
  Queue.pop_err (Queue.Pop (Queue.pop_queue (Queue.Pop q))) = None ->
  priority_of (Queue.popped (Queue.Pop q)) <=
  priority_of (Queue.popped (Queue.Pop (Queue.pop_queue (Queue.Pop q)))).
Proof.
  intros (Hsz & Hok & Hpr) He1 He2.
  destruct (Queue_Pop_nonempty _ He1) as (Hne & it & h' & Hp & -> & Hq).
  destruct (Queue_Pop_nonempty _ He2) as (Hne' & it2 & h'' & Hp2 & -> & _).
  rewrite Hq in Hp2, Hne'. cbn [qheap set_qheap] in Hp2, Hne'.
  destruct (heap_Pop_spec (qheap q) Hne Hok)
    as (it_ & h_ & Hp_ & Hlen & Hok' & Hperm & Hmin).
  rewrite Hp in Hp_. injection Hp_ as <- <-.
  destruct (heap_Pop_spec h' Hne' Hok') as (it_ & h_ & Hp_ & _ & _ & Hperm2 & _).
  rewrite Hp2 in Hp_. injection Hp_ as <- <-.
  assert (Hkeys : Forall (fun kp : URLTask * Z => snd kp = priority_of (fst kp))
                         (item_key <$> qheap q)) by by apply priority_of_keys.
  rewrite Forall_forall in Hkeys.
  assert (H1 : item_key it ∈ item_key <$> qheap q).
  { rewrite Hperm. apply list_elem_of_here. }
  assert (H2 : item_key it2 ∈ item_key <$> qheap q).
  { rewrite Hperm. apply list_elem_of_further. rewrite Hperm2. apply list_elem_of_here. }
  pose proof (Hkeys _ H1) as E1. pose proof (Hkeys _ H2) as E2.
  simpl in E1, E2. rewrite <- E1, <- E2.
  destruct (key_elem_prio _ _ H2) as (k & Hk & <- & _).
  by apply Hmin.
Qed.

Lemma x_frontier_inv : queue_inv x_frontier.
Proof. do 4 apply Queue_Push_inv. apply queue_inv_New. Qed.

Lemma pops_come_in_priority_order_witness :
  queue_inv x_frontier /\
  Queue.popped (Queue.Pop x_frontier) = x_t2 /\
  Queue.popped (Queue.Pop (Queue.pop_queue (Queue.Pop x_frontier))) = x_t4 /\
  priority_of (Queue.popped (Queue.Pop x_frontier)) <=
  priority_of (Queue.popped (Queue.Pop (Queue.pop_queue (Queue.Pop x_frontier)))).
Proof.
  split; [exact x_frontier_inv|].
  split; [vm_compute; reflexivity|].
  split; [vm_compute; reflexivity|].
  apply (pops_come_in_priority_order x_frontier x_frontier_inv);
    vm_compute; reflexivity.
Defined.

(** ** The slot index kept by [Swap], [Push] and [Pop] *)

Lemma Swap_index_ok (h : list urlItem) (i j : nat) :
  index_ok h -> index_ok (urlHeap.Swap h i j).
Proof.
  intros Hok. unfold urlHeap.Swap.
  destruct (h !! i) as [a|] eqn:Ha; [|done].
  destruct (h !! j) as [b|] eqn:Hb; [|done].
  intros k it Hk.
  destruct (decide (k = i)) as [->|Hki].
  - rewrite list_lookup_insert_eq in Hk.
    + by injection Hk as <-.
    + rewrite length_insert. by eapply lookup_lt_Some.
  - rewrite list_lookup_insert_ne in Hk by done.
    destruct (decide (k = j)) as [->|Hkj].
    + rewrite list_lookup_insert_eq in Hk by (by eapply lookup_lt_Some).
      by injection Hk as <-.
    + rewrite list_lookup_insert_ne in Hk by done. by apply Hok.
Qed.

Lemma up_index_ok (j : nat) :
  forall h : list urlItem, index_ok h -> index_ok (heap.up h j).
Proof.
  induction (lt_wf j) as [j _ IH]. intros h Hok.
  rewrite heap.up_equation_1.
  destruct (decide _) as [|Hne]; [done|].
  destruct (urlHeap.Less _ _ _); [|done].
  apply IH; [lia|]. by apply Swap_index_ok.
Qed.

Lemma down_index_ok (n : nat) (h : list urlItem) (i : nat) :
  index_ok h -> index_ok (heap.down h i n).
Proof.
  remember (n - i)%nat as m eqn:Em. revert h i Em.
  induction (lt_wf m) as [m _ IH]. intros h i -> Hok.
  rewrite heap.down_equation_1.
  destruct (decide _) as [Hc|]; [|done].
  destruct (urlHeap.Less _ _ _); [|done].
  apply (IH (n - heap.child h i n)%nat); [|done|by apply Swap_index_ok].
  unfold heap.child. destruct (_ && _); lia.
Qed.

(** X3.  The [index] field that [Swap], [Push] and [Pop] maintain always
    names the slot an item sits in: if that holds of a heap, it holds
    after [heap.Push] and after [heap.Pop], and the item that [heap.Pop]
    hands out carries index [-1]. *)
Theorem heap_index_names_slot (h : list urlItem) (x : urlItem) :
  index_ok h ->
  index_ok (heap.Push h x) /\
  forall (it : urlItem) (h' : list urlItem),
    heap.Pop h = Some (it, h') -> index it = -1 /\ index_ok h'.
Proof.
  intros Hok. split.
  - unfold heap.Push. apply up_index_ok. unfold urlHeap.Push.
    intros k it Hk. apply lookup_app_Some in Hk as [Hk|[Hge Hk]]; [by apply Hok|].
    apply list_lookup_singleton_Some in Hk as [Hk <-]. simpl. lia.
  - intros it h'. unfold heap.Pop, urlHeap.Pop.
    set (h2 := heap.down _ _ _).
    assert (Hok2 : index_ok h2).
    { unfold h2. apply down_index_ok. by apply Swap_index_ok. }
    destruct (last h2) as [c|]; [|done].
    intros [= <- <-]. split; [done|].
    intros k it Hk. apply lookup_take_Some in Hk as [Hk _]. by apply Hok2.
Qed.

Lemma heap_index_names_slot_witness :
  index_ok (qheap x_frontier) /\
  index <$> qheap x_frontier = [0; 1; 2; 3] /\
  index_ok (heap.Push (qheap x_frontier) (mkItem x_t1 5 0)) /\
  forall (it : urlItem) (h' : list urlItem),
    heap.Pop (qheap x_frontier) = Some (it, h') -> index it = -1 /\ index_ok h'.
Proof.
  assert (Hok : index_ok (qheap x_frontier)).
  { assert (Hq : index <$> qheap x_frontier = [0; 1; 2; 3]) by (vm_compute; reflexivity).
    intros i it Hi.
    assert (Hi' : (index <$> qheap x_frontier) !! i = Some (index it))
      by (by rewrite list_lookup_fmap, Hi).
    rewrite Hq in Hi'.
    destruct i as [|[|[|[|i]]]]; simpl in Hi'; try (by injection Hi' as <-).
    discriminate Hi'. }
  split; [exact Hok|]. split; [vm_compute; reflexivity|].
  exact (heap_index_names_slot (qheap x_frontier) (mkItem x_t1 5 0) Hok).
Defined.

(** ** Refilling the frontier from the backlog *)

Lemma pushAll_spec (urls : list URLTask) (q : PriorityURLQueue) :
  task <$> qheap (Queue.pushAll q urls) ≡ₚ
    (task <$> qheap q) ++ take (Z.to_nat (maxSize q - Queue.Size q)) urls /\
  Queue.Size (Queue.pushAll q urls) =
    Queue.Size q + Z.of_nat (length (take (Z.to_nat (maxSize q - Queue.Size q)) urls)) /\
  maxSize (Queue.pushAll q urls) = maxSize q.
Proof.
  revert q. induction urls as [|t rest IH]; intros q; cbn [Queue.pushAll].
  - rewrite take_nil, app_nil_r. simpl. split; [done|split; [lia|done]].
  - destruct (Z.le_gt_cases (maxSize q) (Queue.Size q)) as [Hfull|Hroom].
    + rewrite (Queue_Push_full q t Hfull).
      replace (Z.to_nat (maxSize q - Queue.Size q)) with 0%nat by lia.
      rewrite take_0, app_nil_r. simpl. split; [done|split; [lia|done]].
    + pose proof (Queue_Push_tasks q t) as Ht.
      destruct (Queue_Push_room q t) as (Hnone & Hsz & Hmax); [lia|].
      destruct (Queue.Push q t) as [q' e]. cbn [fst snd] in *. subst e.
      destruct (IH q') as (IH1 & IH2 & IH3).
      rewrite Hmax, Hsz in IH1, IH2.
      replace (Z.to_nat (maxSize q - Queue.Size q))
        with (S (Z.to_nat (maxSize q - (Queue.Size q + 1)))) by lia.
      rewrite firstn_cons. split; [|split].
      * rewrite IH1, Ht. by rewrite <- Permutation_middle.
      * rewrite IH2. simpl length. lia.
      * congruence.
Qed.

(** X4.  The refill loop pushes a batch until the first refusal: of the
    tasks handed to it, exactly the first [maxSize - Size] (all of them
    when there are fewer) end up in the frontier, next to what was
    there; the rest of the batch is dropped, and the frontier is then
    full.  The capacity is unchanged. *)
Theorem pushAll_takes_what_fits (urls : list URLTask) (q : PriorityURLQueue) :
  let room := Z.to_nat (maxSize q - Queue.Size q) in
  task <$> qheap (Queue.pushAll q urls) ≡ₚ (task <$> qheap q) ++ take room urls /\
  Queue.Size (Queue.pushAll q urls) = Queue.Size q + Z.of_nat (length (take room urls)) /\
  maxSize (Queue.pushAll q urls) = maxSize q /\
  ((room < length urls)%nat -> Queue.IsFull (Queue.pushAll q urls) = true).
Proof.
  intros room. destruct (pushAll_spec urls q) as (P1 & P2 & P3).
  fold room in P1, P2. split; [exact P1|]. split; [exact P2|]. split; [exact P3|].
  intros Hlt. unfold Queue.IsFull. rewrite P2, P3, length_take.
  apply Z.leb_le. unfold Queue.Size in *. lia.
Qed.

Section Refill.
Context `{Codec} `{RobotsTxt}.

(** X5.  A refill that runs without interference moves the first
    [maxSize - Size] tasks of the backlog (in key order, as they decode)
    into the frontier.  When every stored URL is well-formed UTF-8, it
    deletes exactly those from the store, so nothing is lost: the
    pending tasks are the same as before, and afterwards the frontier is
    full or the backlog is empty. *)
Theorem refill_moves_backlog_to_frontier (w : World) :
  queue_inv (URLQueue w) ->
  storage_wf (Storage w) ->
  maxSize (URLQueue w) <= int64_max ->
  refilling (URLQueue w) = false ->
  let n := Z.to_nat (maxSize (URLQueue w) - Queue.Size (URLQueue w)) in
  let w' := App.refillFromDB w in
  frontier_tasks w' ≡ₚ frontier_tasks w ++ take n (backlog_tasks (Storage w)) /\
  (storage_exact (Storage w) ->
   backlog_tasks (Storage w') = drop n (backlog_tasks (Storage w)) /\
   pending_tasks w' ≡ₚ pending_tasks w /\
   (Queue.IsFull (URLQueue w') = true \/ backlog_tasks (Storage w') = [])).
Proof.
  intros Hq Hs Hmax Hrf n w'.
  destruct Hq as (Hsz & _).
  assert (Hsz0 : 0 <= Queue.Size (URLQueue w)) by (unfold Queue.Size; lia).
  assert (Hneeded : wrap64 (maxSize (URLQueue w) - Queue.Size (URLQueue w)) =
                    maxSize (URLQueue w) - Queue.Size (URLQueue w)).
  { apply wrap64_id. unfold int64_min, int64_max in *. lia. }
  assert (Hcore :
    frontier_tasks w' ≡ₚ frontier_tasks w ++ take n (backlog_tasks (Storage w)) /\
    Queue.Size (URLQueue w') =
      Queue.Size (URLQueue w) + Z.of_nat (length (take n (backlog_tasks (Storage w)))) /\
    maxSize (URLQueue w') = maxSize (URLQueue w) /\
    (storage_exact (Storage w) ->
     backlog_tasks (Storage w') = drop n (backlog_tasks (Storage w)))).
  { subst w'. unfold App.refillFromDB. rewrite Hrf, Hneeded.
    destruct (Z.leb_spec (maxSize (URLQueue w) - Queue.Size (URLQueue w)) 0) as [Hle|Hgt].
    - subst n. replace (Z.to_nat _) with 0%nat by lia.
      rewrite take_0, drop_0, app_nil_r. simpl.
      split; [done|split; [lia|split; done]].
    - destruct (GetURLs_spec (Storage w)
                  (maxSize (URLQueue w) - Queue.Size (URLQueue w)) Hs)
        as (s' & Hget & _).
      assert (Hbt : storage_exact (Storage w) ->
                    backlog_tasks s' = drop n (backlog_tasks (Storage w))).
      { intros Hex.
        destruct (GetURLs_backlog (Storage w)
                    (maxSize (URLQueue w) - Queue.Size (URLQueue w)) Hex)
          as (s2 & Hget2 & _ & _ & _ & Hbt2).
        rewrite Hget in Hget2. by injection Hget2 as ->. }
      rewrite Hget.
      cbv beta iota zeta. unfold frontier_tasks.
      cbn [URLQueue Storage App.set_Storage App.set_URLQueue].
      fold n.
      destruct (pushAll_spec (take n (backlog_tasks (Storage w))) (URLQueue w))
        as (P1 & P2 & P3).
      fold n in P1, P2.
      rewrite take_take, Nat.min_id in P1, P2. done. }
  destruct Hcore as (C1 & C3 & C4 & C2).
  split; [exact C1|]. intros Hex. specialize (C2 Hex).
  split; [exact C2|]. split.
  - unfold pending_tasks. fold (frontier_tasks w') (frontier_tasks w).
    rewrite C1, C2, <- app_assoc, take_drop. done.
  - destruct (decide (n < length (backlog_tasks (Storage w)))%nat) as [Hlt|Hge].
    + left. unfold Queue.IsFull. rewrite C3, C4, length_take.
      apply Z.leb_le. lia.
    + right. rewrite C2. apply drop_ge. lia.
Qed.

End Refill.

Lemma x_world_wf : @world_wf plainCodec prefixRules x_world.
Proof.
  split; [exact x_frontier_inv|].
  cbn [Storage x_world]. do 2 apply StoreURL_wf. apply storage_wf_New.
Qed.

Lemma x_world_exact :
  @storage_exact plainCodec (@Storage plainCodec prefixRules x_world).
Proof.
  cbn [Storage x_world].
  apply StoreURL_exact; [reflexivity|].
  apply StoreURL_exact; [reflexivity|]. apply storage_exact_New.
Qed.

Lemma refill_moves_backlog_to_frontier_witness :
  @world_wf plainCodec prefixRules x_world /\
  @storage_exact plainCodec (@Storage plainCodec prefixRules x_world) /\
  @backlog_tasks plainCodec (@Storage plainCodec prefixRules x_world) =
    [x_backlog_a; x_backlog_b] /\
  @backlog_tasks plainCodec
    (@Storage plainCodec prefixRules (@App.refillFromDB plainCodec prefixRules x_world))
    = [] /\
  @pending_tasks plainCodec prefixRules (@App.refillFromDB plainCodec prefixRules x_world)
    ≡ₚ @pending_tasks plainCodec prefixRules x_world.
Proof.
  split; [exact x_world_wf|]. split; [exact x_world_exact|].
  split; [vm_compute; reflexivity|].
  assert (Hmax : maxSize (@URLQueue plainCodec prefixRules x_world) <= int64_max).
  { vm_compute. intros Hd; discriminate Hd. }
  assert (Hrf : refilling (@URLQueue plainCodec prefixRules x_world) = false)
    by (vm_compute; reflexivity).
  pose proof (@refill_moves_backlog_to_frontier plainCodec prefixRules x_world
                (proj1 x_world_wf) (proj2 x_world_wf) Hmax Hrf) as Hthm.
  destruct (proj2 Hthm x_world_exact) as (Hb & Hp & _).
  split; [|exact Hp].
  rewrite Hb. vm_compute. reflexivity.
Defined.

(** ** More on the store: overwriting, counting, metrics, restart *)

Lemma compare_Eq_eq (a b : string) : String.compare a b = Eq -> a = b.
Proof. apply String.compare_eq_iff. Qed.

Lemma compare_refl (a : string) : String.compare a a = Eq.
Proof. induction a as [|c a IH]; simpl; [done|]. by rewrite ascii_compare_refl. Qed.

Lemma db_set_set {V : Type} (k : string) (v1 v2 : V) (db : list (string * V)) :
  db_set k v2 (db_set k v1 db) = db_set k v2 db.
Proof.
  induction db as [|[k' v'] rest IH]; simpl.
  - by rewrite compare_refl.
  - destruct (String.compare k k') eqn:Hc; simpl.
    + by rewrite compare_refl.
    + by rewrite compare_refl.
    + by rewrite Hc, IH.
Qed.

Lemma db_set_other {V : Type} (k : string) (v : V) (db : list (string * V))
  (e : string * V) :
  e ∈ db -> fst e <> k -> e ∈ db_set k v db.
Proof.
  intros Hin Hne. induction db as [|[k' v'] rest IH]; [by apply elem_of_nil in Hin|].
  simpl. destruct (String.compare k k') eqn:Hc.
  - apply compare_Eq_eq in Hc as <-.
    apply elem_of_cons in Hin as [->|Hin]; [done|]. by right.
  - by right.
  - apply elem_of_cons in Hin as [->|Hin]; [by left|]. right. by apply IH.
Qed.

Lemma db_set_keeps_others {V : Type} (k : string) (v : V) (db : list (string * V))
  (e : string * V) :
  e ∈ db_set k v db -> e = (k, v) \/ (e ∈ db /\ (db_sorted db -> fst e <> k)).
Proof.
  induction db as [|[k' v'] rest IH]; simpl.
  - intros Hin. apply list_elem_of_singleton in Hin. by left.
  - destruct (String.compare k k') eqn:Hc.
    + apply compare_Eq_eq in Hc as <-.
      intros [->|Hin]%elem_of_cons; [by left|]. right. split; [by right|].
      intros Hs Hk. unfold db_sorted in Hs. rewrite db_keys_cons in Hs.
      apply StronglySorted_inv in Hs as [_ Hall].
      rewrite List.Forall_forall in Hall.
      assert (Hin' : In (fst e) (db_keys rest)).
      { apply list_elem_of_In. unfold db_keys. by apply list_elem_of_fmap_2. }
      apply Hall in Hin'. rewrite Hk in Hin'. by apply key_lt_irrefl in Hin'.
    + intros [->|Hin]%elem_of_cons; [by left|]. right. split; [done|].
      intros Hs Hk. unfold db_sorted in Hs. rewrite db_keys_cons in Hs.
      apply elem_of_cons in Hin as [->|Hin].
      * simpl in Hk. subst k'. by rewrite compare_refl in Hc.
      * apply StronglySorted_inv in Hs as [_ Hall].
        rewrite List.Forall_forall in Hall.
        assert (Hin' : In (fst e) (db_keys rest)).
        { apply list_elem_of_In. unfold db_keys. by apply list_elem_of_fmap_2. }
        apply Hall in Hin'. rewrite Hk in Hin'.
        unfold key_lt in Hin'. assert (Hlt : key_lt k k') by exact Hc.
        by apply (key_lt_irrefl k), (key_lt_trans k k' k).
    + intros [->|Hin]%elem_of_cons.
      * right. split; [by left|]. intros _ Hk. simpl in Hk. subst k'.
        by rewrite compare_refl in Hc.
      * destruct (IH Hin) as [->|[Hin' Hk]]; [by left|].
        right. split; [by right|]. intros Hs. apply Hk.
        unfold db_sorted in *. rewrite db_keys_cons in Hs.
        by apply StronglySorted_inv in Hs as [? _].
Qed.

Lemma task_key_inj (t1 t2 : URLTask) : task_key t1 = task_key t2 -> URL t1 = URL t2.
Proof. unfold task_key, URLPrefix. simpl. intros Hk. by injection Hk. Qed.

Lemma task_key_prefix (t : URLTask) : String.prefix URLPrefix (task_key t) = true.
Proof. unfold task_key, URLPrefix. simpl. by destruct (URL t). Qed.

Section Overwrite.
Context `{Codec}.

(** A task is determined by its key and its encoding. *)
Lemma task_entry_inj (t1 t2 : URLTask) : task_entry t1 = task_entry t2 -> t1 = t2.
Proof.
  unfold task_entry. intros Heq.
  assert (Hk : URL t1 = URL t2) by (apply task_key_inj; congruence).
  assert (Hm : marshalTask t1 = marshalTask t2) by congruence.
  assert (Hj : jsonTask t1 = jsonTask t2).
  { pose proof (unmarshal_marshalTask t1) as E1. rewrite Hm in E1.
    rewrite unmarshal_marshalTask in E1. congruence. }
  destruct t1, t2. unfold jsonTask in Hj. simpl in *. congruence.
Qed.

Lemma elem_backlog (s : BadgerStorage) (e : string * Bytes) :
  e ∈ backlog s <-> e ∈ urlDB s /\ in_backlog e = true.
Proof. unfold backlog. rewrite !list_elem_of_In. apply filter_In. Qed.

Lemma backlog_elem_entry (s : BadgerStorage) (t : URLTask) :
  storage_exact s -> t ∈ backlog_tasks s <-> task_entry t ∈ urlDB s.
Proof.
  intros [_ Hall]. rewrite elem_backlog_tasks. rewrite Forall_forall in Hall. split.
  - intros (e & He & Hp & Hd).
    destruct (Hall e He Hp) as (t0 & -> & Hex). simpl in Hd.
    rewrite unmarshal_marshalTask, Hex in Hd. by injection Hd as ->.
  - intros He. exists (task_entry t). split; [done|]. split; [apply task_key_prefix|].
    destruct (Hall _ He (task_key_prefix t)) as (t0 & Heq & Hex).
    apply task_entry_inj in Heq as <-.
    simpl. rewrite unmarshal_marshalTask. by rewrite Hex.
Qed.

Lemma backlog_URLs_NoDup (s : BadgerStorage) :
  storage_exact s -> NoDup (URL <$> backlog_tasks s).
Proof.
  intros Hwf. pose proof Hwf as [Hs _].
  apply (NoDup_fmap_1 (String.append URLPrefix)).
  rewrite <- list_fmap_compose.
  change (String.append URLPrefix ∘ URL) with task_key.
  rewrite (backlog_task_keys s Hwf).
  apply sorted_NoDup. by apply filter_sorted.
Qed.

(** X6.  The backlog holds at most one entry per URL.  Storing a task
    files its encoding under the key of its URL and displaces exactly
    the entry, if any, that was stored under that key; the other entries
    stay; what is read back for it is the task as [encoding/json]
    returns it; and a second [StoreURL] for the same URL leaves the
    store as if the first had not happened.  When the stored URLs and
    the new one are well-formed UTF-8, the same holds of the tasks read
    back: at most one per URL, the new task in the place of the one with
    its URL. *)
Theorem StoreURL_keeps_one_task_per_URL (s : BadgerStorage) (t : URLTask) :
  storage_wf s ->
  let s' := fst (Badger.StoreURL s t true) in
  NoDup (db_keys (backlog s')) /\
  (forall e : string * Bytes,
     e ∈ backlog s' <->
     e = task_entry t \/ (e ∈ backlog s /\ fst e <> task_key t)) /\
  jsonTask t ∈ backlog_tasks s' /\
  (forall t2 : URLTask,
     URL t2 = URL t ->
     fst (Badger.StoreURL s' t2 true) = fst (Badger.StoreURL s t2 true)) /\
  (storage_exact s -> json_exact t ->
   NoDup (URL <$> backlog_tasks s') /\
   forall t' : URLTask,
     t' ∈ backlog_tasks s' <->
     t' = t \/ (t' ∈ backlog_tasks s /\ URL t' <> URL t)).
Proof.
  intros Hwf s'.
  assert (Hwf' : storage_wf s') by by apply StoreURL_wf.
  assert (Hdb : urlDB s' = db_set (task_key t) (marshalTask t) (urlDB s)) by done.
  split; [apply sorted_NoDup, filter_sorted, Hwf'|].
  split.
  { intros e. rewrite !elem_backlog, Hdb. split.
    - intros [Hin Hb]. apply db_set_keeps_others in Hin as [He|[Hin Hne]]; [by left|].
      right. split; [done|]. apply Hne. by destruct Hwf.
    - intros [->|[[Hin Hb] Hne]].
      + split; [apply db_set_elem|apply task_key_prefix].
      + split; [by apply db_set_other|done]. }
  split.
  { apply elem_backlog_tasks. exists (task_entry t). rewrite Hdb.
    split; [apply db_set_elem|]. split; [apply task_key_prefix|].
    apply unmarshal_marshalTask. }
  split.
  { intros t2 Hu. unfold s', Badger.StoreURL. cbn [fst urlDB resultsDB metrics].
    rewrite Hu. by rewrite db_set_set. }
  intros Hex Ht.
  assert (Hex' : storage_exact s') by by apply StoreURL_exact.
  split; [by apply backlog_URLs_NoDup|].
  intros t'. rewrite !backlog_elem_entry by done. rewrite Hdb. split.
  - intros Hin. apply db_set_keeps_others in Hin as [He|[Hin Hne]].
    + left. by apply task_entry_inj.
    + right. split; [done|]. intros Hu. apply Hne; [by destruct Hwf|].
      simpl. unfold task_key. by rewrite Hu.
  - intros [->|[Hin Hne]]; [apply db_set_elem|].
    apply db_set_other; [done|]. simpl. intros Hk. by apply Hne, task_key_inj.
Qed.

End Overwrite.

Lemma x_store_wf : @storage_wf plainCodec x_store.
Proof. unfold x_store. do 2 apply StoreURL_wf. apply storage_wf_New. Qed.

Lemma x_store_exact : @storage_exact plainCodec x_store.
Proof.
  unfold x_store. apply StoreURL_exact; [reflexivity|].
  apply StoreURL_exact; [reflexivity|]. apply storage_exact_New.
Qed.

Lemma StoreURL_keeps_one_task_per_URL_witness :
  @storage_wf plainCodec x_store /\
  @storage_exact plainCodec x_store /\ json_exact x_backlog_a2 /\
  @backlog_tasks plainCodec x_store = [x_backlog_a; x_backlog_b] /\
  @backlog_tasks plainCodec (fst (@Badger.StoreURL plainCodec x_store x_backlog_a2 true))
    = [x_backlog_a2; x_backlog_b] /\
  NoDup (URL <$> @backlog_tasks plainCodec
                   (fst (@Badger.StoreURL plainCodec x_store x_backlog_a2 true))).
Proof.
  split; [exact x_store_wf|]. split; [exact x_store_exact|].
  split; [reflexivity|].
  split; [vm_compute; reflexivity|]. split; [vm_compute; reflexivity|].
  pose proof (@StoreURL_keeps_one_task_per_URL plainCodec x_store x_backlog_a2
                x_store_wf) as (_ & _ & _ & _ & Hex).
  exact (proj1 (Hex x_store_exact eq_refl)).
Defined.

(** ** Counting the backlog *)

Section Counting.
Context `{Codec}.

Lemma countPrefixed_spec (entries : list (string * Bytes)) :
  db_sorted entries ->
  Forall (fun e => String.compare (fst e) URLPrefix <> Lt) entries ->
  Badger.countPrefixed entries =
  wrap64 (Z.of_nat (length (List.filter in_backlog entries))).
Proof.
  induction entries as [|[k v] rest IH]; intros Hs Hge; [done|].
  unfold db_sorted in Hs. rewrite db_keys_cons in Hs.
  apply StronglySorted_inv in Hs as [Hs Hall].
  apply Forall_cons in Hge as [Hk Hge]. cbn [fst] in Hk.
  cbn [Badger.countPrefixed List.filter]. unfold in_backlog at 1. cbn [fst].
  destruct (String.prefix URLPrefix k) eqn:Hp.
  - rewrite IH by done. unfold add64. rewrite wrap64_add_l. f_equal.
    cbn [length]. lia.
  - change (List.filter in_backlog rest)
      with (List.filter (fun e : string * Bytes => String.prefix URLPrefix (fst e)) rest).
    by rewrite (filter_prefix_nil URLPrefix k rest).
Qed.

Lemma countURLsInDB_backlog (s : BadgerStorage) :
  db_sorted (urlDB s) ->
  Badger.countURLsInDB s = wrap64 (Z.of_nat (length (backlog s))).
Proof.
  intros Hs. unfold Badger.countURLsInDB.
  rewrite countPrefixed_spec; [|by apply seek_sorted|by apply seek_above].
  change (List.filter in_backlog (db_seek URLPrefix (urlDB s)))
    with (List.filter (fun e : string * Bytes => String.prefix URLPrefix (fst e))
                      (db_seek URLPrefix (urlDB s))).
  by rewrite seek_filter.
Qed.

(** X7.  On an ordered URL database [countURLsInDB] is the number of
    backlog entries (as an [int64]): the metrics record and any other
    key outside the [url:] namespace are not counted, and no backlog
    entry is missed.  With well-formed entries this is the number of
    tasks that [GetURLs] can still hand out. *)
Theorem countURLsInDB_counts_backlog (s : BadgerStorage) :
  db_sorted (urlDB s) ->
  Badger.countURLsInDB s = wrap64 (Z.of_nat (length (backlog s))) /\
  (Forall entry_wf (urlDB s) ->
   Badger.countURLsInDB s = wrap64 (Z.of_nat (length (backlog_tasks s)))).
Proof.
  intros Hs. split; [by apply countURLsInDB_backlog|]. intros Hall.
  rewrite countURLsInDB_backlog by done.
  unfold backlog_tasks, backlog. by rewrite wf_backlog_length.
Qed.

End Counting.

Lemma countURLsInDB_counts_backlog_witness :
  db_sorted (@urlDB plainCodec (@Badger.saveMetrics plainCodec x_store)) /\
  length (@urlDB plainCodec (@Badger.saveMetrics plainCodec x_store)) = 3%nat /\
  @Badger.countURLsInDB plainCodec (@Badger.saveMetrics plainCodec x_store) = 2.
Proof.
  assert (Hs : db_sorted (@urlDB plainCodec (@Badger.saveMetrics plainCodec x_store))).
  { apply saveMetrics_wf, x_store_wf. }
  split; [exact Hs|]. split; [vm_compute; reflexivity|].
  rewrite (proj1 (@countURLsInDB_counts_backlog plainCodec _ Hs)).
  vm_compute. reflexivity.
Defined.

(** ** Edge cases of [GetURLs] *)

Section FetchEdges.
Context `{Codec}.

Lemma scanURLs_length (limit : Z) (entries : list (string * Bytes)) :
  forall (count : Z) (acc : list URLTask),
    Z.of_nat (length (fst (Badger.scanURLs entries count limit acc))) <=
    Z.of_nat (length acc) + Z.max 0 (limit - count).
Proof.
  induction entries as [|[k v] rest IH]; intros count acc; cbn [Badger.scanURLs].
  - simpl. lia.
  - destruct (String.prefix URLPrefix k); cbn [andb]; [|simpl; lia].
    destruct (Z.ltb_spec count limit); [|simpl; lia].
    destruct (unmarshalTask v); [|simpl; lia].
    etrans; [apply IH|]. rewrite length_app. simpl. lia.
Qed.

Lemma scanURLs_nothing (limit : Z) (entries : list (string * Bytes)) (count : Z)
  (acc : list URLTask) :
  limit <= count -> Badger.scanURLs entries count limit acc = (acc, true).
Proof.
  intros Hle. destruct entries as [|[k v] rest]; [done|]. cbn [Badger.scanURLs].
  destruct (Z.ltb_spec count limit); [lia|]. by rewrite andb_false_r.
Qed.

(** The scan up to a value that does not decode. *)
Lemma scanURLs_undecodable (limit : Z) (pre : list (string * Bytes)) :
  forall (rest : list (string * Bytes)) (k : string) (v : Bytes)
         (tasks acc : list URLTask) (count : Z),
    Forall (fun e => in_backlog e = true) pre ->
    Forall2 (fun e t => unmarshalTask (snd e) = Some t) pre tasks ->
    count + Z.of_nat (length pre) < limit ->
    String.prefix URLPrefix k = true ->
    unmarshalTask v = None ->
    Badger.scanURLs (pre ++ (k, v) :: rest) count limit acc = (acc ++ tasks, false).
Proof.
  induction pre as [|[k0 v0] pre IH]; intros rest k v tasks acc count Hp Hd Hlt Hk Hv.
  - apply Forall2_nil_inv_l in Hd as ->. cbn [app Badger.scanURLs].
    rewrite Hk, Hv. cbn [andb]. simpl in Hlt.
    destruct (Z.ltb_spec count limit); [|lia]. by rewrite app_nil_r.
  - apply Forall2_cons_inv_l in Hd as (t0 & tasks' & Ht0 & Hd & ->).
    apply Forall_cons in Hp as [Hp0 Hp].
    unfold in_backlog in Hp0. cbn [fst snd] in Hp0, Ht0.
    cbn [app Badger.scanURLs]. rewrite Hp0, Ht0. cbn [andb].
    cbn [length] in Hlt.
    destruct (Z.ltb_spec count limit); [|lia].
    rewrite (IH rest k v tasks' (acc ++ [t0]) (count + 1)); [|done|done|lia|done|done].
    by rewrite <- app_assoc.
Qed.

(** The scan reports an error only at a value that does not decode. *)
Lemma scanURLs_error (limit : Z) (entries : list (string * Bytes)) :
  forall (count : Z) (acc : list URLTask),
    snd (Badger.scanURLs entries count limit acc) = false ->
    exists e : string * Bytes,
      e ∈ entries /\ in_backlog e = true /\ unmarshalTask (snd e) = None.
Proof.
  induction entries as [|[k v] rest IH]; intros count acc; cbn [Badger.scanURLs];
    [done|].
  destruct (String.prefix URLPrefix k) eqn:Hp; cbn [andb]; [|done].
  destruct (count <? limit); [|done].
  destruct (unmarshalTask v) as [t0|] eqn:Hd.
  - intros He. apply IH in He as (e & He & Hb & Hde).
    exists e. split; [by right|done].
  - intros _. exists (k, v). split; [by left|done].
Qed.

(** X8.  [GetURLs] at its edges, on any store: a limit of zero or less
    returns no task and deletes nothing; a value that does not decode,
    met by the scan before the limit is reached, makes the call report
    an error and delete nothing, the tasks read up to that point still
    being returned; an error is reported in no other case; the call
    never returns more than [limit] tasks, and never touches the results
    database or the counters. *)
Theorem GetURLs_edge_cases (s : BadgerStorage) (limit : Z) :
  (limit <= 0 -> Badger.GetURLs s limit = ([], true, s)) /\
  (forall (pre rest : list (string * Bytes)) (k : string) (v : Bytes)
          (tasks : list URLTask),
     db_seek URLPrefix (urlDB s) = pre ++ (k, v) :: rest ->
     Forall (fun e => in_backlog e = true) pre ->
     Forall2 (fun e t => unmarshalTask (snd e) = Some t) pre tasks ->
     Z.of_nat (length pre) < limit ->
     String.prefix URLPrefix k = true ->
     unmarshalTask v = None ->
     Badger.GetURLs s limit = (tasks, false, s)) /\
  (snd (fst (Badger.GetURLs s limit)) = false ->
   snd (Badger.GetURLs s limit) = s /\
   exists e : string * Bytes,
     e ∈ urlDB s /\ in_backlog e = true /\ unmarshalTask (snd e) = None) /\
  Z.of_nat (length (fst (fst (Badger.GetURLs s limit)))) <= Z.max 0 limit /\
  resultsDB (snd (Badger.GetURLs s limit)) = resultsDB s /\
  metrics (snd (Badger.GetURLs s limit)) = metrics s.
Proof.
  split; [|split; [|split; [|split; [|split]]]].
  - intros Hle. unfold Badger.GetURLs. by rewrite scanURLs_nothing.
  - intros pre rest k v tasks Hseek Hp Hd Hlt Hk Hv. unfold Badger.GetURLs.
    rewrite Hseek.
    by rewrite (scanURLs_undecodable limit pre rest k v tasks [] 0).
  - pose proof (scanURLs_error limit (db_seek URLPrefix (urlDB s)) 0 []) as Herr.
    unfold Badger.GetURLs.
    destruct (Badger.scanURLs _ _ _ _) as [tasks ok]. cbn [snd] in Herr.
    destruct ok; [cbn [andb]; by destruct (0 <? _)|].
    cbn [andb fst snd]. intros _. split; [done|].
    destruct (Herr eq_refl) as (e & He & Hb & Hd).
    exists e. split; [by apply (seek_incl URLPrefix)|done].
  - pose proof (scanURLs_length limit (db_seek URLPrefix (urlDB s)) 0 []) as Hl.
    unfold Badger.GetURLs.
    destruct (Badger.scanURLs _ _ _ _) as [tasks ok]. cbn [fst] in Hl.
    destruct (ok && _); cbn [fst]; simpl in Hl; lia.
  - unfold Badger.GetURLs.
    destruct (Badger.scanURLs _ _ _ _) as [tasks ok].
    by destruct (ok && _).
  - unfold Badger.GetURLs.
    destruct (Badger.scanURLs _ _ _ _) as [tasks ok].
    by destruct (ok && _).
Qed.

End FetchEdges.

Lemma GetURLs_edge_cases_witness :
  @Badger.GetURLs plainCodec x_damaged_store 5 = ([x_backlog_a], false, x_damaged_store).
Proof.
  pose proof (@GetURLs_edge_cases plainCodec x_damaged_store 5) as (_ & Hbad & _).
  apply (Hbad [("url:https://c.example/a"%string,
                StoredTask x_backlog_a : @Bytes plainCodec)]
              [("url:https://c.example/c"%string,
                StoredTask x_backlog_b : @Bytes plainCodec)]
              "url:https://c.example/b"%string
              (StoredMetrics zeroMetrics : @Bytes plainCodec)
              [x_backlog_a]).
  - reflexivity.
  - repeat constructor.
  - repeat constructor.
  - simpl. lia.
  - reflexivity.
  - reflexivity.
Defined.

(** ** The metrics record and restart *)

Lemma db_get_set_eq {V : Type} (k : string) (v : V) (db : list (string * V)) :
  db_get k (db_set k v db) = Some v.
Proof.
  induction db as [|[k' v'] rest IH]; simpl.
  - by rewrite String.eqb_refl.
  - destruct (String.compare k k') eqn:Hc; simpl.
    + by rewrite String.eqb_refl.
    + by rewrite String.eqb_refl.
    + destruct (String.eqb_spec k' k) as [->|Hne]; [|done].
      by rewrite compare_refl in Hc.
Qed.

Lemma db_get_set_ne {V : Type} (k k0 : string) (v : V) (db : list (string * V)) :
  k <> k0 -> db_get k0 (db_set k v db) = db_get k0 db.
Proof.
  intros Hne. induction db as [|[k' v'] rest IH]; simpl.
  - by destruct (String.eqb_spec k k0).
  - destruct (String.compare k k') eqn:Hc; simpl.
    + apply compare_Eq_eq in Hc as <-. by destruct (String.eqb_spec k k0).
    + by destruct (String.eqb_spec k k0).
    + by rewrite IH.
Qed.

Lemma db_get_filter {V : Type} (f : string * V -> bool) (k0 : string)
  (db : list (string * V)) :
  (forall v : V, f (k0, v) = true) ->
  db_get k0 (List.filter f db) = db_get k0 db.
Proof.
  intros Hf. induction db as [|[k' v'] rest IH]; [done|]. cbn [List.filter].
  destruct (f (k', v')) eqn:Hfe; simpl.
  - by rewrite IH.
  - destruct (String.eqb_spec k' k0) as [->|Hne]; [|done]. by rewrite Hf in Hfe.
Qed.

Lemma filter_db_set {V : Type} (f : string * V -> bool) (k : string) (v : V)
  (db : list (string * V)) :
  (forall v' : V, f (k, v') = false) ->
  List.filter f (db_set k v db) = List.filter f db.
Proof.
  intros Hf. induction db as [|[k' v'] rest IH]; simpl.
  - by rewrite Hf.
  - destruct (String.compare k k') eqn:Hc; simpl.
    + apply compare_Eq_eq in Hc as <-. by rewrite !Hf.
    + by rewrite Hf.
    + by rewrite IH.
Qed.

Section Restart.
Context `{Codec} `{!MetricsDecoder}.

Lemma saveMetrics_backlog (s : BadgerStorage) :
  backlog (Badger.saveMetrics s) = backlog s.
Proof. unfold backlog. cbn. by apply filter_db_set. Qed.

(** X9.  Counters and backlog survive a restart: a store that is closed
    (which saves the metrics under the key ["metrics"] of the URL
    database, a write taken to commit) and opened again on the same two
    databases comes back with the counters it had, the same backlog and
    the same results; a database that holds no metrics record opens with
    all counters at zero. *)
Theorem close_then_open_restores (s : BadgerStorage) :
  let s' := Badger.Open (urlDB (Badger.Close s)) (resultsDB (Badger.Close s)) in
  metrics s' = metrics s /\
  backlog s' = backlog s /\
  backlog_tasks s' = backlog_tasks s /\
  resultsDB s' = resultsDB s /\
  (forall urls results : list (string * Bytes),
     db_get MetricsKey urls = None ->
     Badger.Open urls results =
       {| urlDB := urls; resultsDB := results; metrics := zeroMetrics |}).
Proof.
  intros s'.
  assert (Hs' : s' = {| urlDB := urlDB (Badger.saveMetrics s);
                        resultsDB := resultsDB s; metrics := metrics s |}).
  { unfold s', Badger.Open, Badger.loadMetrics, Badger.Close.
    cbn [urlDB resultsDB metrics Badger.saveMetrics].
    rewrite db_get_set_eq. by rewrite unmarshalInto_marshalMetrics. }
  assert (Hb : backlog s' = backlog s).
  { rewrite Hs'. unfold backlog. cbn [urlDB]. apply saveMetrics_backlog. }
  rewrite Hs' at 1 4. split; [done|]. split; [exact Hb|].
  split; [unfold backlog_tasks; by rewrite Hb|]. split; [done|].
  intros urls results Hn. unfold Badger.Open, Badger.loadMetrics. cbn [urlDB].
  by rewrite Hn.
Qed.

(** X10.  The two uses of the URL database do not disturb each other:
    storing a task and fetching tasks leave the metrics record as it
    is, and saving the metrics changes neither the backlog nor, on a
    well-formed store, what [GetURLs] and [countURLsInDB] return. *)
Theorem metrics_record_and_backlog_are_separate (s : BadgerStorage) (t : URLTask)
  (ok : bool) (limit : Z) :
  db_get MetricsKey (urlDB (fst (Badger.StoreURL s t ok))) = db_get MetricsKey (urlDB s) /\
  db_get MetricsKey (urlDB (snd (Badger.GetURLs s limit))) = db_get MetricsKey (urlDB s) /\
  db_get MetricsKey (urlDB (Badger.saveMetrics s)) = Some (marshalMetrics (metrics s)) /\
  backlog (Badger.saveMetrics s) = backlog s /\
  (storage_wf s ->
   fst (Badger.GetURLs (Badger.saveMetrics s) limit) = fst (Badger.GetURLs s limit) /\
   Badger.countURLsInDB (Badger.saveMetrics s) = Badger.countURLsInDB s).
Proof.
  split; [|split; [|split; [|split]]].
  - unfold Badger.StoreURL. destruct ok; [|done]. cbn [fst urlDB].
    apply db_get_set_ne. unfold URLPrefix, MetricsKey. simpl. discriminate.
  - unfold Badger.GetURLs.
    destruct (Badger.scanURLs _ _ _ _) as [tasks okk].
    destruct (okk && _); [|done]. cbn [snd Badger.deleteURLsBatch urlDB].
    rewrite delete_tasks_filter. apply db_get_filter. intros v. cbn [fst].
    apply negb_true_iff, bool_decide_eq_false. intros Hin.
    apply list_elem_of_fmap in Hin as (t0 & Hk & _).
    unfold task_key, URLPrefix, MetricsKey in Hk. simpl in Hk. discriminate Hk.
  - cbn. apply db_get_set_eq.
  - apply saveMetrics_backlog.
  - intros Hwf.
    assert (Hwf' : storage_wf (Badger.saveMetrics s)) by by apply saveMetrics_wf.
    destruct (GetURLs_spec s limit Hwf) as (s1 & -> & _).
    destruct (GetURLs_spec (Badger.saveMetrics s) limit Hwf') as (s2 & -> & _).
    cbn [fst]. split.
    + unfold backlog_tasks. by rewrite saveMetrics_backlog.
    + rewrite (countURLsInDB_backlog _ (proj1 Hwf')).
      rewrite (countURLsInDB_backlog _ (proj1 Hwf)).
      by rewrite saveMetrics_backlog.
Qed.

End Restart.

Lemma close_then_open_restores_witness :
  EmailsFound (@metrics plainCodec x_used_store) = 2 /\
  @metrics plainCodec
    (@Badger.Open plainCodec plainDecoder
       (@urlDB plainCodec (@Badger.Close plainCodec x_used_store))
       (@resultsDB plainCodec (@Badger.Close plainCodec x_used_store)))
    = @metrics plainCodec x_used_store /\
  @backlog_tasks plainCodec
    (@Badger.Open plainCodec plainDecoder
       (@urlDB plainCodec (@Badger.Close plainCodec x_used_store))
       (@resultsDB plainCodec (@Badger.Close plainCodec x_used_store)))
    = [x_backlog_a; x_backlog_b].
Proof.
  split; [vm_compute; reflexivity|].
  destruct (@close_then_open_restores plainCodec plainDecoder x_used_store)
    as (Hm & _ & Hb & _).
  split; [exact Hm|]. rewrite Hb. vm_compute. reflexivity.
Defined.

Lemma metrics_record_and_backlog_are_separate_witness :
  @storage_wf plainCodec x_store /\
  fst (@Badger.GetURLs plainCodec (@Badger.saveMetrics plainCodec x_store) 5)
    = fst (@Badger.GetURLs plainCodec x_store 5) /\
  fst (fst (@Badger.GetURLs plainCodec x_store 5)) = [x_backlog_a; x_backlog_b] /\
  @db_get (@Bytes plainCodec) MetricsKey
    (@urlDB plainCodec
       (snd (@Badger.GetURLs plainCodec (@Badger.saveMetrics plainCodec x_store) 5)))
    = Some (StoredMetrics zeroMetrics).
Proof.
  split; [exact x_store_wf|].
  destruct (@metrics_record_and_backlog_are_separate plainCodec x_store x_backlog_a
              true 5) as (_ & _ & _ & _ & Hwf).
  destruct (Hwf x_store_wf) as [Hg _].
  split; [exact Hg|]. split; vm_compute; reflexivity.
Defined.

(** ** Results stored under one key *)

Section Collision.
Context `{Codec}.

(** X11.  Result keys are [result:<URL>_<unix second>], so two results
    for the same URL stamped within the same second share a key: the
    second write replaces the first record, while the counters of the
    store count both.  (The dead-link worker stores every finding under
    the URL of the page it came from.) *)
Theorem results_in_one_second_overwrite (s : BadgerStorage) (r1 r2 : CrawlResult.t) :
  CrawlResult.URL r1 = CrawlResult.URL r2 ->
  Unix (CrawlResult.ProcessedAt r1) = Unix (CrawlResult.ProcessedAt r2) ->
  let s1 := fst (Badger.StoreResult s r1 true) in
  let s2 := fst (Badger.StoreResult s1 r2 true) in
  resultsDB s2 = resultsDB (fst (Badger.StoreResult s r2 true)) /\
  (db_sorted (resultsDB s) -> marshalResult r1 <> marshalResult r2 ->
   (Badger.resultKey r1, marshalResult r1) ∈ resultsDB s1 /\
   (Badger.resultKey r1, marshalResult r1) ∉ resultsDB s2) /\
  URLsProcessed (metrics s2) = add64 (add64 (URLsProcessed (metrics s)) 1) 1 /\
  DeadLinksFound (metrics s2) =
    Badger.bump (length (CrawlResult.DeadLinks r2))
      (Badger.bump (length (CrawlResult.DeadLinks r1)) (DeadLinksFound (metrics s))).
Proof.
  intros Hu Ht s1 s2.
  assert (Hk : Badger.resultKey r1 = Badger.resultKey r2).
  { unfold Badger.resultKey. by rewrite Hu, Ht. }
  assert (Hdb : resultsDB s2 = resultsDB (fst (Badger.StoreResult s r2 true))).
  { unfold s2, s1, Badger.StoreResult. cbn [fst resultsDB]. rewrite Hk.
    apply db_set_set. }
  split; [exact Hdb|]. split; [|done].
  intros Hs Hne. split; [apply db_set_elem|].
  rewrite Hdb. unfold Badger.StoreResult. cbn [fst resultsDB]. rewrite Hk.
  intros Hin. apply db_set_keeps_others in Hin as [He|[_ Hkne]].
  - by injection He.
  - by apply Hkne.
Qed.

End Collision.

Lemma results_in_one_second_overwrite_witness :
  CrawlResult.URL x_dead1 = CrawlResult.URL x_dead2 /\
  Unix (CrawlResult.ProcessedAt x_dead1) = Unix (CrawlResult.ProcessedAt x_dead2) /\
  snd <$> @resultsDB plainCodec
            (fst (@Badger.StoreResult plainCodec
                    (fst (@Badger.StoreResult plainCodec (@Badger.New plainCodec)
                            x_dead1 true))
                    x_dead2 true))
    = [StoredResult x_dead2] /\
  DeadLinksFound
    (@metrics plainCodec
       (fst (@Badger.StoreResult plainCodec
               (fst (@Badger.StoreResult plainCodec (@Badger.New plainCodec)
                       x_dead1 true))
               x_dead2 true))) = 2.
Proof.
  split; [reflexivity|]. split; [reflexivity|].
  destruct (@results_in_one_second_overwrite plainCodec (@Badger.New plainCodec)
              x_dead1 x_dead2 eq_refl eq_refl) as (Hdb & _ & _ & Hd).
  split; [rewrite Hdb; vm_compute; reflexivity|].
  rewrite Hd. vm_compute. reflexivity.
Defined.

(** ** What the counters of the two stores mean *)

Lemma sum_over_ones (rs : list CrawlResult.t) :
  sum_over (fun _ => Z.of_nat 1) rs = Z.of_nat (length rs).
Proof.
  unfold sum_over. induction rs as [|r rs IH]; [done|].
  cbn [fold_right length]. rewrite IH. lia.
Qed.

Lemma sum_over_indicator (f : CrawlResult.t -> bool) (rs : list CrawlResult.t) :
  sum_over (fun r => Z.of_nat (if f r then 1 else 0)) rs = count_where f rs.
Proof.
  unfold count_where, sum_over. induction rs as [|r rs IH]; [done|].
  cbn [fold_right List.filter]. rewrite IH. destruct (f r); cbn [length]; lia.
Qed.

Section StoreCounters.
Context `{Codec}.

(** X12.  The counters of a Badger store that started empty describe
    exactly the results whose write committed: [URLsProcessed] is their
    number, [Errors] the number of those with a non-empty error text,
    [EmailsFound], [DeadLinksFound] and [DeadDomainsFound] the total
    lengths of the respective lists (all as [int64]).  A result whose
    write failed leaves no trace in any counter, and the gauges
    ([URLsInQueue], [URLsInDB], [ActiveWorkers]) and [LinksChecked] stay
    at zero. *)
Theorem store_counters_describe_committed_results (rs : list (CrawlResult.t * bool)) :
  let m := metrics (storeAll Badger.New rs) in
  URLsProcessed m = wrap64 (Z.of_nat (length (persisted rs))) /\
  Errors m =
    wrap64 (count_where (fun r => negb (String.eqb (CrawlResult.Error r) ""))
                        (persisted rs)) /\
  EmailsFound m =
    wrap64 (sum_over (fun r => Z.of_nat (length (CrawlResult.Emails r))) (persisted rs)) /\
  DeadLinksFound m =
    wrap64 (sum_over (fun r => Z.of_nat (length (CrawlResult.DeadLinks r)))
                     (persisted rs)) /\
  DeadDomainsFound m =
    wrap64 (sum_over (fun r => Z.of_nat (length (CrawlResult.DeadDomains r)))
                     (persisted rs)) /\
  URLsInQueue m = 0 /\ URLsInDB m = 0 /\ LinksChecked m = 0 /\ ActiveWorkers m = 0.
Proof.
  intros m. subst m. split; [|split; [|split; [|split; [|split]]]].
  - rewrite (storeAll_counter (fun _ => 1%nat) URLsProcessed); [|done|done].
    by rewrite sum_over_ones.
  - rewrite (storeAll_counter
               (fun r => if negb (String.eqb (CrawlResult.Error r) "") then 1%nat else 0%nat)
               Errors); [|intros s r; cbn; by destruct (String.eqb _ _)|done].
    by rewrite sum_over_indicator.
  - apply store_counts_emails.
  - apply store_counts_dead_links.
  - apply store_counts_dead_domains.
  - assert (Hfix : forall s : BadgerStorage,
              URLsInQueue (metrics s) = 0 /\ URLsInDB (metrics s) = 0 /\
              LinksChecked (metrics s) = 0 /\ ActiveWorkers (metrics s) = 0 ->
              URLsInQueue (metrics (storeAll s rs)) = 0 /\
              URLsInDB (metrics (storeAll s rs)) = 0 /\
              LinksChecked (metrics (storeAll s rs)) = 0 /\
              ActiveWorkers (metrics (storeAll s rs)) = 0).
    { induction rs as [|[r ok] rs IH]; intros s Hs; [done|].
      unfold storeAll. cbn [fold_left fst snd].
      apply IH. unfold Badger.StoreResult. by destruct ok. }
    by apply Hfix.
Qed.

Lemma fileStoreAll_spec (rs : list (CrawlResult.t * bool)) :
  forall s : FastFileStorage,
    let s' := fileStoreAll s rs in
    resultsLines s' = resultsLines s ++ (marshalResult <$> persisted rs) /\
    urlsLines s' = urlsLines s /\
    (int64_min <= URLsProcessed (fileMetrics s) <= int64_max ->
     URLsProcessed (fileMetrics s') =
       wrap64 (URLsProcessed (fileMetrics s) + Z.of_nat (length (persisted rs)))) /\
    DeadLinksFound (fileMetrics s') = DeadLinksFound (fileMetrics s) /\
    DeadDomainsFound (fileMetrics s') = DeadDomainsFound (fileMetrics s) /\
    Errors (fileMetrics s') = Errors (fileMetrics s).
Proof.
  induction rs as [|[r ok] rs IH]; intros s.
  - cbn. rewrite app_nil_r, Z.add_0_r.
    split; [done|]. split; [done|]. split; [|done].
    intros Hr. by rewrite wrap64_id.
  - unfold fileStoreAll. cbn [fold_left fst snd].
    fold (fileStoreAll (fst (FastFile.StoreResult s r ok)) rs).
    destruct (IH (fst (FastFile.StoreResult s r ok))) as (I1 & I2 & I3 & I4 & I5 & I6).
    cbv zeta. rewrite I1, I2, I4, I5, I6. rewrite persisted_cons.
    unfold FastFile.StoreResult in *. destruct ok; cbn [fst resultsLines urlsLines
      fileMetrics DeadLinksFound DeadDomainsFound Errors URLsProcessed] in *.
    + split; [by rewrite <- app_assoc|]. split; [done|]. split; [|done].
      intros Hr. rewrite I3 by apply wrap64_range.
      unfold add64. rewrite wrap64_add_l. f_equal. cbn [length]. lia.
    + done.
Qed.

(** X13.  The file store is an append-only log: after a run of
    [StoreResult] calls the results file holds what it held before
    followed by one line per successfully written result, in call order,
    and the URLs file is untouched.  A fresh file store counts the
    written results in [URLsProcessed], but it never counts dead links,
    dead domains or errors, whatever the results carry. *)
Theorem file_store_appends_in_order (rs : list (CrawlResult.t * bool))
  (s : FastFileStorage) :
  resultsLines (fileStoreAll s rs) = resultsLines s ++ (marshalResult <$> persisted rs) /\
  urlsLines (fileStoreAll s rs) = urlsLines s /\
  DeadLinksFound (fileMetrics (fileStoreAll s rs)) = DeadLinksFound (fileMetrics s) /\
  DeadDomainsFound (fileMetrics (fileStoreAll s rs)) = DeadDomainsFound (fileMetrics s) /\
  Errors (fileMetrics (fileStoreAll s rs)) = Errors (fileMetrics s) /\
  URLsProcessed (fileMetrics (fileStoreAll FastFile.New rs)) =
    wrap64 (Z.of_nat (length (persisted rs))).
Proof.
  destruct (fileStoreAll_spec rs s) as (I1 & I2 & _ & I4 & I5 & I6).
  destruct (fileStoreAll_spec rs FastFile.New) as (_ & _ & I3 & _).
  repeat (split; [done|]). rewrite I3; [done|]. cbn. unfold int64_min, int64_max. lia.
Qed.

End StoreCounters.

(** ** The robots cache *)

Section RobotsCache.
Context `{RobotsTxt}.

Lemma fromResponse_cache (r : RobotsChecker) (domain : string) (resp : HTTPResponse) :
  cache (snd (Robots.fromResponse r domain resp)) =
    <[domain := fst (Robots.fromResponse r domain resp)]> (cache r) /\
  robotsRequests (snd (Robots.fromResponse r domain resp)) = robotsRequests r.
Proof.
  unfold Robots.fromResponse. destruct (negb _); [done|].
  by destruct (FromResponse resp).
Qed.

(** What one call of [getRobots] leaves behind. *)
Lemma getRobots_spec (E : Oracle) (r : RobotsChecker) (domain : string) :
  let https := ("https://" ++ domain ++ "/robots.txt")%string in
  let http := ("http://" ++ domain ++ "/robots.txt")%string in
  let res := Robots.getRobots E r domain in
  cache (snd res) !! domain = Some (fst res) /\
  (forall d : string, d <> domain -> cache (snd res) !! d = cache r !! d) /\
  (cache r !! domain <> None -> res = (default None (cache r !! domain), r)) /\
  (cache r !! domain = None ->
   robotsRequests (snd res) =
     robotsRequests r ++
       match robotsGet E https with Some _ => [https] | None => [https; http] end).
Proof.
  intros https http res. subst res. unfold Robots.getRobots.
  fold https. fold http.
  destruct (cache r !! domain) as [c|] eqn:Hc; cbn [fst snd default].
  - repeat split; done.
  - destruct (robotsGet E https) as [resp|].
    + destruct (fromResponse_cache (Robots.request r https) domain resp) as [-> ->].
      cbn [cache robotsRequests Robots.request].
      split; [by rewrite lookup_insert_eq|]. split; [|done].
      intros d Hd. by rewrite lookup_insert_ne.
    + destruct (robotsGet E http) as [resp|].
      * destruct (fromResponse_cache
                    (Robots.request (Robots.request r https) http) domain resp)
          as [-> ->].
        cbn [cache robotsRequests Robots.request].
        split; [by rewrite lookup_insert_eq|]. split; [|split; [done|]].
        -- intros d Hd. by rewrite lookup_insert_ne.
        -- intros _. by rewrite <- app_assoc.
      * cbn [fst snd cache robotsRequests Robots.request Robots.cacheRobots].
        split; [by rewrite lookup_insert_eq|]. split; [|split; [done|]].
        -- intros d Hd. by rewrite lookup_insert_ne.
        -- intros _. by rewrite <- app_assoc.
Qed.

(** X14.  The rules of a host are asked for once.  A first lookup sends
    the HTTPS request and, only if that exchange fails, the HTTP one;
    whatever comes of it (rules, or nil for a failure, a non-200 answer
    or an unparsable body) is cached under the host, other hosts'
    entries being left alone.  Every later lookup of that host, whatever
    the network does by then, returns the cached value and sends
    nothing; this covers [GetCrawlDelay] and [GetSitemaps], which share
    the cache. *)
Theorem robots_rules_are_fetched_once (E E' : Oracle) (r : RobotsChecker)
  (domain userAgent : string) :
  let https := ("https://" ++ domain ++ "/robots.txt")%string in
  let http := ("http://" ++ domain ++ "/robots.txt")%string in
  let res := Robots.getRobots E r domain in
  Robots.getRobots E' (snd res) domain = res /\
  (forall d : string, d <> domain -> cache (snd res) !! d = cache r !! d) /\
  (robotsRequests (snd res) = robotsRequests r \/
   robotsRequests (snd res) = robotsRequests r ++ [https] \/
   (robotsGet E https = None /\
    robotsRequests (snd res) = robotsRequests r ++ [https; http])) /\
  snd (Robots.GetCrawlDelay E' (snd res) userAgent domain) = snd res /\
  snd (Robots.GetSitemaps E' (snd res) domain) = snd res.
Proof.
  intros https http res.
  destruct (getRobots_spec E r domain) as (Hc & Ho & Hhit & Hmiss).
  fold res in Hc, Ho, Hhit, Hmiss. fold https http in Hmiss.
  assert (Hagain : Robots.getRobots E' (snd res) domain = res).
  { unfold Robots.getRobots at 1. rewrite Hc. by destruct res. }
  split; [exact Hagain|]. split; [exact Ho|]. split.
  - destruct (cache r !! domain) as [c|] eqn:Hcd.
    + left. rewrite Hhit by done. done.
    + right. rewrite Hmiss by done.
      destruct (robotsGet E https); [by left|by right].
  - unfold Robots.GetCrawlDelay, Robots.GetSitemaps. rewrite Hagain.
    destruct res as [[robots|] r']; cbn [snd]; [|done].
    by destruct (Robots.findGroup robots userAgent).
Qed.

End RobotsCache.

(** ** The extractor's caches and channel *)

Lemma cacheDomainStatus_spec (e : ContentExtractor) (d : string) (b : bool) :
  let e' := Extractor.cacheDomainStatus e d b in
  deadDomainCache e' !! d = Some b /\
  (Z.of_nat (size (deadDomainCache e)) <= 1001 ->
   Z.of_nat (size (deadDomainCache e')) <= 1001) /\
  deadLinkCache e' = deadLinkCache e /\ linkQueue e' = linkQueue e /\
  probes e' = probes e.
Proof.
  unfold Extractor.cacheDomainStatus.
  cbn [deadDomainCache deadLinkCache linkQueue probes].
  split; [by rewrite lookup_insert_eq|]. split; [|done].
  intros Hb. rewrite map_size_insert.
  destruct (1000 <? size (deadDomainCache e))%nat eqn:Hc.
  - rewrite lookup_empty, map_size_empty. lia.
  - apply Nat.ltb_ge, Nat2Z.inj_le in Hc.
    assert (Hz : Z.of_nat 1000 = 1000) by (vm_compute; reflexivity).
    rewrite Hz in Hc. destruct (deadDomainCache e !! d); unfold id; lia.
Qed.

Lemma cacheDeadLink_spec (e : ContentExtractor) (u : string) (b : bool) :
  let e' := Extractor.cacheDeadLink e u b in
  deadLinkCache e' !! u = Some b /\
  (Z.of_nat (size (deadLinkCache e)) <= 5001 ->
   Z.of_nat (size (deadLinkCache e')) <= 5001) /\
  deadDomainCache e' = deadDomainCache e /\ linkQueue e' = linkQueue e /\
  probes e' = probes e.
Proof.
  unfold Extractor.cacheDeadLink.
  cbn [deadDomainCache deadLinkCache linkQueue probes].
  split; [by rewrite lookup_insert_eq|]. split; [|done].
  intros Hb. rewrite map_size_insert.
  destruct (5000 <? size (deadLinkCache e))%nat eqn:Hc.
  - rewrite lookup_empty, map_size_empty. lia.
  - apply Nat.ltb_ge, Nat2Z.inj_le in Hc.
    assert (Hz : Z.of_nat 5000 = 5000) by (vm_compute; reflexivity).
    rewrite Hz in Hc. destruct (deadLinkCache e !! u); unfold id; lia.
Qed.

Lemma isDomainDead_spec (E : Oracle) (e : ContentExtractor) (d : string) :
  let res := Extractor.isDomainDead E e d in
  deadDomainCache (snd res) !! d = Some (fst res) /\
  (Z.of_nat (size (deadDomainCache e)) <= 1001 ->
   Z.of_nat (size (deadDomainCache (snd res))) <= 1001) /\
  deadLinkCache (snd res) = deadLinkCache e /\ linkQueue (snd res) = linkQueue e /\
  (probes (snd res) = probes e \/
   (deadDomainCache e !! d = None /\
    probes (snd res) = probes e ++ [("https://" ++ d)%string])).
Proof.
  unfold Extractor.isDomainDead.
  destruct (deadDomainCache e !! d) as [c|] eqn:Hc; cbn [fst snd].
  - split; [done|]. split; [done|]. split; [done|]. split; [done|]. by left.
  - destruct (headDo E _) as [msg|msg|resp]; cbn [fst snd];
      match goal with
      | |- context [Extractor.cacheDomainStatus ?e0 d ?b] =>
          destruct (cacheDomainStatus_spec e0 d b) as (S1 & S2 & S3 & S4 & S5)
      end;
      cbv zeta in *; rewrite S3, S4, S5;
      (split; [exact S1|]); (split; [exact S2|]); (split; [done|]);
      (split; [done|]); [by left|by right|by right].
Qed.

Lemma isDeadLinkFast_spec (E : Oracle) (e : ContentExtractor) (u : string) :
  let res := Extractor.isDeadLinkFast E e u in
  deadLinkCache (snd res) !! u = Some (fst res) /\
  (Z.of_nat (size (deadLinkCache e)) <= 5001 ->
   Z.of_nat (size (deadLinkCache (snd res))) <= 5001) /\
  deadDomainCache (snd res) = deadDomainCache e /\ linkQueue (snd res) = linkQueue e /\
  (probes (snd res) = probes e \/
   (deadLinkCache e !! u = None /\ probes (snd res) = probes e ++ [u])).
Proof.
  unfold Extractor.isDeadLinkFast.
  destruct (deadLinkCache e !! u) as [c|] eqn:Hc; cbn [fst snd].
  - split; [done|]. split; [done|]. split; [done|]. split; [done|]. by left.
  - destruct (headDo E _) as [msg|msg|resp]; cbn [fst snd];
      match goal with
      | |- context [Extractor.cacheDeadLink ?e0 u ?b] =>
          destruct (cacheDeadLink_spec e0 u b) as (S1 & S2 & S3 & S4 & S5)
      end;
      cbv zeta in *; rewrite S3, S4, S5;
      (split; [exact S1|]); (split; [exact S2|]); (split; [done|]);
      (split; [done|]); [by left|by right|by right].
Qed.

(** X15.  A verdict is probed for once: after [isDomainDead] (or
    [isDeadLinkFast]) has answered for a host (a URL), asking again
    gives the same answer from the cache and sends no HEAD request,
    whatever the network would say by then.  A first call sends at most
    one HEAD request, to [https://<host>] (to the URL itself). *)
Theorem dead_verdicts_are_probed_once (E E' : Oracle) (e : ContentExtractor)
  (x : string) :
  let rd := Extractor.isDomainDead E e x in
  let rl := Extractor.isDeadLinkFast E e x in
  Extractor.isDomainDead E' (snd rd) x = rd /\
  Extractor.isDeadLinkFast E' (snd rl) x = rl /\
  (probes (snd rd) = probes e \/
   probes (snd rd) = probes e ++ [("https://" ++ x)%string]) /\
  (probes (snd rl) = probes e \/ probes (snd rl) = probes e ++ [x]) /\
  (deadDomainCache e !! x <> None -> rd = (default false (deadDomainCache e !! x), e)) /\
  (deadLinkCache e !! x <> None -> rl = (default false (deadLinkCache e !! x), e)).
Proof.
  intros rd rl.
  destruct (isDomainDead_spec E e x) as (D1 & _ & _ & _ & D5).
  destruct (isDeadLinkFast_spec E e x) as (L1 & _ & _ & _ & L5).
  fold rd in D1, D5. fold rl in L1, L5.
  split; [|split; [|split; [|split; [|split]]]].
  - unfold Extractor.isDomainDead at 1. rewrite D1. by destruct rd.
  - unfold Extractor.isDeadLinkFast at 1. rewrite L1. by destruct rl.
  - destruct D5 as [?|[_ ?]]; [by left|by right].
  - destruct L5 as [?|[_ ?]]; [by left|by right].
  - subst rd. unfold Extractor.isDomainDead.
    by destruct (deadDomainCache e !! x).
  - subst rl. unfold Extractor.isDeadLinkFast.
    by destruct (deadLinkCache e !! x).
Qed.

Lemma extractor_bounded_New : extractor_bounded Extractor.New.
Proof.
  unfold extractor_bounded, Extractor.New. cbn.
  rewrite !map_size_empty. unfold linkQueueCap. lia.
Qed.

Lemma CheckDeadLinks_bounded (E : Oracle) (e : ContentExtractor) (links : list string)
  (sourceURL : string) :
  extractor_bounded e ->
  extractor_bounded (snd (Extractor.CheckDeadLinks E e links sourceURL)).
Proof.
  intros (B1 & B2 & B3). unfold Extractor.CheckDeadLinks. cbn [snd].
  destruct (queueLinks_spec (Extractor.sampleLinks E links (2 # 10)) sourceURL e)
    as (Q1 & _ & Q3 & Q4).
  cbv zeta in *. unfold extractor_bounded. rewrite Q1, Q3, Q4.
  split; [done|]. split; [done|]. rewrite length_app, length_take. lia.
Qed.

Lemma isDomainDead_bounded (E : Oracle) (e : ContentExtractor) (d : string) :
  extractor_bounded e -> extractor_bounded (snd (Extractor.isDomainDead E e d)).
Proof.
  intros (B1 & B2 & B3).
  destruct (isDomainDead_spec E e d) as (_ & S2 & S3 & S4 & _). cbv zeta in *.
  unfold extractor_bounded. rewrite S3, S4. split; [by apply S2|done].
Qed.

Lemma isDeadLinkFast_bounded (E : Oracle) (e : ContentExtractor) (u : string) :
  extractor_bounded e -> extractor_bounded (snd (Extractor.isDeadLinkFast E e u)).
Proof.
  intros (B1 & B2 & B3).
  destruct (isDeadLinkFast_spec E e u) as (_ & S2 & S3 & S4 & _). cbv zeta in *.
  unfold extractor_bounded. rewrite S3, S4. split; [done|]. split; [by apply S2|done].
Qed.

(** X16.  The extractor's memory is bounded: starting from a fresh
    extractor, no sequence of [CheckDeadLinks], [isDomainDead] and
    [isDeadLinkFast] calls lets the domain cache grow beyond 1001
    entries, the link cache beyond 5001 entries, or the channel beyond
    its capacity of 1000 requests. *)
Theorem extractor_memory_is_bounded (E : Oracle) (e : ContentExtractor) :
  extractor_bounded e ->
  (forall (links : list string) (sourceURL : string),
     extractor_bounded (snd (Extractor.CheckDeadLinks E e links sourceURL))) /\
  (forall domainName : string,
     extractor_bounded (snd (Extractor.isDomainDead E e domainName))) /\
  (forall urlStr : string,
     extractor_bounded (snd (Extractor.isDeadLinkFast E e urlStr))).
Proof.
  intros Hb. split; [|split]; intros.
  - by apply CheckDeadLinks_bounded.
  - by apply isDomainDead_bounded.
  - by apply isDeadLinkFast_bounded.
Qed.

Lemma extractor_memory_is_bounded_witness :
  extractor_bounded Extractor.New /\
  extractor_bounded
    (snd (Extractor.isDeadLinkFast quietOracle
            (snd (Extractor.isDomainDead quietOracle
                    (snd (Extractor.CheckDeadLinks quietOracle Extractor.New
                            ["https://d.example/1"; "https://d.example/2"]%string
                            "https://d.example/"))
                    "d.example"))
            "https://d.example/1")).
Proof.
  split; [exact extractor_bounded_New|].
  pose proof (proj1 (extractor_memory_is_bounded quietOracle Extractor.New
                       extractor_bounded_New)
                ["https://d.example/1"; "https://d.example/2"]%string
                "https://d.example/") as H1.
  pose proof (proj1 (proj2 (extractor_memory_is_bounded quietOracle _ H1))
                "d.example"%string) as H2.
  exact (proj2 (proj2 (extractor_memory_is_bounded quietOracle _ H2))
           "https://d.example/1"%string).
Defined.

(** ** More on the worker *)

Lemma takeBytes_length (n : N) (s : string) :
  (N.of_nat (String.length (takeBytes n s)) <= n)%N.
Proof.
  revert n. induction s as [|c s IH]; intros n; cbn [takeBytes String.length]; [lia|].
  destruct (N.eqb_spec n 0) as [->|Hn]; cbn [String.length]; [lia|].
  specialize (IH (N.pred n)). lia.
Qed.

Lemma takeBytes_all (n : N) (s : string) :
  (N.of_nat (String.length s) <= n)%N -> takeBytes n s = s.
Proof.
  revert n. induction s as [|c s IH]; intros n Hl; cbn [takeBytes]; [done|].
  cbn [String.length] in Hl.
  destruct (N.eqb_spec n 0) as [->|Hn]; [lia|]. f_equal. apply IH. lia.
Qed.

Lemma takeBytes_prefix (n : N) (s : string) : String.prefix (takeBytes n s) s = true.
Proof.
  revert n. induction s as [|c s IH]; intros n; cbn [takeBytes]; [done|].
  destruct (N.eqb n 0); [done|]. cbn [String.prefix].
  destruct (ascii_dec c c); [apply IH|done].
Qed.

Section WorkerMore.
Context `{StdLib} `{Codec} `{RobotsTxt}.

(** X17.  What [fetchURL] hands on is bounded: the content is never
    longer than 2 MiB, it is a prefix of the body of the response that
    [client.Do] handed back (all of it when that fits, the first 2 MiB
    without any error otherwise), and it is empty whenever an error is
    returned.  When the request could not be built, [client.Do] is not
    called and the status code is 0. *)
Theorem fetchURL_content_is_bounded (E : Oracle) (url : string) (log : list string) :
  let res := App.fetchURL E url log in
  let content := fst (fst (fst res)) in
  let err := snd (fst res) in
  (N.of_nat (String.length content) <= 2097152)%N /\
  (err <> None -> content = ""%string) /\
  (forall resp : HTTPResponse,
     httpDo E url = Responded resp -> err = None ->
     content = takeBytes maxBody (respBody resp) /\
     String.prefix content (respBody resp) = true /\
     ((N.of_nat (String.length (respBody resp)) <= 2097152)%N ->
      content = respBody resp)) /\
  (forall msg : string, httpDo E url = RequestError msg -> res = (""%string, 0, Some msg, log)).
Proof.
  intros res content err. subst res content err. unfold App.fetchURL.
  destruct (httpDo E url) as [msg|msg|resp] eqn:Hdo; cbn [fst snd].
  - split; [cbn; lia|]. split; [done|]. split; [done|].
    intros ? [= <-]. done.
  - split; [cbn; lia|]. split; [done|]. done.
  - destruct (negb (String.eqb (respContentType resp) "") &&
              negb (App.isHTML (respContentType resp))); cbn [fst snd].
    + split; [cbn; lia|]. split; [done|]. split; [|done].
      intros ? _ Hd. discriminate Hd.
    + assert (Hb : forall s : string,
                App.readBody resp = inl s -> s = takeBytes maxBody (respBody resp)).
      { unfold App.readBody. intros s.
        destruct (respReadError resp) as [[at_ m]|]; [destruct (at_ <? maxBody)%N|];
          congruence. }
      destruct (App.readBody resp) as [s|m]; cbn [fst snd].
      * rewrite (Hb s eq_refl).
        split; [apply (takeBytes_length maxBody)|]. split; [done|].
        split; [|done].
        intros ? [= <-] _. split; [done|]. split; [apply takeBytes_prefix|].
        apply takeBytes_all.
      * split; [cbn; lia|]. split; [done|]. split; [|done].
        intros ? _ Hd. discriminate Hd.
Qed.

(** *** Frames of the steps of [processURL] *)

Lemma enlist_frame (E : Oracle) (w : World) (url : string) (depth : Z) :
  let w' := App.enlist E w url depth in
  BloomFilter w' = url :: BloomFilter w /\
  resultsDB (Storage w') = resultsDB (Storage w) /\
  metrics (Storage w') = metrics (Storage w) /\
  Metrics w' = Metrics w /\ Extractor_ w' = Extractor_ w /\
  Robots w' = Robots w /\ gets w' = gets w.
Proof.
  unfold App.enlist. cbn [App.set_BloomFilter URLQueue Storage].
  destruct (Queue.Push (URLQueue w) (App.mkTask E url depth)) as [q' [e|]].
  - cbn. unfold Badger.StoreURL. by destruct (commitOK E _).
  - done.
Qed.

Lemma addNewURLs_frame (E : Oracle) (depth : Z) (urls : list string) :
  forall (w : World) (acc : list string),
    let w' := snd (App.addNewURLs E w urls depth acc) in
    resultsDB (Storage w') = resultsDB (Storage w) /\
    metrics (Storage w') = metrics (Storage w) /\
    Metrics w' = Metrics w /\ Extractor_ w' = Extractor_ w /\
    Robots w' = Robots w /\ gets w' = gets w.
Proof.
  induction urls as [|url rest IH]; intros w acc; cbn [App.addNewURLs]; [done|].
  destruct (IsValidURL url); cbn [negb]; [|apply IH].
  destruct (Bloom.Test E (BloomFilter w) url); [apply IH|].
  destruct (IH (App.enlist E w url depth) (acc ++ [url])) as (I1 & I2 & I3 & I4 & I5 & I6).
  destruct (enlist_frame E w url depth) as (_ & F2 & F3 & F4 & F5 & F6 & F7).
  cbv zeta in *. rewrite I1, I2, I3, I4, I5, I6. done.
Qed.

Lemma checkLinks_result (E : Oracle) (w : World) (r : CrawlResult.t)
  (content url : string) :
  let res := App.checkLinks E w r content url in
  CrawlResult.URL (fst res) = CrawlResult.URL r /\
  CrawlResult.ProcessedAt (fst res) = CrawlResult.ProcessedAt r /\
  CrawlResult.StatusCode (fst res) = CrawlResult.StatusCode r /\
  CrawlResult.Error (fst res) = CrawlResult.Error r /\
  BloomFilter (snd res) = BloomFilter w /\ Robots (snd res) = Robots w /\
  gets (snd res) = gets w /\
  URLsProcessed (Metrics (snd res)) = URLsProcessed (Metrics w) /\
  Errors (Metrics (snd res)) = Errors (Metrics w).
Proof. done. Qed.

Lemma extract_result (c : CrawlerService) (E : Oracle) (w : World) (r : CrawlResult.t)
  (content url : string) :
  let res := App.extract c E w r content url in
  CrawlResult.URL (fst res) = CrawlResult.URL r /\
  CrawlResult.ProcessedAt (fst res) = CrawlResult.ProcessedAt r /\
  CrawlResult.StatusCode (fst res) = CrawlResult.StatusCode r /\
  CrawlResult.Error (fst res) = CrawlResult.Error r /\
  BloomFilter (snd res) = BloomFilter w /\ Robots (snd res) = Robots w /\
  gets (snd res) = gets w /\
  URLsProcessed (Metrics (snd res)) = URLsProcessed (Metrics w) /\
  Errors (Metrics (snd res)) = Errors (Metrics w) /\
  (App.shouldCheckDeadLinks c = false ->
   Extractor_ (snd res) = Extractor_ w /\
   LinksChecked (Metrics (snd res)) = LinksChecked (Metrics w)).
Proof.
  unfold App.extract, App.shouldCheckDeadLinks.
  destruct (String.eqb (mode c) "email"); [done|].
  destruct (String.eqb (mode c) "keywords"); [done|].
  destruct (String.eqb (mode c) "domains").
  { rewrite orb_true_r. cbv zeta.
    destruct (checkLinks_result E w r content url) as (?&?&?&?&?&?&?&?&?).
    repeat (split; [done|]). done. }
  destruct (String.eqb (mode c) "all"); [|done].
  rewrite orb_false_r. destruct (checkDeadDomains c); done.
Qed.

(** The shape of every run of [processURL]: some preparation, then the
    deferred [finish] on a result that still carries the task's URL and
    the start time. *)
Lemma processURL_shape (c : CrawlerService) (E : Oracle) (w : World) (t : URLTask)
  (maxDepth : Z) :
  let allowed := fst (Robots.CanFetch E (Robots w) UserAgent (URL t)) in
  let fetched := App.fetchURL E (URL t) (gets w) in
  exists (w0 : World) (r0 : CrawlResult.t),
    App.processURL c E w t maxDepth = App.finish E w0 r0 /\
    CrawlResult.URL r0 = URL t /\
    CrawlResult.ProcessedAt r0 = startTime E /\
    resultsDB (Storage w0) = resultsDB (Storage w) /\
    metrics (Storage w0) = metrics (Storage w) /\
    URLsProcessed (Metrics w0) = URLsProcessed (Metrics w) /\
    Robots w0 = snd (Robots.CanFetch E (Robots w) UserAgent (URL t)) /\
    (if allowed && rateWait E
     then gets w0 = snd fetched /\
          CrawlResult.StatusCode r0 = snd (fst (fst fetched)) /\
          match snd (fst fetched) with
          | Some msg => Errors (Metrics w0) = add64 (Errors (Metrics w)) 1 /\
                        CrawlResult.Error r0 = msg /\
                        URLQueue w0 = URLQueue w /\ Storage w0 = Storage w /\
                        Extractor_ w0 = Extractor_ w
          | None => Errors (Metrics w0) = Errors (Metrics w) /\
                    CrawlResult.Error r0 = ""%string
          end
     else gets w0 = gets w /\ Errors (Metrics w0) = Errors (Metrics w) /\
          CrawlResult.StatusCode r0 = 0 /\
          CrawlResult.Error r0 =
            (if allowed then "rate limit context cancelled"
             else "blocked by robots.txt")%string /\
          URLQueue w0 = URLQueue w /\ Storage w0 = Storage w /\
          Extractor_ w0 = Extractor_ w /\ Metrics w0 = Metrics w /\
          BloomFilter w0 = BloomFilter w) /\
    (App.shouldCheckDeadLinks c = false ->
     Extractor_ w0 = Extractor_ w /\
     LinksChecked (Metrics w0) = LinksChecked (Metrics w)).
Proof.
  intros allowed fetched. subst allowed fetched. unfold App.processURL.
  destruct (Robots.CanFetch E (Robots w) UserAgent (URL t)) as [allowed robots'].
  cbn [fst snd].
  destruct allowed; cbn [negb andb].
  2:{ eexists _, _. split; [reflexivity|]. cbn. repeat split; done. }
  destruct (rateWait E); cbn [negb].
  2:{ eexists _, _. split; [reflexivity|]. cbn. repeat split; done. }
  change (gets (App.set_Robots w robots')) with (gets w).
  destruct (App.fetchURL E (URL t) (gets w)) as [[[content statusCode] err] log].
  cbn [fst snd].
  destruct err as [msg|].
  { eexists _, _. split; [reflexivity|]. cbn. repeat split; done. }
  match goal with
  | |- context [App.extract c E ?w1 ?r1 content (URL t)] =>
      pose proof (extract_frame c E w1 r1 content (URL t)) as [Hxq Hxs];
      pose proof (extract_result c E w1 r1 content (URL t))
        as (X1 & X2 & X3 & X4 & X5 & X6 & X7 & X8 & X9 & X10);
      destruct (App.extract c E w1 r1 content (URL t)) as [result w2]
  end.
  cbn [fst snd App.set_gets App.set_Robots URLQueue Storage BloomFilter Robots gets
       Metrics Extractor_ CrawlResult.URL CrawlResult.ProcessedAt CrawlResult.StatusCode
       CrawlResult.Error CrawlResult.set_Title CrawlResult.set_StatusCode
       CrawlResult.init] in *.
  destruct (Depth t <? maxDepth).
  - pose proof (addNewURLs_frame E (wrap64 (Depth t + 1))
                  (ExtractLinks E content (URL t)) w2 [])
      as (A1 & A2 & A3 & A4 & A5 & A6).
    destruct (App.addNewURLs E w2 (ExtractLinks E content (URL t))
                (wrap64 (Depth t + 1)) []) as [added w3].
    cbn [snd] in *.
    eexists _, _. split; [reflexivity|].
    cbn [CrawlResult.URL CrawlResult.ProcessedAt CrawlResult.StatusCode
         CrawlResult.Error CrawlResult.set_NewURLs].
    rewrite A1, A2, A3, A4, A5, A6, Hxs.
    repeat (split; [done|]). intros Hn. destruct (X10 Hn). done.
  - eexists _, _. split; [reflexivity|]. rewrite Hxs.
    repeat (split; [done|]). done.
Qed.

(** X18.  Every processed task leaves exactly one result: on each path
    through [processURL] (refused by robots, rate limiter cancelled,
    fetch failed, page extracted) the deferred function hands the store
    one result that carries the task's URL, the start time and the
    elapsed time, under the key [result:<URL>_<start second>]; the
    findings database and the store's counters change by this one write
    and by nothing else, and the collector counts one processed URL. *)
Theorem every_task_yields_one_result (c : CrawlerService) (E : Oracle) (w : World)
  (t : URLTask) (maxDepth : Z) :
  let w' := App.processURL c E w t maxDepth in
  exists r : CrawlResult.t,
    CrawlResult.URL r = URL t /\
    CrawlResult.ProcessedAt r = startTime E /\
    CrawlResult.ProcessTime r = elapsed E /\
    Badger.resultKey r =
      (ResultPrefix ++ URL t ++ "_" ++ Itoa (Unix (startTime E)))%string /\
    resultsDB (Storage w') =
      resultsDB (fst (Badger.StoreResult (Storage w) r (commitOK E (Badger.resultKey r)))) /\
    metrics (Storage w') =
      metrics (fst (Badger.StoreResult (Storage w) r (commitOK E (Badger.resultKey r)))) /\
    (commitOK E (Badger.resultKey r) = true ->
     (Badger.resultKey r, marshalResult r) ∈ resultsDB (Storage w')) /\
    (commitOK E (Badger.resultKey r) = false ->
     resultsDB (Storage w') = resultsDB (Storage w)) /\
    URLsProcessed (Metrics w') = add64 (URLsProcessed (Metrics w)) 1.
Proof.
  intros w'.
  destruct (processURL_shape c E w t maxDepth)
    as (w0 & r0 & Hp & Hu & Ht & Hr & Hm & Hn & _).
  destruct (finish_spec E w0 r0) as (Hs & _ & _ & _ & _ & _ & _ & Hup).
  cbv zeta in Hs, Hup. fold w' in Hp. rewrite <- Hp in Hs, Hup.
  exists (stored_result E r0).
  assert (Hk : Badger.resultKey (stored_result E r0) =
               (ResultPrefix ++ URL t ++ "_" ++ Itoa (Unix (startTime E)))%string).
  { unfold Badger.resultKey, stored_result. cbn. by rewrite Hu, Ht. }
  split; [exact Hu|]. split; [exact Ht|]. split; [done|]. split; [exact Hk|].
  rewrite Hs, Hup, Hn. unfold Badger.StoreResult.
  destruct (commitOK E (Badger.resultKey (stored_result E r0)));
    cbn [fst resultsDB metrics]; rewrite ?Hr, ?Hm;
    repeat (split; [done|]).
  - split; [|done]. intros _. apply db_set_elem.
  - done.
Qed.

(** X19.  When the rate limiter's wait is cancelled, the task is
    given up before anything is sent: no GET goes out, the stored result
    carries the error ["rate limit context cancelled"] and status code 0,
    the collector's error counter stays as it is while the URL still
    counts as processed, and the frontier, the backlog, the Bloom filter
    and the extractor are untouched. *)
Theorem cancelled_rate_wait_is_recorded (c : CrawlerService) (E : Oracle) (w : World)
  (t : URLTask) (maxDepth : Z) :
  fst (Robots.CanFetch E (Robots w) UserAgent (URL t)) = true ->
  rateWait E = false ->
  let w' := App.processURL c E w t maxDepth in
  let r := stored_result E
             (CrawlResult.set_Error (CrawlResult.init (URL t) (startTime E))
                                    "rate limit context cancelled") in
  gets w' = gets w /\
  CrawlResult.Error r = "rate limit context cancelled"%string /\
  CrawlResult.StatusCode r = 0 /\
  Storage w' =
    fst (Badger.StoreResult (Storage w) r (commitOK E (Badger.resultKey r))) /\
  Errors (Metrics w') = Errors (Metrics w) /\
  URLsProcessed (Metrics w') = add64 (URLsProcessed (Metrics w)) 1 /\
  URLQueue w' = URLQueue w /\
  urlDB (Storage w') = urlDB (Storage w) /\
  BloomFilter w' = BloomFilter w /\
  Extractor_ w' = Extractor_ w.
Proof.
  intros Hallowed Hrate w' r. subst w' r. unfold App.processURL.
  destruct (Robots.CanFetch E (Robots w) UserAgent (URL t)) as [allowed robots'].
  cbn [fst] in Hallowed. subst allowed. rewrite Hrate. cbn [negb].
  destruct (finish_spec E (App.set_Robots w robots')
              (CrawlResult.set_Error (CrawlResult.init (URL t) (startTime E))
                 "rate limit context cancelled"))
    as (F1 & F2 & F3 & F4 & F5 & F6 & F7 & F8).
  cbv zeta in *. rewrite F1, F2, F3, F5, F6, F7, F8.
  repeat (split; [done|]). split; [apply StoreResult_urlDB|done].
Qed.

(** X20.  The collector's error counter counts failed fetches and
    nothing else: [processURL] raises it by one exactly when the robots
    check and the rate limiter let the task through and [fetchURL]
    returned an error; on every other path it is unchanged.  A failed
    fetch leaves the frontier and the URL database as they were. *)
Theorem error_counter_counts_failed_fetches (c : CrawlerService) (E : Oracle)
  (w : World) (t : URLTask) (maxDepth : Z) :
  let w' := App.processURL c E w t maxDepth in
  let allowed := fst (Robots.CanFetch E (Robots w) UserAgent (URL t)) in
  let fetched := App.fetchURL E (URL t) (gets w) in
  Errors (Metrics w') =
    (if allowed && rateWait E && bool_decide (snd (fst fetched) <> None)
     then add64 (Errors (Metrics w)) 1 else Errors (Metrics w)) /\
  (allowed && rateWait E = true -> snd (fst fetched) <> None ->
   URLQueue w' = URLQueue w /\ urlDB (Storage w') = urlDB (Storage w)).
Proof.
  intros w' allowed fetched.
  destruct (processURL_shape c E w t maxDepth)
    as (w0 & r0 & Hp & _ & _ & _ & _ & _ & _ & Hcase & _).
  destruct (finish_spec E w0 r0) as (_ & FQ & _ & _ & _ & FG & FE & _).
  pose proof (StoreResult_urlDB (Storage w0) (stored_result E r0)
                (commitOK E (Badger.resultKey (stored_result E r0)))) as FU.
  cbv zeta in *. fold w' in Hp. fold allowed fetched in Hcase.
  assert (FS : urlDB (Storage w') = urlDB (Storage w0)) by (rewrite Hp; exact FU).
  rewrite <- Hp in FQ, FG, FE. rewrite FE, FQ, FS.
  destruct (allowed && rateWait E); cbn [andb].
  - destruct Hcase as (Hg & _ & Herr).
    destruct (snd (fst fetched)) as [msg|].
    + destruct Herr as (He & _ & Hq & Hs & _).
      rewrite bool_decide_eq_true_2 by done. rewrite Hs.
      split; [done|]. done.
    + destruct Herr as (He & _).
      rewrite bool_decide_eq_false_2 by (intros Hx; by apply Hx).
      split; [done|].
      intros _ Hx. by destruct Hx.
  - destruct Hcase as (Hg & He & _).
    split; [done|].
    intros Hd. discriminate Hd.
Qed.

(** X21.  Dead-link sampling happens only on request: unless the mode
    is ["domains"] or the service was created with [checkDeadDomains],
    processing a task leaves the extractor (its channel, its caches, its
    probe log) exactly as it was and does not move the collector's
    [LinksChecked] counter. *)
Theorem no_dead_link_sampling_unless_enabled (c : CrawlerService) (E : Oracle)
  (w : World) (t : URLTask) (maxDepth : Z) :
  App.shouldCheckDeadLinks c = false ->
  Extractor_ (App.processURL c E w t maxDepth) = Extractor_ w /\
  LinksChecked (Metrics (App.processURL c E w t maxDepth)) = LinksChecked (Metrics w) /\
  mode c <> "domains"%string /\ checkDeadDomains c = false.
Proof.
  intros Hoff.
  destruct (processURL_shape c E w t maxDepth)
    as (w0 & r0 & Hp & _ & _ & _ & _ & _ & _ & _ & Hx).
  destruct (Hx Hoff) as [He Hl]. rewrite Hp. cbn. rewrite He, Hl.
  split; [done|]. split; [done|].
  unfold App.shouldCheckDeadLinks in Hoff. apply orb_false_iff in Hoff as [Hc Hm].
  split; [|done]. intros Hd. by rewrite Hd in Hm.
Qed.

End WorkerMore.

Lemma cancelled_rate_wait_is_recorded_witness :
  fst (@Robots.CanFetch simpleLib prefixRules x_cancelOracle
         (@Robots plainCodec prefixRules x_world) UserAgent (URL x_t2)) = true /\
  rateWait x_cancelOracle = false /\
  @gets plainCodec prefixRules
    (@App.processURL simpleLib plainCodec prefixRules emailService x_cancelOracle
       x_world x_t2 5) = [] /\
  Errors (@Metrics plainCodec prefixRules
    (@App.processURL simpleLib plainCodec prefixRules emailService x_cancelOracle
       x_world x_t2 5)) = 0.
Proof.
  assert (Ha : fst (@Robots.CanFetch simpleLib prefixRules x_cancelOracle
                      (@Robots plainCodec prefixRules x_world) UserAgent (URL x_t2))
               = true) by (vm_compute; reflexivity).
  split; [exact Ha|]. split; [reflexivity|].
  pose proof (@cancelled_rate_wait_is_recorded simpleLib plainCodec prefixRules
                emailService x_cancelOracle x_world x_t2 5 Ha eq_refl) as Hw.
  cbv zeta in Hw. destruct Hw as (Hg & _ & _ & _ & He & _).
  split; [exact Hg|exact He].
Defined.

Lemma no_dead_link_sampling_unless_enabled_witness :
  App.shouldCheckDeadLinks emailService = false /\
  @Extractor_ plainCodec prefixRules
    (@App.processURL simpleLib plainCodec prefixRules emailService linkingOracle
       x_world x_t2 5) = Extractor.New.
Proof.
  split; [reflexivity|].
  exact (proj1 (@no_dead_link_sampling_unless_enabled simpleLib plainCodec prefixRules
                  emailService linkingOracle x_world x_t2 5 eq_refl)).
Defined.

(** ** Admission of new URLs *)

Lemma Bloom_Test_elem (E : Oracle) (added : list string) (u : string) :
  u ∈ added -> Bloom.Test E added u = true.
Proof. intros Hin. unfold Bloom.Test. by rewrite bool_decide_eq_true_2. Qed.

Lemma Bloom_Test_false (E : Oracle) (added : list string) (u : string) :
  Bloom.Test E added u = false -> u ∉ added.
Proof.
  unfold Bloom.Test. intros Ht Hin. by rewrite bool_decide_eq_true_2 in Ht.
Qed.

Section Admission.
Context `{StdLib} `{Codec} `{RobotsTxt}.

Lemma addNewURLs_admitted (E : Oracle) (depth : Z) (urls : list string) :
  forall (w : World) (acc : list string),
    exists new : list string,
      fst (App.addNewURLs E w urls depth acc) = acc ++ new /\
      BloomFilter (snd (App.addNewURLs E w urls depth acc)) = rev new ++ BloomFilter w /\
      NoDup new /\
      (forall u : string,
         u ∈ new -> u ∈ urls /\ IsValidURL u = true /\ u ∉ BloomFilter w) /\
      (forall u : string,
         u ∈ urls -> IsValidURL u = true ->
         (forall b : list string, bloomCollision E b u = false) ->
         u ∈ rev new ++ BloomFilter w).
Proof.
  induction urls as [|url rest IH]; intros w acc; cbn [App.addNewURLs].
  - exists []. rewrite app_nil_r. split; [done|]. split; [done|].
    split; [constructor|]. split; intros u Hu; by apply elem_of_nil in Hu.
  - destruct (IsValidURL url) eqn:Hv; cbn [negb].
    2:{ destruct (IH w acc) as (new & I1 & I2 & I3 & I4 & I5).
        exists new. split; [done|]. split; [done|]. split; [done|]. split.
        - intros u Hu. destruct (I4 u Hu) as (? & ? & ?). split; [by right|done].
        - intros u [->|Hu]%elem_of_cons Hvu Hc; [congruence|by apply I5]. }
    destruct (Bloom.Test E (BloomFilter w) url) eqn:Ht.
    { destruct (IH w acc) as (new & I1 & I2 & I3 & I4 & I5).
      exists new. split; [done|]. split; [done|]. split; [done|]. split.
      - intros u Hu. destruct (I4 u Hu) as (? & ? & ?). split; [by right|done].
      - intros u [->|Hu]%elem_of_cons Hvu Hc; [|by apply I5].
        apply elem_of_app. right. unfold Bloom.Test in Ht.
        rewrite Hc, orb_false_r in Ht. by apply bool_decide_eq_true in Ht. }
    destruct (IH (App.enlist E w url depth) (acc ++ [url]))
      as (new & I1 & I2 & I3 & I4 & I5).
    destruct (enlist_frame E w url depth) as (Hb & _). cbv zeta in Hb.
    rewrite Hb in I2, I4, I5.
    exists (url :: new). split; [by rewrite I1, <- app_assoc|].
    split; [rewrite I2; cbn [rev]; by rewrite <- app_assoc|]. split.
    { constructor; [|done]. intros Hin. destruct (I4 url Hin) as (_ & _ & Hn).
      apply Hn. by left. }
    split.
    + intros u [->|Hu]%elem_of_cons.
      * split; [by left|]. split; [done|]. by apply (Bloom_Test_false E).
      * destruct (I4 u Hu) as (? & ? & Hn). split; [by right|]. split; [done|].
        intros Hin. apply Hn. by right.
    + intros u Hu Hvu Hc. cbn [rev]. rewrite <- app_assoc. cbn [app].
      apply elem_of_cons in Hu as [->|Hu]; [|by apply I5].
      apply elem_of_app. right. by left.
Qed.

(** X22.  [addNewURLs] admits a URL at most once.  The list it returns
    has no duplicates, even when a page links to the same URL many
    times; each returned URL is from the input, passes [IsValidURL] and
    was not in the Bloom filter before; afterwards the filter holds
    exactly the old entries and the returned URLs, so that each of them
    tests positive from then on.  A valid URL that never collides in
    the filter is in the filter after the call. *)
Theorem addNewURLs_admits_each_URL_once (E : Oracle) (w : World) (urls : list string)
  (depth : Z) :
  let added := fst (App.addNewURLs E w urls depth []) in
  let w' := snd (App.addNewURLs E w urls depth []) in
  NoDup added /\
  BloomFilter w' = rev added ++ BloomFilter w /\
  (forall u : string,
     u ∈ added -> u ∈ urls /\ IsValidURL u = true /\ u ∉ BloomFilter w) /\
  (forall (u : string) (E' : Oracle),
     u ∈ added \/ u ∈ BloomFilter w -> Bloom.Test E' (BloomFilter w') u = true) /\
  (forall u : string,
     u ∈ urls -> IsValidURL u = true ->
     (forall b : list string, bloomCollision E b u = false) ->
     u ∈ BloomFilter w').
Proof.
  intros added w'. subst added w'.
  destruct (addNewURLs_admitted E depth urls w []) as (new & I1 & I2 & I3 & I4 & I5).
  cbn [app] in I1. rewrite I1, I2.
  split; [done|]. split; [done|]. split; [done|]. split; [|done].
  intros u E' Hu. apply Bloom_Test_elem, elem_of_app.
  destruct Hu as [Hu|Hu]; [left|by right].
  apply list_elem_of_In, in_rev. rewrite rev_involutive. by apply list_elem_of_In.
Qed.

(** A task is held when it sits in the frontier or its entry is in the
    URL database. *)
Lemma enlist_keeps (E : Oracle) (w : World) (url : string) (depth : Z) (t0 : URLTask) :
  commitOK E (URLPrefix ++ url)%string = true ->
  ((t0 ∈ frontier_tasks w \/ task_entry t0 ∈ urlDB (Storage w)) /\
   (URL t0 = url -> t0 = App.mkTask E url depth)) \/
  t0 = App.mkTask E url depth ->
  t0 ∈ frontier_tasks (App.enlist E w url depth) \/
  task_entry t0 ∈ urlDB (Storage (App.enlist E w url depth)).
Proof.
  intros Hok Ht0. unfold App.enlist, frontier_tasks.
  cbn [App.set_BloomFilter URLQueue Storage]. change (URL (App.mkTask E url depth)) with url.
  rewrite Hok.
  pose proof (Queue_Push_tasks (URLQueue w) (App.mkTask E url depth)) as Hp.
  destruct (Queue.Push (URLQueue w) (App.mkTask E url depth)) as [q' [e|]];
    cbn [fst snd] in Hp;
    cbn [App.set_Storage App.set_URLQueue URLQueue Storage].
  - cbn [Badger.StoreURL fst urlDB].
    destruct Ht0 as [[Hin Hu]| ->]; [|right; apply db_set_elem].
    destruct Hin as [Hin|Hin]; [by left|]. right.
    destruct (decide (URL t0 = url)) as [He|Hne].
    + rewrite (Hu He). apply db_set_elem.
    + apply db_set_other; [done|].
      cbn. unfold task_key, URLPrefix. cbn. intros Hk. apply Hne. by injection Hk.
  - destruct Ht0 as [[Hin Hu]| ->].
    + destruct Hin as [Hin|Hin]; [|by right].
      left. rewrite Hp. by right.
    + left. rewrite Hp. by left.
Qed.

Lemma addNewURLs_keeps (E : Oracle) (depth : Z) (urls : list string) :
  (forall k : string, commitOK E k = true) ->
  forall (w : World) (acc : list string) (t0 : URLTask),
    t0 ∈ frontier_tasks w \/ task_entry t0 ∈ urlDB (Storage w) ->
    (exists u : string, t0 = App.mkTask E u depth) ->
    t0 ∈ frontier_tasks (snd (App.addNewURLs E w urls depth acc)) \/
    task_entry t0 ∈ urlDB (Storage (snd (App.addNewURLs E w urls depth acc))).
Proof.
  intros Hok. induction urls as [|url rest IH]; intros w acc t0 Hin Hu;
    cbn [App.addNewURLs]; [done|].
  destruct (IsValidURL url); cbn [negb]; [|by apply IH].
  destruct (Bloom.Test E (BloomFilter w) url); [by apply IH|].
  apply IH; [|done].
  apply enlist_keeps; [apply Hok|]. left. split; [done|].
  destruct Hu as (u & ->). cbn. by intros ->.
Qed.

(** X23.  No admitted URL falls through: when the store commits its
    writes, every URL that [addNewURLs] returns has its task, at the
    requested depth, in the frontier, or the entry of that task in the
    backlog, once the call is over, whether it was pushed at once or
    spilled because the frontier was full; tasks admitted earlier in
    the call are not displaced by later ones.  A spilled task is read
    back as [encoding/json] returns it, so a URL that is well-formed
    UTF-8 has its very task among the pending ones. *)
Theorem admitted_URLs_are_pending (E : Oracle) (w : World) (urls : list string)
  (depth : Z) :
  (forall k : string, commitOK E k = true) ->
  forall u : string,
    u ∈ fst (App.addNewURLs E w urls depth []) ->
    let w' := snd (App.addNewURLs E w urls depth []) in
    let t := App.mkTask E u depth in
    (t ∈ frontier_tasks w' \/
     (task_entry t ∈ backlog (Storage w') /\ jsonTask t ∈ backlog_tasks (Storage w'))) /\
    (jsonString u = u -> t ∈ pending_tasks w').
Proof.
  intros Hok.
  assert (Hgen : forall (urls : list string) (w : World) (acc : list string),
             forall u : string,
               u ∈ fst (App.addNewURLs E w urls depth acc) ->
               u ∈ acc \/
               App.mkTask E u depth ∈
                 frontier_tasks (snd (App.addNewURLs E w urls depth acc)) \/
               task_entry (App.mkTask E u depth) ∈
                 urlDB (Storage (snd (App.addNewURLs E w urls depth acc)))).
  { clear w urls. induction urls as [|url rest IH]; intros w acc u;
      cbn [App.addNewURLs]; [by left|].
    destruct (IsValidURL url); cbn [negb]; [|by apply IH].
    destruct (Bloom.Test E (BloomFilter w) url); [by apply IH|].
    intros Hin.
    destruct (IH (App.enlist E w url depth) (acc ++ [url]) u Hin) as [Hacc|Hp];
      [|by right].
    apply elem_of_app in Hacc as [Hacc|Hacc]; [by left|].
    apply list_elem_of_singleton in Hacc as ->. right.
    apply addNewURLs_keeps; [done| |by exists url].
    apply enlist_keeps; [apply Hok|by right]. }
  intros u Hu w' t.
  assert (Hheld : t ∈ frontier_tasks w' \/
                  (task_entry t ∈ backlog (Storage w') /\
                   jsonTask t ∈ backlog_tasks (Storage w'))).
  { destruct (Hgen urls w [] u Hu) as [Hn|[Hf|Hdb]];
      [by apply elem_of_nil in Hn|by left|right].
    split.
    - apply list_elem_of_In, filter_In. split; [by apply list_elem_of_In|].
      unfold in_backlog, task_entry, task_key, URLPrefix. cbn. by destruct u.
    - apply elem_backlog_tasks. exists (task_entry t). split; [done|]. split.
      + unfold in_backlog, task_entry, task_key, URLPrefix. cbn. by destruct u.
      + apply unmarshal_marshalTask. }
  split; [exact Hheld|]. intros Hutf.
  assert (Hex : jsonTask t = t).
  { unfold t, jsonTask, App.mkTask. cbn [URL Depth Timestamp Retries]. by rewrite Hutf. }
  apply elem_of_app. destruct Hheld as [Hf|[_ Hb]]; [by left|right].
  by rewrite Hex in Hb.
Qed.

(** X24.  A failed spill loses the URL for good.  When the frontier is
    full and the write to the backlog does not commit, [addNewURLs]
    still reports the URL as new and has already entered it in the
    Bloom filter: the task is in neither the frontier nor the backlog,
    and every later encounter of the URL is filtered out as seen. *)
Theorem failed_spill_drops_the_URL (E : Oracle) (w : World) (url : string) (depth : Z) :
  IsValidURL url = true ->
  Bloom.Test E (BloomFilter w) url = false ->
  Queue.IsFull (URLQueue w) = true ->
  commitOK E (URLPrefix ++ url)%string = false ->
  let res := App.addNewURLs E w [url] depth [] in
  fst res = [url] /\
  URLQueue (snd res) = URLQueue w /\
  Storage (snd res) = Storage w /\
  pending_tasks (snd res) = pending_tasks w /\
  (forall (E' : Oracle) (urls : list string) (depth' : Z),
     Bloom.Test E' (BloomFilter (snd res)) url = true /\
     url ∉ fst (App.addNewURLs E' (snd res) urls depth' [])).
Proof.
  intros Hv Ht Hfull Hfail res. subst res. cbn [App.addNewURLs].
  rewrite Hv, Ht. cbn [negb app fst snd].
  assert (He : App.enlist E w url depth =
               App.set_BloomFilter w (Bloom.Add (BloomFilter w) url)).
  { unfold App.enlist. cbn [App.set_BloomFilter URLQueue Storage].
    rewrite Queue_Push_full
      by (unfold Queue.IsFull in Hfull; by apply Z.leb_le).
    change (URL (App.mkTask E url depth)) with url. rewrite Hfail.
    unfold Badger.StoreURL. cbn [fst]. by destruct w. }
  rewrite He. split; [done|]. split; [done|]. split; [done|]. split; [done|].
  intros E' urls depth'. split.
  - apply Bloom_Test_elem. by left.
  - intros Hin.
    destruct (addNewURLs_admitted E' depth' urls
                (App.set_BloomFilter w (Bloom.Add (BloomFilter w) url)) [])
      as (new & I1 & _ & _ & I4 & _).
    rewrite I1 in Hin. destruct (I4 url Hin) as (_ & _ & Hn). apply Hn. by left.
Qed.

End Admission.

Lemma admitted_URLs_are_pending_witness :
  (forall k : string, commitOK linkingOracle k = true) /\
  fst (@App.addNewURLs simpleLib plainCodec prefixRules linkingOracle x_full_world
         ["https://a.example/1"; "https://a.example/1"; "mailto:x@a.example"]%string 1 [])
    = ["https://a.example/1"%string] /\
  jsonString "https://a.example/1" = "https://a.example/1"%string /\
  App.mkTask linkingOracle "https://a.example/1" 1 ∈
    @pending_tasks plainCodec prefixRules
      (snd (@App.addNewURLs simpleLib plainCodec prefixRules linkingOracle x_full_world
              ["https://a.example/1"; "https://a.example/1"; "mailto:x@a.example"]%string
              1 [])).
Proof.
  split; [reflexivity|].
  assert (Hf : fst (@App.addNewURLs simpleLib plainCodec prefixRules linkingOracle
                      x_full_world
                      ["https://a.example/1"; "https://a.example/1";
                       "mailto:x@a.example"]%string 1 [])
               = ["https://a.example/1"%string]) by (vm_compute; reflexivity).
  split; [exact Hf|]. split; [reflexivity|].
  assert (Hin : "https://a.example/1"%string ∈
                fst (@App.addNewURLs simpleLib plainCodec prefixRules linkingOracle
                       x_full_world
                       ["https://a.example/1"; "https://a.example/1";
                        "mailto:x@a.example"]%string 1 []))
    by (rewrite Hf; apply list_elem_of_here).
  exact (proj2 (@admitted_URLs_are_pending simpleLib plainCodec prefixRules linkingOracle
                  x_full_world _ 1 (fun _ => eq_refl) _ Hin) eq_refl).
Defined.

Lemma failed_spill_drops_the_URL_witness :
  @IsValidURL simpleLib "https://a.example/1" = true /\
  Queue.IsFull (@URLQueue plainCodec prefixRules x_full_world) = true /\
  fst (@App.addNewURLs simpleLib plainCodec prefixRules x_failingOracle x_full_world
         ["https://a.example/1"%string] 1 []) = ["https://a.example/1"%string] /\
  @pending_tasks plainCodec prefixRules
    (snd (@App.addNewURLs simpleLib plainCodec prefixRules x_failingOracle x_full_world
            ["https://a.example/1"%string] 1 []))
    = @pending_tasks plainCodec prefixRules x_full_world.
Proof.
  assert (Hv : @IsValidURL simpleLib "https://a.example/1" = true)
    by (vm_compute; reflexivity).
  assert (Hfull : Queue.IsFull (@URLQueue plainCodec prefixRules x_full_world) = true)
    by (vm_compute; reflexivity).
  split; [exact Hv|]. split; [exact Hfull|].
  pose proof (@failed_spill_drops_the_URL simpleLib plainCodec prefixRules
                x_failingOracle x_full_world "https://a.example/1" 1
                Hv eq_refl Hfull eq_refl) as Hw.
  cbv zeta in Hw. destruct Hw as (H1 & _ & _ & H4 & _).
  split; [exact H1|exact H4].
Defined.

(** ** The dead-link worker, the metrics tick, the seed *)

Section Background.
Context `{StdLib} `{Codec} `{RobotsTxt}.

(** X25.  The dead-link worker's bookkeeping follows its two verdicts.
    A request whose URL has no host is dropped.  The host counts as dead
    when the verdict cached for it says so or, without a cached verdict,
    when the HEAD request to [https://<host>] fails.  For a dead host
    the worker hands the store one result under the source page's URL
    that lists the link as dead and the host as a dead domain, and
    raises the collector's dead-link and dead-domain counters by one
    each.  For a live host and a dead link the result lists the link
    only and just the dead-link counter goes up.  For a live host and a
    live link neither store nor counters move.  The collector's counters
    move whether or not the write commits: a write that fails leaves the
    store as it was, one that commits adds the record and makes the
    store count one more dead link and one more processed URL.  At most
    two HEAD requests are sent; the frontier, the backlog, the Bloom
    filter, the worker's request log and the collector's count of
    processed URLs are never touched. *)
Theorem dead_link_worker_counts_what_it_stores (E : Oracle) (w : World)
  (req : linkCheckRequest) (at_ : GoTime) :
  let w' := App.processLinkAsync E w req at_ in
  let host := GetDomain (lcURL req) in
  let dd := Extractor.isDomainDead E (Extractor_ w) host in
  let dl := Extractor.isDeadLinkFast E (snd dd) (lcURL req) in
  let found := fun domains : list string =>
    CrawlResult.set_Dead (CrawlResult.init (lcSourceURL req) at_) [lcURL req] domains in
  (URLQueue w' = URLQueue w /\ BloomFilter w' = BloomFilter w /\
   urlDB (Storage w') = urlDB (Storage w) /\ gets w' = gets w /\
   URLsProcessed (Metrics w') = URLsProcessed (Metrics w) /\
   (length (probes (Extractor_ w')) <= length (probes (Extractor_ w)) + 2)%nat) /\
  (host = ""%string -> w' = w) /\
  (fst dd =
     match deadDomainCache (Extractor_ w) !! host with
     | Some cached => cached
     | None => match headDo E ("https://" ++ host)%string with
               | Responded _ => false
               | _ => true
               end
     end) /\
  (host <> ""%string -> fst dd = true ->
   Storage w' =
     fst (Badger.StoreResult (Storage w) (found [host])
            (commitOK E (Badger.resultKey (found [host])))) /\
   DeadLinksFound (Metrics w') = add64 (DeadLinksFound (Metrics w)) 1 /\
   DeadDomainsFound (Metrics w') = add64 (DeadDomainsFound (Metrics w)) 1 /\
   Extractor_ w' = snd dd) /\
  (host <> ""%string -> fst dd = false -> fst dl = true ->
   Storage w' =
     fst (Badger.StoreResult (Storage w) (found [])
            (commitOK E (Badger.resultKey (found [])))) /\
   DeadLinksFound (Metrics w') = add64 (DeadLinksFound (Metrics w)) 1 /\
   DeadDomainsFound (Metrics w') = DeadDomainsFound (Metrics w) /\
   Extractor_ w' = snd dl) /\
  (host <> ""%string -> fst dd = false -> fst dl = false ->
   Storage w' = Storage w /\ Metrics w' = Metrics w /\ Extractor_ w' = snd dl) /\
  (forall domains : list string,
     fst (Badger.StoreResult (Storage w) (found domains) false) = Storage w /\
     (Badger.resultKey (found domains), marshalResult (found domains)) ∈
       resultsDB (fst (Badger.StoreResult (Storage w) (found domains) true)) /\
     DeadLinksFound (metrics (fst (Badger.StoreResult (Storage w) (found domains) true))) =
       add64 (DeadLinksFound (metrics (Storage w))) 1 /\
     URLsProcessed (metrics (fst (Badger.StoreResult (Storage w) (found domains) true))) =
       add64 (URLsProcessed (metrics (Storage w))) 1).
Proof.
  intros w' host dd dl found.
  assert (Hverdict :
    fst dd =
      match deadDomainCache (Extractor_ w) !! host with
      | Some cached => cached
      | None => match headDo E ("https://" ++ host)%string with
                | Responded _ => false
                | _ => true
                end
      end).
  { unfold dd, Extractor.isDomainDead.
    destruct (deadDomainCache (Extractor_ w) !! host); [done|].
    by destruct (headDo E ("https://" ++ host)%string). }
  assert (Hstore : forall domains : list string,
    fst (Badger.StoreResult (Storage w) (found domains) false) = Storage w /\
    (Badger.resultKey (found domains), marshalResult (found domains)) ∈
      resultsDB (fst (Badger.StoreResult (Storage w) (found domains) true)) /\
    DeadLinksFound (metrics (fst (Badger.StoreResult (Storage w) (found domains) true))) =
      add64 (DeadLinksFound (metrics (Storage w))) 1 /\
    URLsProcessed (metrics (fst (Badger.StoreResult (Storage w) (found domains) true))) =
      add64 (URLsProcessed (metrics (Storage w))) 1).
  { intros domains. split; [done|]. split; [apply db_set_elem|]. done. }
  assert (Hmain :
    (URLQueue w' = URLQueue w /\ BloomFilter w' = BloomFilter w /\
     urlDB (Storage w') = urlDB (Storage w) /\ gets w' = gets w /\
     URLsProcessed (Metrics w') = URLsProcessed (Metrics w) /\
     (length (probes (Extractor_ w')) <= length (probes (Extractor_ w)) + 2)%nat) /\
    (host = ""%string -> w' = w) /\
    (host <> ""%string -> fst dd = true ->
     Storage w' =
       fst (Badger.StoreResult (Storage w) (found [host])
              (commitOK E (Badger.resultKey (found [host])))) /\
     DeadLinksFound (Metrics w') = add64 (DeadLinksFound (Metrics w)) 1 /\
     DeadDomainsFound (Metrics w') = add64 (DeadDomainsFound (Metrics w)) 1 /\
     Extractor_ w' = snd dd) /\
    (host <> ""%string -> fst dd = false -> fst dl = true ->
     Storage w' =
       fst (Badger.StoreResult (Storage w) (found [])
              (commitOK E (Badger.resultKey (found [])))) /\
     DeadLinksFound (Metrics w') = add64 (DeadLinksFound (Metrics w)) 1 /\
     DeadDomainsFound (Metrics w') = DeadDomainsFound (Metrics w) /\
     Extractor_ w' = snd dl) /\
    (host <> ""%string -> fst dd = false -> fst dl = false ->
     Storage w' = Storage w /\ Metrics w' = Metrics w /\ Extractor_ w' = snd dl)).
  { clear Hverdict Hstore. subst w' dl dd found host. unfold App.processLinkAsync.
    destruct (String.eqb (GetDomain (lcURL req)) "") eqn:Hd.
    { apply String.eqb_eq in Hd.
      split; [repeat (split; [done|]); lia|]. split; [done|].
      split; [by intros Hn|]. split; by intros Hn. }
    assert (Hne : GetDomain (lcURL req) <> ""%string) by (by apply String.eqb_neq).
    destruct (isDomainDead_spec E (Extractor_ w) (GetDomain (lcURL req)))
      as (_ & _ & _ & _ & D5).
    destruct (Extractor.isDomainDead E (Extractor_ w) (GetDomain (lcURL req)))
      as [dead e1]. cbn [fst snd] in *.
    assert (Hp1 : (length (probes e1) <= length (probes (Extractor_ w)) + 1)%nat).
    { destruct D5 as [->|[_ ->]]; [lia|]. rewrite length_app. simpl. lia. }
    destruct dead.
    - cbn [App.set_Extractor App.set_Storage App.set_Metrics URLQueue BloomFilter
           Storage gets Metrics Extractor_].
      split.
      { split; [done|]. split; [done|]. split; [apply StoreResult_urlDB|].
        split; [done|]. split; [done|]. lia. }
      split; [done|]. split; [done|]. split; by intros _ Hf.
    - destruct (isDeadLinkFast_spec E e1 (lcURL req)) as (_ & _ & _ & _ & L5).
      cbn [App.set_Extractor Extractor_].
      destruct (Extractor.isDeadLinkFast E e1 (lcURL req)) as [deadURL e2].
      cbn [fst snd] in *.
      assert (Hp2 : (length (probes e2) <= length (probes (Extractor_ w)) + 2)%nat).
      { destruct L5 as [->|[_ ->]]; [lia|]. rewrite length_app. simpl. lia. }
      destruct deadURL;
        cbn [App.set_Extractor App.set_Storage App.set_Metrics URLQueue BloomFilter
             Storage gets Metrics Extractor_].
      + split.
        { split; [done|]. split; [done|]. split; [apply StoreResult_urlDB|].
          split; [done|]. split; [done|]. done. }
        split; [done|]. split; [by intros _ Hf|]. split; [done|]. by intros _ _ Hf.
      + split; [done|]. split; [done|]. split; [by intros _ Hf|].
        split; [by intros _ _ Hf|]. done. }
  destruct Hmain as (M1 & M2 & M3 & M4 & M5).
  split; [exact M1|]. split; [exact M2|]. split; [exact Hverdict|].
  split; [exact M3|]. split; [exact M4|]. split; [exact M5|exact Hstore].
Qed.

(** X26.  After a tick of the metrics updater the two gauges describe
    the pending work: [URLsInQueue] is the size of the frontier and
    [URLsInDB] the number of tasks in the backlog (the metrics record
    is not counted), so that on a well-formed world of fewer than
    [2^63] tasks they add up to the number of pending tasks.  The tick
    changes no counter and no task. *)
Theorem metrics_tick_reports_pending_work (w : World) (activeWorkers : Z) :
  world_wf w ->
  let w' := App.updateMetrics w activeWorkers in
  URLsInQueue (Metrics w') = Z.of_nat (length (frontier_tasks w)) /\
  URLsInDB (Metrics w') = wrap64 (Z.of_nat (length (backlog_tasks (Storage w)))) /\
  ActiveWorkers (Metrics w') = activeWorkers /\
  (Z.of_nat (length (pending_tasks w)) <= int64_max ->
   URLsInQueue (Metrics w') + URLsInDB (Metrics w') =
     Z.of_nat (length (pending_tasks w))) /\
  pending_tasks w' = pending_tasks w /\
  URLQueue w' = URLQueue w /\
  URLsProcessed (Metrics w') = URLsProcessed (Metrics w) /\
  Errors (Metrics w') = Errors (Metrics w) /\
  URLsInDB (metrics (Storage w')) = URLsInDB (Metrics w') /\
  EmailsFound (Metrics w') = EmailsFound (Metrics w) /\
  KeywordsFound (Metrics w') = KeywordsFound (Metrics w) /\
  LinksChecked (Metrics w') = LinksChecked (Metrics w) /\
  DeadLinksFound (Metrics w') = DeadLinksFound (Metrics w) /\
  DeadDomainsFound (Metrics w') = DeadDomainsFound (Metrics w).
Proof.
  intros [Hq Hs] w'. subst w'. unfold App.updateMetrics, Badger.GetMetrics.
  cbn [App.set_Storage App.set_Metrics URLQueue Storage Metrics URLsInQueue URLsInDB
       ActiveWorkers URLsProcessed Errors metrics Collector.UpdateURLsInDB
       Collector.UpdateURLsInQueue Collector.UpdateActiveWorkers
       EmailsFound KeywordsFound LinksChecked DeadLinksFound DeadDomainsFound].
  assert (Hc : Badger.countURLsInDB (Storage w) =
               wrap64 (Z.of_nat (length (backlog_tasks (Storage w))))).
  { rewrite countURLsInDB_backlog by apply Hs.
    by rewrite (backlog_tasks_length (Storage w) Hs). }
  assert (Hf : Queue.Size (URLQueue w) = Z.of_nat (length (frontier_tasks w))).
  { unfold Queue.Size, urlHeap.Len, frontier_tasks. by rewrite length_fmap. }
  rewrite Hc, Hf.
  split; [done|]. split; [done|]. split; [done|]. split.
  { intros Hsmall. unfold pending_tasks in *. rewrite length_app in *.
    rewrite wrap64_id; [lia|]. unfold int64_min, int64_max in *. lia. }
  split; [|done].
  unfold pending_tasks, frontier_tasks, backlog_tasks, backlog. done.
Qed.

(** X27.  The seed is entered once.  [StartCrawling] fails with
    ["failed to add start URL to queue: queue is full"] exactly when
    the frontier is full, and then changes nothing.  Otherwise the seed
    joins the frontier at depth 0, without being validated, and is
    entered in the Bloom filter, so that no later [addNewURLs] admits the
    start URL again, however often pages link back to it. *)
Theorem seed_is_entered_once (E : Oracle) (w : World) (startURL : string) :
  (Queue.IsFull (URLQueue w) = true ->
   App.StartCrawling E w startURL =
     inl "failed to add start URL to queue: queue is full"%string) /\
  (Queue.IsFull (URLQueue w) = false ->
   exists w' : World,
     App.StartCrawling E w startURL = inr w' /\
     frontier_tasks w' ≡ₚ App.mkTask E startURL 0 :: frontier_tasks w /\
     Depth (App.mkTask E startURL 0) = 0 /\
     BloomFilter w' = startURL :: BloomFilter w /\
     Storage w' = Storage w /\
     forall (E' : Oracle) (urls : list string) (depth : Z),
       Bloom.Test E' (BloomFilter w') startURL = true /\
       startURL ∉ fst (App.addNewURLs E' w' urls depth [])).
Proof.
  unfold App.StartCrawling, Queue.IsFull. split; intros Hf.
  - rewrite Queue_Push_full by (by apply Z.leb_le). done.
  - pose proof (Queue_Push_tasks (URLQueue w) (App.mkTask E startURL 0)) as Ht.
    destruct (Queue_Push_room (URLQueue w) (App.mkTask E startURL 0)) as (Hn & _).
    { by apply Z.leb_gt. }
    destruct (Queue.Push (URLQueue w) (App.mkTask E startURL 0)) as [q' e].
    cbn [fst snd] in *. subst e. eexists. split; [reflexivity|].
    split; [exact Ht|]. split; [done|]. split; [done|]. split; [done|].
    intros E' urls depth. split; [apply Bloom_Test_elem; by left|].
    intros Hin.
    match goal with
    | Hin : _ ∈ fst (App.addNewURLs E' ?w1 urls depth []) |- _ =>
        destruct (addNewURLs_admitted E' depth urls w1 []) as (new & I1 & _ & _ & I4 & _)
    end.
    rewrite I1 in Hin. destruct (I4 startURL Hin) as (_ & _ & Hnot).
    apply Hnot. by left.
Qed.

End Background.

Lemma metrics_tick_reports_pending_work_witness :
  @world_wf plainCodec prefixRules x_world /\
  URLsInQueue (@Metrics plainCodec prefixRules
                 (@App.updateMetrics plainCodec prefixRules x_world 3)) = 4 /\
  URLsInDB (@Metrics plainCodec prefixRules
              (@App.updateMetrics plainCodec prefixRules x_world 3)) = 2 /\
  Z.of_nat (length (@pending_tasks plainCodec prefixRules x_world)) = 6.
Proof.
  split; [exact x_world_wf|].
  pose proof (@metrics_tick_reports_pending_work plainCodec prefixRules x_world 3
                x_world_wf) as Hw.
  cbv zeta in Hw. destruct Hw as (H1 & H2 & _).
  split; [rewrite H1; vm_compute; reflexivity|].
  split; [rewrite H2; vm_compute; reflexivity|].
  vm_compute. reflexivity.
Defined.

(** ** The injection handler's bookkeeping *)

Section InjectionMore.
Context `{StdLib}.

Lemma enqueue_spec (E : Oracle) (validURLs : list string) :
  forall (q : PriorityURLQueue) (addedCount : Z) (errs : list string),
    int64_min <= addedCount <= int64_max ->
    let room := Z.to_nat (maxSize q - Queue.Size q) in
    let res := Dashboard.enqueue E q validURLs addedCount errs in
    task <$> qheap (fst (fst res)) ≡ₚ
      (task <$> qheap q) ++ (Dashboard.newTask E <$> take room validURLs) /\
    snd (fst res) = wrap64 (addedCount + Z.of_nat (length (take room validURLs))) /\
    snd res =
      errs ++ ((fun u => "Failed to add " ++ u ++ ": queue is full")%string
                 <$> drop room validURLs) /\
    maxSize (fst (fst res)) = maxSize q /\
    Queue.Size (fst (fst res)) =
      Queue.Size q + Z.of_nat (length (take room validURLs)).
Proof.
  induction validURLs as [|u rest IH]; intros q n errs Hn; cbn [Dashboard.enqueue].
  - rewrite take_nil, drop_nil. cbn [fst snd fmap list_fmap length].
    rewrite !app_nil_r, !Z.add_0_r, wrap64_id by done. done.
  - destruct (Z.le_gt_cases (maxSize q) (Queue.Size q)) as [Hfull|Hroom].
    + rewrite (Queue_Push_full q _ Hfull).
      destruct (IH q n (errs ++ [("Failed to add " ++ u ++ ": " ++
                                   QueueError_Message ErrQueueFull)%string]) Hn)
        as (I1 & I2 & I3 & I4 & I5).
      cbv zeta in *.
      replace (Z.to_nat (maxSize q - Queue.Size q)) with 0%nat in * by lia.
      rewrite take_0, drop_0 in *. rewrite I2, I3, I4, I5.
      split; [exact I1|]. split; [done|]. split; [|done].
      by rewrite <- app_assoc.
    + pose proof (Queue_Push_tasks q (Dashboard.newTask E u)) as Ht.
      destruct (Queue_Push_room q (Dashboard.newTask E u)) as (Hnone & Hsz & Hmax);
        [lia|].
      destruct (Queue.Push q (Dashboard.newTask E u)) as [q' e].
      cbn [fst snd] in *. subst e.
      destruct (IH q' (add64 n 1) errs ltac:(apply wrap64_range))
        as (I1 & I2 & I3 & I4 & I5).
      cbv zeta in *. rewrite Hmax, Hsz in *.
      replace (Z.to_nat (maxSize q - Queue.Size q))
        with (S (Z.to_nat (maxSize q - (Queue.Size q + 1)))) by lia.
      rewrite firstn_cons, skipn_cons. cbn [fmap list_fmap length].
      rewrite I2, I3, I4, I5. split; [|split; [|split; [done|split; [done|lia]]]].
      * rewrite I1, Ht. cbn [fmap list_fmap]. by rewrite <- Permutation_middle.
      * unfold add64. rewrite wrap64_add_l. f_equal. lia.
Qed.

(** X28.  The injection handler accounts for every entry it accepted.
    With [room] the free capacity of the frontier at the time of the
    call, the first [room] valid entries are pushed as depth-0 tasks and
    counted in [added]; each of the remaining valid entries is reported
    in [errors] as ["Failed to add <url>: queue is full"] and is not
    kept anywhere; so [added] plus the number of errors is
    [total_valid].  The response says [success] even when nothing was
    added.  A request without a list, or with an empty one, is a bad
    request and leaves the frontier alone. *)
Theorem injection_accounts_for_every_valid_entry (E : Oracle) (q : PriorityURLQueue)
  (urls : list string) :
  let valid := List.filter Dashboard.accepts (cleaned_entries urls) in
  let room := Z.to_nat (maxSize q - Queue.Size q) in
  Dashboard.handleAddURLs E q None = (BadRequest "Invalid JSON request", q) /\
  Dashboard.handleAddURLs E q (Some []) = (BadRequest "No URLs provided", q) /\
  (urls <> [] ->
   exists (r : AddURLsResponse) (q' : PriorityURLQueue),
     Dashboard.handleAddURLs E q (Some urls) = (Reply r, q') /\
     success r = true /\
     added r = wrap64 (Z.of_nat (length (take room valid))) /\
     errors r = (fun u => "Failed to add " ++ u ++ ": queue is full")%string
                  <$> drop room valid /\
     total_valid r =
       Z.of_nat (length (take room valid)) + Z.of_nat (length (errors r)) /\
     task <$> qheap q' ≡ₚ
       (task <$> qheap q) ++ (Dashboard.newTask E <$> take room valid) /\
     Queue.Size q' = Queue.Size q + Z.of_nat (length (take room valid)) /\
     maxSize q' = maxSize q).
Proof.
  intros valid room. split; [done|]. split; [done|].
  intros Hne. unfold Dashboard.handleAddURLs.
  destruct urls as [|u0 urls0]; [done|].
  replace (length (u0 :: urls0) =? 0)%nat with false by done.
  rewrite validate_spec. cbn [app]. fold valid.
  destruct (enqueue_spec E valid q 0 []) as (S1 & S2 & S3 & S4 & S5).
  { unfold int64_min, int64_max. lia. }
  cbv zeta in *. fold room in S1, S2, S3, S5.
  destruct (Dashboard.enqueue E q valid 0 []) as [[q' n] errs].
  cbn [fst snd app] in *. subst n errs.
  eexists _, q'. split; [reflexivity|].
  cbn [success added errors total_valid].
  split; [done|]. split; [done|]. split; [done|]. split; [|done].
  rewrite length_fmap, <- Nat2Z.inj_add, <- length_app, take_drop. done.
Qed.

End InjectionMore.

Lemma injection_accounts_for_every_valid_entry_witness :
  fst (@Dashboard.handleAddURLs simpleLib quietOracle
         (@URLQueue plainCodec prefixRules x_full_world)
         (Some ["https://e.example/new"; "nonsense"]%string))
  = Reply (mkAddURLs true 0 1 ["nonsense"%string]
             ["Failed to add https://e.example/new: queue is full"%string]) /\
  snd (@Dashboard.handleAddURLs simpleLib quietOracle
         (@URLQueue plainCodec prefixRules x_full_world)
         (Some ["https://e.example/new"; "nonsense"]%string))
  = @URLQueue plainCodec prefixRules x_full_world.
Proof.
  destruct (proj2 (proj2 (@injection_accounts_for_every_valid_entry simpleLib quietOracle
              (@URLQueue plainCodec prefixRules x_full_world)
              ["https://e.example/new"; "nonsense"]%string)))
    as (r & q' & Hh & _); [intros Hd; discriminate Hd|].
  split; vm_compute; reflexivity.
Defined.

(** ** The extraction loops *)

Lemma dedup_fold (g : string -> option string) (l : list string) :
  forall st : gset string * list string,
    NoDup st.2 -> (forall x : string, x ∈ st.1 <-> x ∈ st.2) ->
    let st' := fold_left (dedup_step g) l st in
    NoDup st'.2 /\
    (forall x : string, x ∈ st'.1 <-> x ∈ st'.2) /\
    (forall x : string, x ∈ st'.2 <-> x ∈ st.2 \/ x ∈ omap g l) /\
    exists new : list string, st'.2 = st.2 ++ new /\ sublist new (omap g l).
Proof.
  induction l as [|a l IH]; intros st Hnd Hset; cbn [fold_left omap list_omap].
  - split; [done|]. split; [done|]. split.
    + intros x. split; [by left|]. intros [?|Hx]; [done|by apply elem_of_nil in Hx].
    + exists []. by rewrite app_nil_r.
  - assert (Hs : dedup_step g st a =
                 match g a with Some y => Extractor.keepNew st y | None => st end)
      by done.
    rewrite Hs. clear Hs. destruct (g a) as [y|] eqn:Hg.
    2:{ apply IH; done. }
    unfold Extractor.keepNew. destruct (bool_decide (y ∈ st.1)) eqn:Hin.
    + apply bool_decide_eq_true in Hin.
      destruct (IH st Hnd Hset) as (I1 & I2 & I3 & new & I4 & I5).
      split; [done|]. split; [done|]. split.
      * intros x. rewrite I3, elem_of_cons. split; [tauto|].
        intros [?|[->|?]]; [tauto| |tauto]. left. by apply Hset.
      * exists new. split; [done|]. by apply sublist_cons.
    + apply bool_decide_eq_false in Hin.
      destruct (IH ({[y]} ∪ st.1, st.2 ++ [y])) as (I1 & I2 & I3 & new & I4 & I5).
      { cbn [snd]. apply NoDup_app. split; [done|]. split.
        - intros x Hx [->|Hn]%elem_of_cons; [|by apply elem_of_nil in Hn].
          by apply Hin, Hset.
        - apply NoDup_singleton. }
      { cbn [fst snd]. intros x. rewrite elem_of_union, elem_of_singleton, elem_of_app,
          list_elem_of_singleton, Hset. tauto. }
      cbn [fst snd] in *. split; [done|]. split; [done|]. split.
      * intros x. rewrite I3, elem_of_app, list_elem_of_singleton, elem_of_cons. tauto.
      * exists (y :: new). split; [by rewrite I4, <- app_assoc|]. by apply sublist_skip.
Qed.

Lemma dedup_fresh (g : string -> option string) (l : list string) :
  let out := (fold_left (dedup_step g) l (∅, [])).2 in
  NoDup out /\
  (forall x : string, x ∈ out <-> x ∈ omap g l) /\
  sublist out (omap g l).
Proof.
  destruct (dedup_fold g l (∅, [])) as (I1 & _ & I3 & new & I4 & I5).
  { cbn. constructor. }
  { intros x. cbn. rewrite elem_of_empty, elem_of_nil. tauto. }
  cbv zeta in *. cbn [snd app] in I3, I4. split; [done|]. split.
  - intros x. rewrite I3, elem_of_nil. tauto.
  - by rewrite I4.
Qed.

Lemma filter_filter {A : Type} (f g : A -> bool) (l : list A) :
  List.filter f (List.filter g l) = List.filter (fun x => f x && g x) l.
Proof.
  induction l as [|x l IH]; [done|]. cbn [List.filter].
  destruct (g x); cbn [List.filter]; rewrite ?andb_true_r, ?andb_false_r, IH; done.
Qed.

(** The deduplication loop keeps the first occurrence of every item,
    in order. *)
Lemma dedup_first (g : string -> option string) (l : list string) :
  forall st : gset string * list string,
    (forall x : string, x ∈ st.1 <-> x ∈ st.2) ->
    (fold_left (dedup_step g) l st).2 =
    st.2 ++ List.filter (fun y => negb (bool_decide (y ∈ st.2)))
                        (first_occurrences (omap g l)).
Proof.
  induction l as [|a l IH]; intros st Hset; cbn [fold_left omap list_omap].
  - cbn. by rewrite app_nil_r.
  - assert (Hs : dedup_step g st a =
                 match g a with Some y => Extractor.keepNew st y | None => st end)
      by done.
    rewrite Hs. clear Hs. destruct (g a) as [y|] eqn:Hg; [|by apply IH].
    cbn [first_occurrences List.filter].
    unfold Extractor.keepNew. destruct (bool_decide (y ∈ st.1)) eqn:Hin.
    + apply bool_decide_eq_true in Hin.
      rewrite (bool_decide_eq_true_2 (y ∈ st.2)) by (by apply Hset). cbn [negb].
      rewrite IH by done. f_equal. rewrite filter_filter.
      apply filter_ext. intros x.
      destruct (bool_decide (x ∈ st.2)) eqn:Hx; cbn [negb andb]; [done|].
      apply bool_decide_eq_false in Hx.
      destruct (String.eqb_spec x y) as [->|Hne]; [|done].
      exfalso. by apply Hx, Hset.
    + apply bool_decide_eq_false in Hin.
      rewrite (bool_decide_eq_false_2 (y ∈ st.2)) by (intros Hy; by apply Hin, Hset).
      cbn [negb].
      rewrite IH.
      2:{ cbn [fst snd]. intros x. rewrite elem_of_union, elem_of_singleton, elem_of_app,
            list_elem_of_singleton, Hset. tauto. }
      cbn [fst snd]. rewrite <- app_assoc. cbn [app]. do 2 f_equal.
      rewrite filter_filter. apply filter_ext. intros x.
      destruct (String.eqb_spec x y) as [->|Hne].
      * rewrite bool_decide_eq_true_2; [by rewrite andb_false_r|].
        apply elem_of_app. right. by left.
      * rewrite andb_true_r. f_equal. apply bool_decide_ext.
        rewrite elem_of_app, list_elem_of_singleton. tauto.
Qed.

Lemma dedup_first_fresh (g : string -> option string) (l : list string) :
  (fold_left (dedup_step g) l (∅, [])).2 = first_occurrences (omap g l).
Proof.
  rewrite dedup_first.
  2:{ intros x. cbn. rewrite elem_of_empty, elem_of_nil. tauto. }
  cbn [snd app]. apply filter_all. intros x _.
  rewrite bool_decide_eq_false_2; [done|]. apply not_elem_of_nil.
Qed.

Lemma omap_Some_fmap (f : string -> string) (l : list string) :
  omap (fun m => Some (f m)) l = f <$> l.
Proof. induction l as [|a l IH]; [done|]. cbn. by f_equal. Qed.

Section ContentMore.
Context `{StdLib}.
Variable FindAllString : string -> list string.
Variable Document : Type.
Variable NewDocument : string -> option Document.
Variable attrValues : Document -> string -> list string.
Variable resolveReference : string -> string -> option string.

(** X29.  What the extractor returns is deduplicated.  [ExtractEmails]
    returns every pattern match in lower case, each once, in the order
    of first appearance: its result is [first_occurrences] of the
    lower-cased matches.  [ExtractLinks] returns nothing when the
    content cannot be read as a document or the base URL does not
    parse; otherwise its list has no duplicates and holds exactly the
    resolved [href] and [src] references that pass [IsValidURL] (so the
    validity test that [addNewURLs] repeats never rejects one of them),
    the [href] ones before the [src] ones, each in the place of its
    first occurrence. *)
Theorem extracted_lists_have_no_duplicates (content baseURL : string) :
  let emails := Extractor.ExtractEmails FindAllString content in
  let links := Extractor.ExtractLinks Document NewDocument attrValues resolveReference
                 content baseURL in
  emails = first_occurrences (ToLower <$> FindAllString content) /\
  NoDup emails /\
  (forall x : string,
     x ∈ emails <-> exists m : string, m ∈ FindAllString content /\ x = ToLower m) /\
  sublist emails (ToLower <$> FindAllString content) /\
  NoDup links /\
  (forall u : string, u ∈ links -> IsValidURL u = true) /\
  (NewDocument content = None \/ url_Parse baseURL = None -> links = []) /\
  (forall doc : Document,
     NewDocument content = Some doc -> url_Parse baseURL <> None ->
     links =
       first_occurrences
         (omap (fun ref : string =>
                  match resolveReference baseURL ref with
                  | Some urlStr => if IsValidURL urlStr then Some urlStr else None
                  | None => None
                  end)
               (attrValues doc "href" ++ attrValues doc "src")) /\
     forall u : string,
       u ∈ links <->
       IsValidURL u = true /\
       exists ref : string,
         ref ∈ attrValues doc "href" ++ attrValues doc "src" /\
         resolveReference baseURL ref = Some u).
Proof.
  intros emails links.
  assert (He : emails = (fold_left (dedup_step (fun m => Some (ToLower m)))
                           (FindAllString content) (∅, [])).2) by done.
  destruct (dedup_fresh (fun m => Some (ToLower m)) (FindAllString content))
    as (E1 & E3 & E5).
  cbv zeta in *. rewrite <- He in E1, E3, E5.
  rewrite omap_Some_fmap in E3, E5.
  split.
  { rewrite He, dedup_first_fresh. by rewrite omap_Some_fmap. }
  split; [done|]. split.
  { intros x. rewrite E3, list_elem_of_fmap. split.
    - intros (m & -> & Hm). by exists m.
    - intros (m & Hm & ->). by exists m. }
  split; [done|].
  subst links. unfold Extractor.ExtractLinks.
  destruct (NewDocument content) as [doc|].
  2:{ split; [constructor|]. split; [by intros u Hu%elem_of_nil|]. split; [done|].
      intros ? Hd. discriminate Hd. }
  destruct (url_Parse baseURL) as [baseU|].
  2:{ split; [constructor|]. split; [by intros u Hu%elem_of_nil|]. split; [done|].
      intros ? _ Hd. by destruct Hd. }
  set (gl := fun ref : string =>
               match resolveReference baseURL ref with
               | Some urlStr => if IsValidURL urlStr then Some urlStr else None
               | None => None
               end).
  assert (Hstep : forall st ref, Extractor.collectLink resolveReference baseURL st ref =
                                 dedup_step gl st ref).
  { intros st ref. unfold Extractor.collectLink, dedup_step, gl.
    destruct (resolveReference baseURL ref) as [u|]; [|done]. by destruct (IsValidURL u). }
  assert (Hfold : forall l st, fold_left (Extractor.collectLink resolveReference baseURL) l st =
                               fold_left (dedup_step gl) l st).
  { induction l as [|a l IH]; intros st; [done|]. cbn [fold_left]. by rewrite Hstep, IH. }
  rewrite !Hfold, <- fold_left_app.
  destruct (dedup_fresh gl (attrValues doc "href" ++ attrValues doc "src"))
    as (L1 & L3 & _).
  cbv zeta in *.
  assert (Hmem : forall u : string,
            u ∈ omap gl (attrValues doc "href" ++ attrValues doc "src") <->
            IsValidURL u = true /\
            exists ref : string,
              ref ∈ attrValues doc "href" ++ attrValues doc "src" /\
              resolveReference baseURL ref = Some u).
  { intros u. rewrite list_elem_of_omap. unfold gl. split.
    - intros (ref & Hr & Hg).
      destruct (resolveReference baseURL ref) as [v|] eqn:Hres; [|done].
      destruct (IsValidURL v) eqn:Hv; [|done]. injection Hg as <-.
      split; [done|]. by exists ref.
    - intros (Hv & ref & Hr & Hres). exists ref. split; [done|].
      by rewrite Hres, Hv. }
  split; [done|]. split.
  { intros u Hu. apply L3 in Hu. by apply Hmem in Hu as [? _]. }
  split; [by intros [Hd|Hd]|].
  intros doc' [= <-] _. split; [apply dedup_first_fresh|].
  intros u. by rewrite L3, Hmem.
Qed.

Variable Count : string -> string -> Z.

Lemma keywords_fold (content : string) (keywords : list string) :
  forall (results0 : gmap string Z) (k : string) (n : Z),
    fold_left (fun results keyword =>
                 if 0 <? Count (ToLower content) (ToLower keyword)
                 then <[keyword := Count (ToLower content) (ToLower keyword)]> results
                 else results) keywords results0 !! k = Some n <->
    (k ∈ keywords /\ n = Count (ToLower content) (ToLower k) /\ 0 < n) \/
    (results0 !! k = Some n /\
     ~ (k ∈ keywords /\ 0 < Count (ToLower content) (ToLower k))).
Proof.
  induction keywords as [|a rest IH]; intros results0 k n; cbn [fold_left].
  - split.
    + intros Hl. right. split; [done|]. by intros [Hn%elem_of_nil _].
    + intros [[Hn%elem_of_nil _]|[Hl _]]; done.
  - rewrite IH. clear IH. rewrite elem_of_cons.
    destruct (Z.ltb_spec 0 (Count (ToLower content) (ToLower a))) as [Hpos|Hnp].
    + destruct (decide (k = a)) as [->|Hne].
      * rewrite lookup_insert_eq. split.
        -- intros [(Hin & -> & Hn)|[[= <-] Hnot]]; left; split; tauto.
        -- intros [([_|Hin] & -> & Hn)|[_ Hnot]].
           ++ destruct (decide (a ∈ rest)) as [Hin|Hnin].
              ** left. tauto.
              ** right. split; [done|]. tauto.
           ++ left. tauto.
           ++ exfalso. apply Hnot. split; [by left|done].
      * rewrite lookup_insert_ne by done. split.
        -- intros [(Hin & -> & Hn)|[Hl Hnot]]; [left; tauto|].
           right. split; [done|]. intros [[->|Hin] Hp]; [done|tauto].
        -- intros [([->|Hin] & -> & Hn)|[Hl Hnot]]; [done|left; tauto|].
           right. split; [done|]. intros [Hin Hp]. apply Hnot. tauto.
    + split.
      * intros [(Hin & -> & Hn)|[Hl Hnot]]; [left; tauto|].
        right. split; [done|]. intros [[->|Hin] Hp]; [lia|tauto].
      * intros [([->|Hin] & -> & Hn)|[Hl Hnot]]; [lia|left; tauto|].
        right. split; [done|]. intros [Hin Hp]. apply Hnot. tauto.
Qed.

(** X30.  [ExtractKeywords] records a keyword exactly when it occurs:
    the map has an entry for a keyword of the list if and only if
    [strings.Count] finds it at least once in the lower-cased content,
    and the entry is that count; so every recorded count is positive and
    no other key appears.  Matching ignores case but the key keeps the
    spelling it was given, so two spellings of one word get an entry
    each, with the same count. *)
Theorem ExtractKeywords_records_positive_counts (content : string)
  (keywords : list string) :
  let results := Extractor.ExtractKeywords Count content keywords in
  (forall (k : string) (n : Z),
     results !! k = Some n <->
     k ∈ keywords /\ n = Count (ToLower content) (ToLower k) /\ 0 < n) /\
  map_Forall (fun _ n => 0 < n) results /\
  (forall k : string, k ∉ keywords -> results !! k = None) /\
  (forall k1 k2 : string,
     k1 ∈ keywords -> k2 ∈ keywords -> ToLower k1 = ToLower k2 ->
     results !! k1 = results !! k2).
Proof.
  intros results.
  assert (Hiff : forall (k : string) (n : Z),
            results !! k = Some n <->
            k ∈ keywords /\ n = Count (ToLower content) (ToLower k) /\ 0 < n).
  { intros k n. subst results. unfold Extractor.ExtractKeywords.
    rewrite keywords_fold, lookup_empty. split; [|tauto].
    intros [?|[Hd _]]; [done|discriminate Hd]. }
  split; [exact Hiff|]. split; [|split].
  - intros k n Hl. by apply Hiff in Hl as (_ & _ & ?).
  - intros k Hk. destruct (results !! k) as [n|] eqn:Hl; [|done].
    apply Hiff in Hl as (? & _). done.
  - intros k1 k2 H1 H2 Hlow.
    destruct (results !! k1) as [n|] eqn:Hl1.
    + apply Hiff in Hl1 as (_ & -> & Hp). symmetry. apply Hiff.
      rewrite <- Hlow. done.
    + destruct (results !! k2) as [n|] eqn:Hl2; [|done].
      apply Hiff in Hl2 as (_ & -> & Hp).
      assert (Hx : results !! k1 = Some (Count (ToLower content) (ToLower k1))).
      { apply Hiff. rewrite Hlow. done. }
      rewrite Hx in Hl1. discriminate Hl1.
Qed.

End ContentMore.
